(** * Snake game and leaderboard service: shallow embedding and properties

    The development follows the repository:
    - [JS]: the fragment of JavaScript values and number arithmetic the
      services use;
    - [SubmitScore]: the submit-score function ([checkRateLimit],
      [validateScore] and the request handler);
    - [GetLeaderboard]: the get-leaderboard function with its cache;
    - [Service]: the two functions over the one blob store;
    - [GameJs]: game.js, with its modules [CONFIG], [Snake], [Food], [Input]
      and [Game], the global [gameState] and the event handlers;
    - [GameProps], [ServiceProps]: the vocabulary in which the properties
      are stated.

    Definitions come first, the theorems about them follow. *)

From Stdlib Require Import ZArith QArith Qround Qabs Lqa Lia Bool List.
From Stdlib Require Import Sorted Permutation.
From Stdlib Require Import String Ascii.
From stdpp Require Import base option gmap strings.
Import ListNotations.

Set Warnings "-register-all".
Local Open Scope Z_scope.

(** ** Outcomes of a JavaScript computation

    [Ok v]: normal completion; [Throws]: an exception propagates;
    [Diverges]: the loop bound of the model was used up (the JavaScript
    loop is still running). *)

Inductive result (A : Type) : Type :=
| Ok (a : A)
| Throws
| Diverges.

Arguments Ok {A} a.
Arguments Throws {A}.
Arguments Diverges {A}.

Definition bind {A B : Type} (r : result A) (k : A -> result B) : result B :=
  match r with
  | Ok a => k a
  | Throws => Throws
  | Diverges => Diverges
  end.

Notation "'do' x <- r ; k" := (bind r (fun x => k))
  (at level 10, x name, r at level 100, k at level 200).

(** ** JavaScript numbers and values *)

Module JS.

(** A JavaScript number: NaN, the two infinities, or a finite value.  Finite
    values are carried as rationals and arithmetic on them is exact: the
    rounding of IEEE doubles and the sign of zero are not modelled.  All the
    quantities the services compute with (scores, lengths, epoch
    milliseconds) are integers far below 2^53, on which double arithmetic is
    exact as well. *)
Inductive number : Type :=
| NaN
| PInf
| NInf
| Fin (q : Q).

Definition of_Z (z : Z) : number := Fin (inject_Z z).

Definition neg (a : number) : number :=
  match a with
  | NaN => NaN
  | PInf => NInf
  | NInf => PInf
  | Fin q => Fin (- q)
  end.

Definition add (a b : number) : number :=
  match a, b with
  | NaN, _ | _, NaN => NaN
  | PInf, NInf | NInf, PInf => NaN
  | PInf, _ | _, PInf => PInf
  | NInf, _ | _, NInf => NInf
  | Fin p, Fin q => Fin (p + q)
  end.

Definition sub (a b : number) : number := add a (neg b).

(** Sign of a rational as a comparison with zero. *)
Definition sgn (q : Q) : comparison := (q ?= 0)%Q.

Definition mul (a b : number) : number :=
  match a, b with
  | NaN, _ | _, NaN => NaN
  | Fin p, Fin q => Fin (p * q)
  | Fin p, PInf | PInf, Fin p =>
      match sgn p with Eq => NaN | Gt => PInf | Lt => NInf end
  | Fin p, NInf | NInf, Fin p =>
      match sgn p with Eq => NaN | Gt => NInf | Lt => PInf end
  | PInf, PInf | NInf, NInf => PInf
  | PInf, NInf | NInf, PInf => NaN
  end.

Definition div (a b : number) : number :=
  match a, b with
  | NaN, _ | _, NaN => NaN
  | Fin p, Fin q =>
      match sgn q with
      | Eq => match sgn p with Eq => NaN | Gt => PInf | Lt => NInf end
      | _ => Fin (p / q)
      end
  | Fin _, (PInf | NInf) => Fin 0
  | PInf, Fin q => match sgn q with Lt => NInf | _ => PInf end
  | NInf, Fin q => match sgn q with Lt => PInf | _ => NInf end
  | (PInf | NInf), (PInf | NInf) => NaN
  end.

(** Truncation of a rational towards zero. *)
Definition Qtrunc (q : Q) : Z := Z.quot (Qnum q) (Zpos (Qden q)).

(** The remainder operator [a % b]: the result takes the sign of the
    dividend, [a - b * trunc (a / b)]. *)
Definition rem (a b : number) : number :=
  match a, b with
  | NaN, _ | _, NaN => NaN
  | (PInf | NInf), _ => NaN
  | Fin p, (PInf | NInf) => Fin p
  | Fin p, Fin q =>
      match sgn q with
      | Eq => NaN
      | _ => Fin (p - q * inject_Z (Qtrunc (p / q)))
      end
  end.

(** [a | 0], the conversion ToInt32: truncation towards zero, then
    wrap-around to 32 bits, signed; 0 for NaN and the infinities. *)
Definition toInt32 (a : number) : Z :=
  match a with
  | Fin q =>
      let m := Qtrunc q mod 2 ^ 32 in
      if m >=? 2 ^ 31 then m - 2 ^ 32 else m
  | _ => 0
  end.

(** One digit of [Number.prototype.toString(16)]. *)
Definition hexDigit (n : Z) : ascii :=
  nth (Z.to_nat n) (list_ascii_of_string "0123456789abcdef") "0"%char.

(** The hexadecimal digits of a non-negative integer below [16 ^ fuel],
    most significant first, in front of [acc]. *)
Fixpoint hexDigits (fuel : nat) (n : Z) (acc : string) : string :=
  match fuel with
  | O => acc
  | S f =>
      let acc' := String (hexDigit (n mod 16)) acc in
      if n / 16 =? 0 then acc' else hexDigits f (n / 16) acc'
  end.

(** [v.toString(16)] for a 32-bit integer [v]. *)
Definition toString16 (v : Z) : string :=
  if v <? 0 then String "-" (hexDigits 8 (- v) "") else hexDigits 8 v "".

Definition abs (a : number) : number :=
  match a with
  | NaN => NaN
  | PInf | NInf => PInf
  | Fin q => Fin (Qabs q)
  end.

(** [a < b]; any comparison with NaN is false. *)
Definition lt (a b : number) : bool :=
  match a, b with
  | NaN, _ | _, NaN => false
  | _, NInf => false
  | PInf, _ => false
  | NInf, _ => true
  | Fin _, PInf => true
  | Fin p, Fin q => match (p ?= q)%Q with Lt => true | _ => false end
  end.

Definition gt (a b : number) : bool := lt b a.

(** [a === b] on numbers: NaN is different from everything. *)
Definition seq (a b : number) : bool :=
  match a, b with
  | PInf, PInf | NInf, NInf => true
  | Fin p, Fin q => Qeq_bool p q
  | _, _ => false
  end.

Definition sne (a b : number) : bool := negb (seq a b).

Definition is_finite (a : number) : bool :=
  match a with Fin _ => true | _ => false end.

(** JavaScript values.  An object is its table of own properties. *)
Inductive value : Type :=
| VUndefined
| VNull
| VBool (b : bool)
| VNumber (n : number)
| VString (s : string)
| VArray (items : list value)
| VObject (fields : list (string * value)).

Inductive jstype : Type :=
| TUndefined | TObject | TBoolean | TNumber | TString.

Definition typeof (v : value) : jstype :=
  match v with
  | VUndefined => TUndefined
  | VNull => TObject
  | VBool _ => TBoolean
  | VNumber _ => TNumber
  | VString _ => TString
  | VArray _ => TObject
  | VObject _ => TObject
  end.

(** ToBoolean: the values that make [!v] true are undefined, null, false,
    0, NaN and the empty string. *)
Definition truthy (v : value) : bool :=
  match v with
  | VUndefined | VNull => false
  | VBool b => b
  | VNumber NaN => false
  | VNumber (Fin q) => negb (Qeq_bool q 0)
  | VNumber _ => true
  | VString s => negb (String.eqb s "")
  | VArray _ | VObject _ => true
  end.

Fixpoint lookup_field (k : string) (fields : list (string * value)) : value :=
  match fields with
  | [] => VUndefined
  | (k', v) :: rest => if String.eqb k k' then v else lookup_field k rest
  end.

(** Reading the property [k] as destructuring [const { k } = v] does: null
    and undefined cannot be destructured (TypeError); a primitive or an array
    has none of the property names used by the services. *)
Definition get (v : value) (k : string) : result value :=
  match v with
  | VUndefined | VNull => Throws
  | VObject fields => Ok (lookup_field k fields)
  | _ => Ok VUndefined
  end.

(** What [JSON.parse] can produce: no undefined, no NaN. *)
Fixpoint is_json (v : value) : bool :=
  match v with
  | VUndefined => false
  | VNumber NaN => false
  | VArray items => forallb is_json items
  | VObject fields => forallb (fun kv => is_json (snd kv)) fields
  | _ => true
  end.

(** [JSON.parse (JSON.stringify v)], what a value comes back as once it has
    been written as JSON text: NaN and the infinities are written as null,
    an undefined array item is written as null, and a property whose value
    is undefined is not written.  (For undefined itself nothing is
    written.) *)
Fixpoint jsonRoundTrip (v : value) : value :=
  match v with
  | VNumber (Fin q) => VNumber (Fin q)
  | VNumber _ => VNull
  | VArray items =>
      VArray (map (fun item =>
                     match item with
                     | VUndefined => VNull
                     | _ => jsonRoundTrip item
                     end) items)
  | VObject fields =>
      VObject (flat_map (fun kv =>
                           match snd kv with
                           | VUndefined => []
                           | _ => [(fst kv, jsonRoundTrip (snd kv))]
                           end) fields)
  | _ => v
  end.

End JS.

(** ** The submit-score function *)

Module SubmitScore.
Import JS.

(** *** Rate limiting *)

Record rateEntry : Type := { windowStart : Z; count : Z }.

Definition RATE_LIMIT_WINDOW : Z := 60000.
Definition RATE_LIMIT_MAX : Z := 5.

(** [checkRateLimit now ip m]: [now] is the value of [Date.now()]; the
    result carries the updated [rateLimitMap] ([entry.count++] mutates the
    object held by the map). *)
Definition checkRateLimit (now : Z) (ip : string) (rateLimitMap : gmap string rateEntry)
  : bool * gmap string rateEntry :=
  match rateLimitMap !! ip with
  | None =>
      (true, <[ip := {| windowStart := now; count := 1 |}]> rateLimitMap)
  | Some entry =>
      if now - windowStart entry >? RATE_LIMIT_WINDOW then
        (true, <[ip := {| windowStart := now; count := 1 |}]> rateLimitMap)
      else if count entry >=? RATE_LIMIT_MAX then
        (false, rateLimitMap)
      else
        (true, <[ip := {| windowStart := windowStart entry;
                          count := count entry + 1 |}]> rateLimitMap)
  end.

(** *** Validation *)

Record verdict : Type := { valid : bool; error : option string }.

Definition reject (msg : string) : verdict := {| valid := false; error := Some msg |}.
Definition accept : verdict := {| valid := true; error := None |}.

(** [typeof v !== 'number' || p v] *)
Definition notNumberOr (v : value) (p : number -> bool) : bool :=
  match v with
  | VNumber n => p n
  | _ => true
  end.

Definition validDifficulties : list string := ["EASY"; "MEDIUM"; "HARD"]%string.

(** [validDifficulties.includes(v)] *)
Definition includes (l : list string) (v : value) : bool :=
  match v with
  | VString s => existsb (String.eqb s) l
  | _ => false
  end.

Definition isObjectType (v : value) : bool :=
  match typeof v with TObject => true | _ => false end.

(** The checks on [gameData], for a score [score] that passed the first two
    checks.  The distance of the snake length from the expected length is
    exact here; the code measures it in floating point, and so also lets
    through a length whose distance rounds to 2. *)
Definition validateGameData (score : number) (gameData : value) : result verdict :=
  if negb (truthy gameData) || negb (isObjectType gameData) then
    Ok (reject "Missing game data")
  else
    do difficulty <- get gameData "difficulty";
    do snakeLength <- get gameData "snakeLength";
    do gameTime <- get gameData "gameTime";
    if negb (includes validDifficulties difficulty) then
      Ok (reject "Invalid difficulty")
    else
      let expectedLength := add (div score (of_Z 10)) (of_Z 3) in
      if notNumberOr snakeLength
           (fun l => gt (abs (sub l expectedLength)) (of_Z 2)) then
        Ok (reject "Invalid game data")
      else
        let minGameTime := mul (div score (of_Z 10)) (of_Z 500) in
        if notNumberOr gameTime (fun g => lt g minGameTime) then
          Ok (reject "Invalid game time")
        else
          Ok accept.

(** [validateScore now data]: [now] is the value of [Date.now()]. *)
Definition validateScore (now : Z) (data : value) : result verdict :=
  do score <- get data "score";
  do gameData <- get data "gameData";
  do timestamp <- get data "timestamp";
  match score with
  | VNumber s =>
      if sne (rem s (of_Z 10)) (of_Z 0) then
        Ok (reject "Invalid score format")
      else if lt s (of_Z 0) || gt s (of_Z 10000) then
        Ok (reject "Score out of range")
      else if notNumberOr timestamp
                (fun t => gt (abs (sub (of_Z now) t)) (of_Z 600000)) then
        Ok (reject "Timestamp expired")
      else
        validateGameData s gameData
  | _ => Ok (reject "Invalid score format")
  end.

(** *** Identifiers *)

(** The callback [generateId] hands to [replace]: [random] is the value of
    [Math.random()], [c] the character matched. *)
Definition replacement (random : Q) (c : ascii) : string :=
  let r := toInt32 (mul (Fin random) (of_Z 16)) in
  let v := if Ascii.eqb c "x" then r else Z.lor (Z.land r 3) 8 in
  toString16 v.

(** [template.replace(/[xy]/g, callback)]: the callback is called once for
    each x and y, from left to right; [random] gives the successive values
    of [Math.random()] and [n] counts the calls made so far. *)
Fixpoint replaceXY (template : string) (random : nat -> Q) (n : nat) : string :=
  match template with
  | EmptyString => EmptyString
  | String c rest =>
      if Ascii.eqb c "x" || Ascii.eqb c "y" then
        (replacement (random n) c ++ replaceXY rest random (S n))%string
      else String c (replaceXY rest random n)
  end.

Definition idTemplate : string := "xxxxxxxx-xxxx-4xxx-yxxx-xxxxxxxxxxxx".

Definition generateId (random : nat -> Q) (n : nat) : string :=
  replaceXY idTemplate random n.

(** *** The leaderboard record and its update *)

Record entry : Type := {
  id : string;
  score : number;
  difficulty : value;
  snakeLength : value;
  gameTime : value;
  timestamp : number
}.

Record leaderboard : Type := {
  version : Z;
  lastUpdated : Z;
  scores : list entry
}.

(** The comparator handed to [sort]. *)
Definition compareScores (a b : entry) : number :=
  if sne (score b) (score a) then sub (score b) (score a)
  else sub (timestamp a) (timestamp b).

(** [Array.prototype.sort] is a built-in of the language: it is stable, and
    it places [a] after [b] exactly when the comparator's result on (a, b) is
    positive (a NaN result counts as zero).  It is modelled by a stable
    insertion sort; for a comparator that is a total preorder every stable
    sort computes the same array. *)
Fixpoint sortInsert {A : Type} (cmp : A -> A -> number) (a : A) (l : list A) : list A :=
  match l with
  | [] => [a]
  | b :: rest =>
      if gt (cmp a b) (of_Z 0) then b :: sortInsert cmp a rest
      else a :: l
  end.

Fixpoint sort {A : Type} (cmp : A -> A -> number) (l : list A) : list A :=
  match l with
  | [] => []
  | a :: rest => sortInsert cmp a (sort cmp rest)
  end.

(** [Array.prototype.findIndex]: the first index whose element satisfies
    [p], or -1. *)
Fixpoint findIndex {A : Type} (p : A -> bool) (l : list A) : Z :=
  match l with
  | [] => -1
  | a :: rest =>
      if p a then 0
      else let i := findIndex p rest in if i <? 0 then -1 else i + 1
  end.

(** [slice(0, n)] *)
Definition slice0 {A : Type} (n : nat) (l : list A) : list A := firstn n l.

(** The retry loop around one store call.  [failures] tells, attempt by
    attempt, whether the call throws (attempts beyond the list succeed).
    The loop gives up, rethrowing, when [retries] reaches zero. *)
Fixpoint retryLoop (retries : nat) (failures : list bool) : result unit :=
  match retries with
  | O => Ok tt
  | S r =>
      match failures with
      | true :: later =>
          match r with
          | O => Throws
          | S _ => retryLoop r later
          end
      | _ => Ok tt
      end
  end.

(** What one invocation of the handler reads from its environment. *)
Record env : Type := {
  nowRateLimit : Z;          (* Date.now() in checkRateLimit *)
  nowValidate : Z;           (* Date.now() in validateScore *)
  nowDefault : Z;            (* Date.now() for the default record *)
  nowUpdate : Z;             (* Date.now() for lastUpdated *)
  newId : string;            (* generateId() *)
  readFailures : list bool;  (* store.get attempts that throw *)
  writeFailures : list bool  (* store.setJSON attempts that throw *)
}.

Record request : Type := {
  method : string;
  contextIp : option string;     (* context.ip *)
  forwardedFor : option string;  (* the x-forwarded-for header *)
  json : result value            (* request.json() *)
}.

Inductive message : Type :=
| MadeLeaderboard (rank : Z)   (* You made the leaderboard at #rank! *)
| ScoreSubmitted.              (* Score submitted successfully *)

Inductive body : Type :=
| ErrorBody (error : string)                        (* { error } *)
| FailureBody (error : string)                      (* { success: false, error } *)
| SuccessBody (rank : option Z) (msg : message).    (* { success: true, rank, message } *)

Record response : Type := { status : Z; responseBody : body }.

(** [a || b] on optional strings: the empty string is falsy. *)
Definition orElse (a : option string) (b : string) : string :=
  match a with
  | Some s => if String.eqb s "" then b else s
  | None => b
  end.

Definition clientIp (req : request) : string :=
  orElse (contextIp req) (orElse (forwardedFor req) "unknown").

Definition emptyLeaderboard (now : Z) : leaderboard :=
  {| version := 1; lastUpdated := now; scores := [] |}.

(** The entry built from a submission.  After validation [score] and
    [timestamp] are numbers; the record is typed accordingly. *)
Definition makeEntry (newId : string) (data : value) : result entry :=
  do score <- get data "score";
  do gameData <- get data "gameData";
  do timestamp <- get data "timestamp";
  do difficulty <- get gameData "difficulty";
  do snakeLength <- get gameData "snakeLength";
  do gameTime <- get gameData "gameTime";
  match score, timestamp with
  | VNumber s, VNumber t =>
      Ok {| id := newId; score := s; difficulty := difficulty;
            snakeLength := snakeLength; gameTime := gameTime; timestamp := t |}
  | _, _ => Throws
  end.

(** Insertion of [newEntry] into [leaderboardData]: push, sort, keep the top
    20, look the new entry up by id.  Returns the updated record and the
    [rank] field of the response. *)
Definition insertEntry (now : Z) (leaderboardData : leaderboard) (newEntry : entry)
  : leaderboard * option Z :=
  let pushed := scores leaderboardData ++ [newEntry] in
  let sorted := sort compareScores pushed in
  let top := slice0 20 sorted in
  let rank := findIndex (fun s => String.eqb (id s) (id newEntry)) top + 1 in
  let madeLeaderboard := (rank >? 0) && (rank <=? 20) in
  ({| version := version leaderboardData; lastUpdated := now; scores := top |},
   if madeLeaderboard then Some rank else None).

(** The body of the handler's [try] block, from the stored record (if any)
    to the record to persist and the response.  The record is the value
    handed to [store.setJSON]; the store keeps its JSON text
    ([JS.jsonRoundTrip]). *)
Definition trySubmit (e : env) (req : request) (stored : option leaderboard)
  : result (option leaderboard * response) :=
  do data <- json req;
  do validation <- validateScore (nowValidate e) data;
  if negb (valid validation) then
    Ok (stored,
        {| status := 400;
           responseBody := FailureBody (default ""%string (error validation)) |})
  else
    do newEntry <- makeEntry (newId e) data;
    do _ <- retryLoop 3 (readFailures e);
    let leaderboardData :=
      match stored with
      | Some existing => existing
      | None => emptyLeaderboard (nowDefault e)
      end in
    let '(updated, rank) := insertEntry (nowUpdate e) leaderboardData newEntry in
    do _ <- retryLoop 3 (writeFailures e);
    Ok (Some updated,
        {| status := 200;
           responseBody :=
             SuccessBody rank
               match rank with
               | Some r => MadeLeaderboard r
               | None => ScoreSubmitted
               end |}).

Record state : Type := {
  rateLimitMap : gmap string rateEntry;
  store : option leaderboard   (* the "scores" key of the blob store *)
}.

Definition handler (e : env) (req : request) (s : state) : state * response :=
  if negb (String.eqb (method req) "POST") then
    (s, {| status := 405; responseBody := ErrorBody "Method not allowed" |})
  else
    let ip := clientIp req in
    let '(allowed, limits) := checkRateLimit (nowRateLimit e) ip (rateLimitMap s) in
    if negb allowed then
      ({| rateLimitMap := limits; store := store s |},
       {| status := 429;
          responseBody :=
            FailureBody "Rate limit exceeded. Please wait before submitting again." |})
    else
      match trySubmit e req (store s) with
      | Ok (stored, resp) => ({| rateLimitMap := limits; store := stored |}, resp)
      | _ =>
          ({| rateLimitMap := limits; store := store s |},
           {| status := 500; responseBody := FailureBody "Server error" |})
      end.

End SubmitScore.

(** ** The get-leaderboard function *)

Module GetLeaderboard.
Import SubmitScore.

Definition CACHE_TTL : Z := 5000.

(** The module-level cache. *)
Record cache : Type := {
  cachedData : option leaderboard;
  cacheTimestamp : Z
}.

Definition initialCache : cache := {| cachedData := None; cacheTimestamp := 0 |}.

Record env : Type := {
  now : Z;                   (* Date.now() at the start of the try block *)
  nowDefault : Z;            (* Date.now() for the default record *)
  readFailures : list bool   (* store.get attempts that throw *)
}.

Inductive body : Type :=
| ErrorBody (error : string)                              (* { error } *)
| ScoresBody (scores : list entry) (lastUpdated : Z)      (* { success: true, scores, lastUpdated } *)
| FailureBody (error : string) (scores : list entry).     (* { success: false, error, scores } *)

Record response : Type := { status : Z; responseBody : body }.

Definition okResponse (data : leaderboard) : response :=
  {| status := 200;
     responseBody := ScoresBody (scores data) (lastUpdated data) |}.

(** [cachedData && (now - cacheTimestamp) < CACHE_TTL] *)
Definition cacheHit (c : cache) (now : Z) : option leaderboard :=
  match cachedData c with
  | Some data => if now - cacheTimestamp c <? CACHE_TTL then Some data else None
  | None => None
  end.

(** [handler e method c stored]: [c] is the cache of this function instance,
    [stored] the record under the "scores" key (the handler never writes
    it). *)
Definition handler (e : env) (method : string) (c : cache) (stored : option leaderboard)
  : cache * response :=
  if negb (String.eqb method "GET") then
    (c, {| status := 405; responseBody := ErrorBody "Method not allowed" |})
  else
    match cacheHit c (now e) with
    | Some data => (c, okResponse data)
    | None =>
        match retryLoop 3 (readFailures e) with
        | Ok _ =>
            let leaderboardData :=
              match stored with
              | Some existing => existing
              | None => emptyLeaderboard (nowDefault e)
              end in
            ({| cachedData := Some leaderboardData; cacheTimestamp := now e |},
             okResponse leaderboardData)
        | _ =>
            (c, {| status := 500;
                   responseBody := FailureBody "Server error" [] |})
        end
    end.

End GetLeaderboard.

(** ** The two functions over one store *)

Module Service.

Record system : Type := {
  submitState : SubmitScore.state;   (* rate-limit map and the stored record *)
  queryCache : GetLeaderboard.cache
}.

Definition initial : system :=
  {| submitState := {| SubmitScore.rateLimitMap := ∅; SubmitScore.store := None |};
     queryCache := GetLeaderboard.initialCache |}.

Definition submit (e : SubmitScore.env) (req : SubmitScore.request) (s : system)
  : system * SubmitScore.response :=
  let '(st, resp) := SubmitScore.handler e req (submitState s) in
  ({| submitState := st; queryCache := queryCache s |}, resp).

Definition query (e : GetLeaderboard.env) (method : string) (s : system)
  : system * GetLeaderboard.response :=
  let '(c, resp) :=
    GetLeaderboard.handler e method (queryCache s) (SubmitScore.store (submitState s)) in
  ({| submitState := submitState s; queryCache := c |}, resp).

(** A cold start: the memory of both functions is lost, the store stays. *)
Definition coldStart (s : system) : system :=
  {| submitState := {| SubmitScore.rateLimitMap := ∅;
                       SubmitScore.store := SubmitScore.store (submitState s) |};
     queryCache := GetLeaderboard.initialCache |}.

(** What [request.json()] gives is a value [JSON.parse] can produce. *)
Definition jsonBody (req : SubmitScore.request) : Prop :=
  forall data, SubmitScore.json req = Ok data -> JS.is_json data = true.

(** The states the service reaches from a cold start with an empty store,
    requests being handled one after the other. *)
Inductive reachable : system -> Prop :=
| reach_initial : reachable initial
| reach_coldStart s : reachable s -> reachable (coldStart s)
| reach_submit e req s :
    jsonBody req -> reachable s -> reachable (fst (submit e req s))
| reach_query e method s :
    reachable s -> reachable (fst (query e method s)).

End Service.

(** ** game.js *)

Module GameJs.

Module CONFIG.
Definition GRID_SIZE : Z := 20.
Definition MIN_SPEED : Z := 50.
Definition POINTS_PER_FOOD : Z := 10.
Definition INITIAL_SNAKE_LENGTH : nat := 3.
Definition MIN_SWIPE_DISTANCE : Z := 30.

Inductive difficultyKey : Type := EASY | MEDIUM | HARD.

Record difficultySettings : Type := {
  foodTimeout : Z;
  initialSpeed : Z;
  speedIncrement : Z
}.

Definition DIFFICULTY (k : difficultyKey) : difficultySettings :=
  match k with
  | EASY => {| foodTimeout := 7000; initialSpeed := 200; speedIncrement := 3 |}
  | MEDIUM => {| foodTimeout := 5000; initialSpeed := 150; speedIncrement := 5 |}
  | HARD => {| foodTimeout := 3000; initialSpeed := 100; speedIncrement := 8 |}
  end.
End CONFIG.

(** A grid coordinate or a direction vector, [{ x, y }]. *)
Record point : Type := { x : Z; y : Z }.

Definition point_eqb (p q : point) : bool := (x p =? x q) && (y p =? y q).

(** The global [gameState].  [difficulty] stands for the pair
    [difficulty]/[difficultyKey], which are always set together.
    [gameLoopId] and [foodTimerId] tell whether the timeout they refer to is
    pending.  [randomPos] counts the calls of [Math.random] made so far.  The
    fields that only feed the display and the leaderboard request
    ([gameStartTime], [leaderboard]) are left out. *)
Record gameState : Type := {
  snake : list point;
  direction : point;
  nextDirection : point;
  food : point;
  score : Z;
  isPlaying : bool;
  gameLoopId : bool;
  speed : Z;
  shouldGrow : bool;
  difficulty : option CONFIG.difficultyKey;
  foodTimerId : bool;
  randomPos : nat
}.

Definition initialState : gameState :=
  {| snake := [];
     direction := {| x := 1; y := 0 |};
     nextDirection := {| x := 1; y := 0 |};
     food := {| x := 0; y := 0 |};
     score := 0;
     isPlaying := false;
     gameLoopId := false;
     speed := 150;
     shouldGrow := false;
     difficulty := None;
     foodTimerId := false;
     randomPos := 0 |}.

Definition set_snake (v : list point) (s : gameState) : gameState :=
  {| snake := v; direction := direction s; nextDirection := nextDirection s;
     food := food s; score := score s; isPlaying := isPlaying s;
     gameLoopId := gameLoopId s; speed := speed s; shouldGrow := shouldGrow s;
     difficulty := difficulty s; foodTimerId := foodTimerId s;
     randomPos := randomPos s |}.

Definition set_direction (v : point) (s : gameState) : gameState :=
  {| snake := snake s; direction := v; nextDirection := nextDirection s;
     food := food s; score := score s; isPlaying := isPlaying s;
     gameLoopId := gameLoopId s; speed := speed s; shouldGrow := shouldGrow s;
     difficulty := difficulty s; foodTimerId := foodTimerId s;
     randomPos := randomPos s |}.

Definition set_nextDirection (v : point) (s : gameState) : gameState :=
  {| snake := snake s; direction := direction s; nextDirection := v;
     food := food s; score := score s; isPlaying := isPlaying s;
     gameLoopId := gameLoopId s; speed := speed s; shouldGrow := shouldGrow s;
     difficulty := difficulty s; foodTimerId := foodTimerId s;
     randomPos := randomPos s |}.

Definition set_food (v : point) (pos : nat) (s : gameState) : gameState :=
  {| snake := snake s; direction := direction s; nextDirection := nextDirection s;
     food := v; score := score s; isPlaying := isPlaying s;
     gameLoopId := gameLoopId s; speed := speed s; shouldGrow := shouldGrow s;
     difficulty := difficulty s; foodTimerId := foodTimerId s;
     randomPos := pos |}.

Definition set_score (v : Z) (s : gameState) : gameState :=
  {| snake := snake s; direction := direction s; nextDirection := nextDirection s;
     food := food s; score := v; isPlaying := isPlaying s;
     gameLoopId := gameLoopId s; speed := speed s; shouldGrow := shouldGrow s;
     difficulty := difficulty s; foodTimerId := foodTimerId s;
     randomPos := randomPos s |}.

Definition set_isPlaying (v : bool) (s : gameState) : gameState :=
  {| snake := snake s; direction := direction s; nextDirection := nextDirection s;
     food := food s; score := score s; isPlaying := v;
     gameLoopId := gameLoopId s; speed := speed s; shouldGrow := shouldGrow s;
     difficulty := difficulty s; foodTimerId := foodTimerId s;
     randomPos := randomPos s |}.

Definition set_gameLoopId (v : bool) (s : gameState) : gameState :=
  {| snake := snake s; direction := direction s; nextDirection := nextDirection s;
     food := food s; score := score s; isPlaying := isPlaying s;
     gameLoopId := v; speed := speed s; shouldGrow := shouldGrow s;
     difficulty := difficulty s; foodTimerId := foodTimerId s;
     randomPos := randomPos s |}.

Definition set_speed (v : Z) (s : gameState) : gameState :=
  {| snake := snake s; direction := direction s; nextDirection := nextDirection s;
     food := food s; score := score s; isPlaying := isPlaying s;
     gameLoopId := gameLoopId s; speed := v; shouldGrow := shouldGrow s;
     difficulty := difficulty s; foodTimerId := foodTimerId s;
     randomPos := randomPos s |}.

Definition set_shouldGrow (v : bool) (s : gameState) : gameState :=
  {| snake := snake s; direction := direction s; nextDirection := nextDirection s;
     food := food s; score := score s; isPlaying := isPlaying s;
     gameLoopId := gameLoopId s; speed := speed s; shouldGrow := v;
     difficulty := difficulty s; foodTimerId := foodTimerId s;
     randomPos := randomPos s |}.

Definition set_difficulty (v : option CONFIG.difficultyKey) (s : gameState) : gameState :=
  {| snake := snake s; direction := direction s; nextDirection := nextDirection s;
     food := food s; score := score s; isPlaying := isPlaying s;
     gameLoopId := gameLoopId s; speed := speed s; shouldGrow := shouldGrow s;
     difficulty := v; foodTimerId := foodTimerId s;
     randomPos := randomPos s |}.

Definition set_foodTimerId (v : bool) (s : gameState) : gameState :=
  {| snake := snake s; direction := direction s; nextDirection := nextDirection s;
     food := food s; score := score s; isPlaying := isPlaying s;
     gameLoopId := gameLoopId s; speed := speed s; shouldGrow := shouldGrow s;
     difficulty := difficulty s; foodTimerId := v;
     randomPos := randomPos s |}.

(** What the page gives the game: the values [Math.random] returns, call by
    call, and the number of iterations the model follows a loop for. *)
Record host : Type := {
  random : nat -> Q;
  loopBound : nat
}.

(** [gameState.snake[0]]; reading a coordinate of the head of an empty
    array throws. *)
Definition headOf (s : gameState) : result point :=
  match snake s with
  | head :: _ => Ok head
  | [] => Throws
  end.

Module Snake.

(** The initial segments, [centerX - i] for [i] below the initial length. *)
Fixpoint segments (centerX centerY : Z) (i n : nat) : list point :=
  match n with
  | O => []
  | S m => {| x := centerX - Z.of_nat i; y := centerY |}
           :: segments centerX centerY (S i) m
  end.

Definition initialize (s : gameState) : gameState :=
  let centerX := CONFIG.GRID_SIZE / 2 in
  let centerY := CONFIG.GRID_SIZE / 2 in
  let s := set_snake (segments centerX centerY 0 CONFIG.INITIAL_SNAKE_LENGTH) s in
  let s := set_direction {| x := 1; y := 0 |} s in
  let s := set_nextDirection {| x := 1; y := 0 |} s in
  set_shouldGrow false s.

Definition move (s : gameState) : result gameState :=
  let s := set_direction (nextDirection s) s in
  do head <- headOf s;
  let newHead := {| x := x head + x (direction s);
                    y := y head + y (direction s) |} in
  let s := set_snake (newHead :: snake s) s in
  if negb (shouldGrow s) then
    Ok (set_snake (removelast (snake s)) s)
  else
    Ok (set_shouldGrow false s).

Definition grow (s : gameState) : gameState := set_shouldGrow true s.

Definition checkSelfCollision (s : gameState) : result bool :=
  do head <- headOf s;
  Ok (existsb (fun seg => (x head =? x seg) && (y head =? y seg)) (tl (snake s))).

Definition checkWallCollision (s : gameState) : result bool :=
  do head <- headOf s;
  Ok ((x head <? 0) || (x head >=? CONFIG.GRID_SIZE) ||
      (y head <? 0) || (y head >=? CONFIG.GRID_SIZE)).

End Snake.

Module Food.

(** [Math.floor(Math.random() * CONFIG.GRID_SIZE)] for the call number
    [pos] of [Math.random]. *)
Definition randomCell (h : host) (pos : nat) : Z :=
  Qfloor (random h pos * inject_Z CONFIG.GRID_SIZE).

Definition isOnSnake (segments : list point) (newFood : point) : bool :=
  existsb (fun segment => (x segment =? x newFood) && (y segment =? y newFood))
          segments.

(** The [do ... while (isOnSnake)] loop, followed for at most [n]
    iterations: the accepted cell and the number of calls of
    [Math.random] made. *)
Fixpoint generateLoop (h : host) (n : nat) (pos : nat) (segments : list point)
  : result (point * nat) :=
  match n with
  | O => Diverges
  | S m =>
      let newFood := {| x := randomCell h pos; y := randomCell h (S pos) |} in
      if isOnSnake segments newFood then generateLoop h m (S (S pos)) segments
      else Ok (newFood, S (S pos))
  end.

Definition clearTimer (s : gameState) : gameState :=
  if foodTimerId s then set_foodTimerId false s else s.

Definition startTimer (s : gameState) : gameState :=
  let s := clearTimer s in
  if isPlaying s && bool_decide (difficulty s <> None) then set_foodTimerId true s
  else s.

Definition generate (h : host) (s : gameState) : result gameState :=
  do found <- generateLoop h (loopBound h) (randomPos s) (snake s);
  let s := set_food (fst found) (snd found) s in
  Ok (startTimer s).

Definition relocate (h : host) (s : gameState) : result gameState := generate h s.

Definition checkCollision (s : gameState) : result bool :=
  do head <- headOf s;
  Ok ((x head =? x (food s)) && (y head =? y (food s))).

Definition regenerate (h : host) (s : gameState) : result gameState :=
  generate h (clearTimer s).

End Food.

Module Input.

Definition setDirection (newDirection : point) (s : gameState) : gameState :=
  let isOpposite :=
    ((x newDirection =? - x (direction s)) && negb (x newDirection =? 0)) ||
    ((y newDirection =? - y (direction s)) && negb (y newDirection =? 0)) in
  if negb isOpposite then set_nextDirection newDirection s else s.

(** The table [keyMap] of [setupKeyboard], read at [e.key]: the names a
    keyboard produces; the other keys have no entry. *)
Definition keyMap (key : string) : option point :=
  if String.eqb key "ArrowUp" then Some {| x := 0; y := -1 |}
  else if String.eqb key "ArrowDown" then Some {| x := 0; y := 1 |}
  else if String.eqb key "ArrowLeft" then Some {| x := -1; y := 0 |}
  else if String.eqb key "ArrowRight" then Some {| x := 1; y := 0 |}
  else if String.eqb key "w" then Some {| x := 0; y := -1 |}
  else if String.eqb key "W" then Some {| x := 0; y := -1 |}
  else if String.eqb key "s" then Some {| x := 0; y := 1 |}
  else if String.eqb key "S" then Some {| x := 0; y := 1 |}
  else if String.eqb key "a" then Some {| x := -1; y := 0 |}
  else if String.eqb key "A" then Some {| x := -1; y := 0 |}
  else if String.eqb key "d" then Some {| x := 1; y := 0 |}
  else if String.eqb key "D" then Some {| x := 1; y := 0 |}
  else None.

End Input.

Module Game.

Definition selectDifficulty (difficultyLevel : CONFIG.difficultyKey) (s : gameState)
  : gameState :=
  set_difficulty (Some difficultyLevel) s.

Definition reset (s : gameState) : gameState :=
  let s := if gameLoopId s then set_gameLoopId false s else s in
  let s := Food.clearTimer s in
  let s := set_score 0 s in
  let s := set_isPlaying false s in
  set_shouldGrow false s.

(** The part of [gameOver] before its first [await]; what follows only
    talks to the leaderboard service and the display. *)
Definition gameOver (s : gameState) : gameState :=
  let s := set_isPlaying false s in
  let s := if gameLoopId s then set_gameLoopId false s else s in
  Food.clearTimer s.

Definition loop (h : host) (s : gameState) : result gameState :=
  if negb (isPlaying s) then Ok s
  else
    do s <- Snake.move s;
    do wall <- Snake.checkWallCollision s;
    do self <- (if wall then Ok true else Snake.checkSelfCollision s);
    if self then Ok (gameOver s)
    else
      do eaten <- Food.checkCollision s;
      do s <- (if eaten then
                 let s := Snake.grow s in
                 let s := set_score (score s + CONFIG.POINTS_PER_FOOD) s in
                 do s <- Food.regenerate h s;
                 match difficulty s with
                 | Some k =>
                     Ok (set_speed
                           (Z.max CONFIG.MIN_SPEED
                              (speed s - CONFIG.speedIncrement (CONFIG.DIFFICULTY k))) s)
                 | None => Throws
                 end
               else Ok s);
      Ok (set_gameLoopId true s).

Definition start (h : host) (s : gameState) : result gameState :=
  match difficulty s with
  | None => Ok s
  | Some k =>
      let s := reset s in
      let s := Snake.initialize s in
      do s <- Food.generate h s;
      let s := set_speed (CONFIG.initialSpeed (CONFIG.DIFFICULTY k)) s in
      let s := set_isPlaying true s in
      loop h s
  end.

End Game.

(** What happens to the page. *)
Inductive event : Type :=
| KeyDown (key : string)
| TouchStart
| TouchEnd (deltaX deltaY : Z)
| ClickStartButton
| ClickDifficulty (level : CONFIG.difficultyKey)
| LoopTimeout
| FoodTimeout.

(** The handler of each event, as registered by [Input.setupKeyboard],
    [Input.setupTouch], [Game.init], [Game.loop] and [Food.startTimer].  A
    timeout fires only while it is pending, and is no longer pending once it
    has fired.  The swipe is given by its two deltas; the test of its length
    against [MIN_SWIPE_DISTANCE] is made on the squares. *)
Definition handle (h : host) (ev : event) (s : gameState) : result gameState :=
  match ev with
  | KeyDown key =>
      if String.eqb key " " && negb (isPlaying s) then
        if bool_decide (difficulty s <> None) then Game.start h s else Ok s
      else
        match Input.keyMap key with
        | Some newDirection =>
            if isPlaying s then Ok (Input.setDirection newDirection s) else Ok s
        | None => Ok s
        end
  | TouchStart =>
      if negb (isPlaying s) then Game.start h s else Ok s
  | TouchEnd deltaX deltaY =>
      if negb (isPlaying s) then Ok s
      else if deltaX * deltaX + deltaY * deltaY
              <? CONFIG.MIN_SWIPE_DISTANCE * CONFIG.MIN_SWIPE_DISTANCE then Ok s
      else if Z.abs deltaX >? Z.abs deltaY then
        if deltaX >? 0 then Ok (Input.setDirection {| x := 1; y := 0 |} s)
        else Ok (Input.setDirection {| x := -1; y := 0 |} s)
      else
        if deltaY >? 0 then Ok (Input.setDirection {| x := 0; y := 1 |} s)
        else Ok (Input.setDirection {| x := 0; y := -1 |} s)
  | ClickStartButton =>
      if negb (isPlaying s) then Game.start h s else Ok s
  | ClickDifficulty level => Ok (Game.selectDifficulty level s)
  | LoopTimeout =>
      if gameLoopId s then Game.loop h (set_gameLoopId false s) else Ok s
  | FoodTimeout =>
      if foodTimerId s then Food.relocate h s else Ok s
  end.

(** A sequence of events, handled one after the other. *)
Fixpoint run (h : host) (evs : list event) (s : gameState) : result gameState :=
  match evs with
  | [] => Ok s
  | ev :: rest => do s <- handle h ev s; run h rest s
  end.

Module Leaderboard.

(** The body [submitScore] posts to the submit-score function, as the
    function reads it back with [request.json()]; [now] is the value of
    [Date.now()]. *)
Definition submitScoreBody (now : Z) (score : Z) (difficulty : JS.value)
    (snakeLength gameTime : Z) : JS.value :=
  JS.VObject
    [ ("score"%string, JS.VNumber (JS.of_Z score));
      ("timestamp"%string, JS.VNumber (JS.of_Z now));
      ("gameData"%string,
        JS.VObject [ ("difficulty"%string, difficulty);
                     ("snakeLength"%string, JS.VNumber (JS.of_Z snakeLength));
                     ("gameTime"%string, JS.VNumber (JS.of_Z gameTime)) ]) ].

End Leaderboard.

(** [gameState.difficultyKey]: the key of the selected difficulty, null
    before a selection. *)
Definition difficultyKey (s : gameState) : JS.value :=
  match difficulty s with
  | Some CONFIG.EASY => JS.VString "EASY"
  | Some CONFIG.MEDIUM => JS.VString "MEDIUM"
  | Some CONFIG.HARD => JS.VString "HARD"
  | None => JS.VNull
  end.

(** The submission [Game.gameOver] hands to [Leaderboard.submitScore]:
    [gameTime] is [Date.now() - gameState.gameStartTime], [now] the value of
    [Date.now()] in [submitScore]. *)
Definition gameOverSubmission (now gameTime : Z) (s : gameState) : JS.value :=
  Leaderboard.submitScoreBody now (score s) (difficultyKey s)
    (Z.of_nat (length (snake s))) gameTime.

End GameJs.

(** ** Vocabulary of the properties of the game *)

Module GameProps.
Import GameJs.

Definition negate (p : point) : point := {| x := - x p; y := - y p |}.

Definition origin : point := {| x := 0; y := 0 |}.

(** The four unit vectors of the grid. *)
Definition isUnit (p : point) : Prop :=
  p = {| x := 1; y := 0 |} \/ p = {| x := -1; y := 0 |} \/
  p = {| x := 0; y := 1 |} \/ p = {| x := 0; y := -1 |}.

(** The invariant of the two direction fields. *)
Definition directionsOk (s : gameState) : Prop :=
  isUnit (direction s) /\ isUnit (nextDirection s) /\
  nextDirection s <> negate (direction s).

(** The head the next tick computes. *)
Definition newHeadOf (head : point) (s : gameState) : point :=
  {| x := x head + x (nextDirection s); y := y head + y (nextDirection s) |}.

Definition outsideGrid (p : point) : Prop :=
  x p < 0 \/ x p >= CONFIG.GRID_SIZE \/ y p < 0 \/ y p >= CONFIG.GRID_SIZE.

(** The segments other than the head once the tick has moved the snake: the
    old segments, less the tail unless growth is pending. *)
Definition bodyAfterMove (s : gameState) : list point :=
  if shouldGrow s then snake s else removelast (snake s).

(** The state [Snake.move] leaves when the head of the snake is [head]. *)
Definition afterMove (head : point) (s : gameState) : gameState :=
  {| snake := newHeadOf head s :: bodyAfterMove s;
     direction := nextDirection s;
     nextDirection := nextDirection s;
     food := food s; score := score s; isPlaying := isPlaying s;
     gameLoopId := gameLoopId s; speed := speed s; shouldGrow := false;
     difficulty := difficulty s; foodTimerId := foodTimerId s;
     randomPos := randomPos s |}.

(** The tick from [s] ends the game: the new head is off the grid or on
    another segment. *)
Definition collides (head : point) (s : gameState) : bool :=
  let newHead := newHeadOf head s in
  (x newHead <? 0) || (x newHead >=? CONFIG.GRID_SIZE) ||
  (y newHead <? 0) || (y newHead >=? CONFIG.GRID_SIZE) ||
  Food.isOnSnake (bodyAfterMove s) newHead.

(** The three ways a tick of a running game ends. *)
Inductive tickOutcome (s s' : gameState) (head : point) : Prop :=
| tick_collision :
    collides head s = true ->
    isPlaying s' = false -> gameLoopId s' = false -> foodTimerId s' = false ->
    score s' = score s -> shouldGrow s' = false -> food s' = food s ->
    tickOutcome s s' head
| tick_eat :
    collides head s = false -> point_eqb (newHeadOf head s) (food s) = true ->
    isPlaying s' = true -> gameLoopId s' = true ->
    score s' = score s + CONFIG.POINTS_PER_FOOD -> shouldGrow s' = true ->
    Food.isOnSnake (snake s') (food s') = false ->
    tickOutcome s s' head
| tick_plain :
    collides head s = false -> point_eqb (newHeadOf head s) (food s) = false ->
    isPlaying s' = true -> gameLoopId s' = true ->
    score s' = score s -> shouldGrow s' = false -> food s' = food s ->
    tickOutcome s s' head.

(** The commands that start a game. *)
Definition isStartCommand (ev : event) : bool :=
  match ev with
  | KeyDown key => String.eqb key " "
  | TouchStart | ClickStartButton => true
  | _ => false
  end.

(** The tick from [s] moves the head onto the food and the game goes on. *)
Definition eatingTick (s : gameState) : bool :=
  match snake s with
  | [] => false
  | head :: _ => point_eqb (newHeadOf head s) (food s) && negb (collides head s)
  end.

(** The tick from [s] moves the head onto the cell of the food. *)
Definition landsOnFood (s : gameState) : bool :=
  match snake s with
  | [] => false
  | head :: _ => point_eqb (newHeadOf head s) (food s)
  end.

(** The [k]-th cell the food loop tries when it starts at call [pos] of
    [Math.random]. *)
Definition candidate (h : host) (pos k : nat) : point :=
  {| x := Food.randomCell h (pos + 2 * k); y := Food.randomCell h (S (pos + 2 * k)) |}.

(** Within the loop bound the random source delivers a cell off the
    snake. *)
Definition productive (h : host) (pos : nat) (segments : list point) : Prop :=
  exists k, (k < loopBound h)%nat /\ Food.isOnSnake segments (candidate h pos k) = false.

(** The initial snake and the snake after the first tick of a game. *)
Definition startSnake : list point :=
  [ {| x := 10; y := 10 |}; {| x := 9; y := 10 |}; {| x := 8; y := 10 |} ].


(** The cells of the grid, column by column. *)
Definition gridCells : list point :=
  flat_map (fun i => map (fun j => {| x := Z.of_nat i; y := Z.of_nat j |})
                         (List.seq 0 (Z.to_nat CONFIG.GRID_SIZE)))
           (List.seq 0 (Z.to_nat CONFIG.GRID_SIZE)).

Definition inGrid (p : point) : Prop :=
  0 <= x p < CONFIG.GRID_SIZE /\ 0 <= y p < CONFIG.GRID_SIZE.

#[global] Instance point_eq_dec : EqDecision point.
Proof. solve_decision. Defined.

(** A running game about to hit the right wall, as the EASY game started
    with the food at (0, 0) is after its ninth tick. *)
Definition atRightWall : gameState :=
  {| snake := [ {| x := 19; y := 10 |}; {| x := 18; y := 10 |}; {| x := 17; y := 10 |} ];
     direction := {| x := 1; y := 0 |};
     nextDirection := {| x := 1; y := 0 |};
     food := {| x := 0; y := 0 |};
     score := 0; isPlaying := true; gameLoopId := true; speed := 200;
     shouldGrow := false; difficulty := Some CONFIG.EASY; foodTimerId := false;
     randomPos := 2 |}.

(** A running game whose snake has curled up: the head at (5, 5) has come
    up from (5, 6) and a turn to the right is pending, onto the segment at
    (6, 5). *)
Definition curledUp : gameState :=
  {| snake := [ {| x := 5; y := 5 |}; {| x := 5; y := 6 |}; {| x := 6; y := 6 |};
                {| x := 6; y := 5 |}; {| x := 7; y := 5 |} ];
     direction := {| x := 0; y := -1 |};
     nextDirection := {| x := 1; y := 0 |};
     food := {| x := 0; y := 0 |};
     score := 20; isPlaying := true; gameLoopId := true; speed := 194;
     shouldGrow := false; difficulty := Some CONFIG.EASY; foodTimerId := true;
     randomPos := 6 |}.

(** A game that has just ended, as [Game.gameOver] leaves it. *)
Definition afterGameOver : gameState :=
  {| snake := [ {| x := 20; y := 10 |}; {| x := 19; y := 10 |}; {| x := 18; y := 10 |} ];
     direction := {| x := 1; y := 0 |};
     nextDirection := {| x := 1; y := 0 |};
     food := {| x := 0; y := 0 |};
     score := 0; isPlaying := false; gameLoopId := false; speed := 200;
     shouldGrow := false; difficulty := Some CONFIG.EASY; foodTimerId := false;
     randomPos := 2 |}.

(** A random source that always returns the same value. *)
Definition constantHost (r : Q) (bound : nat) : host :=
  {| random := fun _ => r; loopBound := bound |}.

(** A random source given by its first values, 0 afterwards. *)
Definition listHost (values : list Q) (bound : nat) : host :=
  {| random := fun n => nth n values 0%Q; loopBound := bound |}.

(** [Math.random] returns values in [0, 1). *)
Definition validRandom (h : host) : Prop :=
  forall n, (0 <= random h n < 1)%Q.

(** Two cells next to each other: one unit apart along exactly one axis. *)
Definition adjacent (p q : point) : Prop :=
  (x p = x q /\ Z.abs (y p - y q) = 1) \/ (y p = y q /\ Z.abs (x p - x q) = 1).

(** Every segment is next to the one that follows it. *)
Fixpoint connected (l : list point) : Prop :=
  match l with
  | p :: (q :: _) as rest => adjacent p q /\ connected rest
  | _ => True
  end.

(** What an event handler that completes does to the state: nothing; a
    direction request while playing; a difficulty selection; [Game.start]
    with a difficulty selected, which runs the first tick from the state
    [s1]; a tick on the loop timer; a relocation on the food timer. *)
Inductive stepKind (h : host) (s s' : gameState) : Prop :=
| step_none : s' = s -> stepKind h s s'
| step_direction d :
    isPlaying s = true -> isUnit d -> s' = Input.setDirection d s -> stepKind h s s'
| step_select level : s' = Game.selectDifficulty level s -> stepKind h s s'
| step_start k s0 :
    isPlaying s = false -> difficulty s = Some k ->
    Food.generate h (Snake.initialize (Game.reset s)) = Ok s0 ->
    Game.loop h (set_isPlaying true
                   (set_speed (CONFIG.initialSpeed (CONFIG.DIFFICULTY k)) s0)) = Ok s' ->
    stepKind h s s'
| step_tick :
    gameLoopId s = true -> Game.loop h (set_gameLoopId false s) = Ok s' ->
    stepKind h s s'
| step_relocate :
    foodTimerId s = true -> Food.generate h s = Ok s' -> stepKind h s s'.

(** The ways a tick of a running game ends, with the state it leaves. *)
Inductive tickResult (h : host) (t s' : gameState) (head : point) : Prop :=
| result_collision :
    collides head t = true -> s' = Game.gameOver (afterMove head t) ->
    tickResult h t s' head
| result_eat s2 k :
    collides head t = false -> point_eqb (newHeadOf head t) (food t) = true ->
    Food.generate h
      (Food.clearTimer
         (set_score (score t + CONFIG.POINTS_PER_FOOD) (Snake.grow (afterMove head t))))
    = Ok s2 ->
    difficulty s2 = Some k ->
    s' = set_gameLoopId true
           (set_speed (Z.max CONFIG.MIN_SPEED
                         (speed s2 - CONFIG.speedIncrement (CONFIG.DIFFICULTY k))) s2) ->
    tickResult h t s' head
| result_plain :
    collides head t = false -> point_eqb (newHeadOf head t) (food t) = false ->
    s' = set_gameLoopId true (afterMove head t) ->
    tickResult h t s' head.

(** The timers follow the game: the loop timer is pending exactly while the
    game is running, the food timer only then. *)
Definition timersOk (s : gameState) : Prop :=
  gameLoopId s = isPlaying s /\ (foodTimerId s = true -> isPlaying s = true).

(** The snake and the score of a game that has been started: a difficulty
    is selected, the snake has at least three segments, each next to the
    following one, and the score is ten points per segment beyond the third,
    a pending growth included; while no game has been started the score is 0.
    Growth is pending only while the game is running. *)
Definition snakeOk (s : gameState) : Prop :=
  (snake s = [] -> score s = 0) /\
  (snake s <> [] ->
     difficulty s <> None /\ (3 <= length (snake s))%nat /\ connected (snake s) /\
     score s = CONFIG.POINTS_PER_FOOD *
               (Z.of_nat (length (snake s)) - 3 + (if shouldGrow s then 1 else 0))) /\
  (isPlaying s = false -> shouldGrow s = false) /\
  (isPlaying s = true -> snake s <> []).

(** The cells of the snake: the segments behind the head are on the grid
    and pairwise distinct, and so is the head while the game is running. *)
Definition cellsOk (s : gameState) : Prop :=
  Forall inGrid (tl (snake s)) /\ List.NoDup (tl (snake s)) /\
  (isPlaying s = true -> Forall inGrid (snake s) /\ List.NoDup (snake s)).

(** The food is on the grid and on no segment. *)
Definition foodOk (s : gameState) : Prop :=
  inGrid (food s) /\ ~ In (food s) (snake s).

(** The tick interval is between the floor and the slowest initial speed. *)
Definition speedOk (s : gameState) : Prop :=
  CONFIG.MIN_SPEED <= speed s <= 200.

End GameProps.

(** ** Vocabulary of the properties of the services *)

Module ServiceProps.
Import JS SubmitScore.

(** The rational carried by a finite number. *)
Definition qOf (n : number) : Q :=
  match n with
  | Fin q => q
  | _ => 0%Q
  end.

(** An entry whose score and timestamp are finite numbers. *)
Definition finiteEntry (a : entry) : Prop :=
  is_finite (score a) = true /\ is_finite (timestamp a) = true.

(** The order of the leaderboard: higher score first and, at equal score,
    earlier timestamp first. *)
Definition rankLe (a b : entry) : Prop :=
  (qOf (score b) < qOf (score a))%Q \/
  (qOf (score a) == qOf (score b) /\ qOf (timestamp a) <= qOf (timestamp b))%Q.

(** A stored record as the data model describes it: at most 20 entries with
    finite scores and timestamps, in leaderboard order. *)
Definition snapshotOk (l : list entry) : Prop :=
  (length l <= 20)%nat /\ Forall finiteEntry l /\ StronglySorted rankLe l.

(** No entry of [l] carries the identifier [i]. *)
Definition freshId (i : string) (l : list entry) : Prop :=
  Forall (fun a => id a <> i) l.

(** The entries of a record, none if there is no record. *)
Definition storedScores (stored : option leaderboard) : list entry :=
  match stored with
  | Some data => scores data
  | None => []
  end.

(** A well-formed EASY submission of [s] points at time [now]. *)
Definition submissionOf (s : Z) (len : Z) (time : Z) (now : Z) : value :=
  VObject
    [ ("score"%string, VNumber (of_Z s));
      ("timestamp"%string, VNumber (of_Z now));
      ("gameData"%string,
        VObject [ ("difficulty"%string, VString "EASY");
                  ("snakeLength"%string, VNumber (of_Z len));
                  ("gameTime"%string, VNumber (of_Z time)) ]) ].

(** The verdicts [checkRateLimit] gives to the requests of the address
    [ip] in a sequence of requests (time of arrival, address) served one
    after the other from the map [m]. *)
Fixpoint verdictsFor (ip : string) (reqs : list (Z * string))
    (m : gmap string rateEntry) : list bool :=
  match reqs with
  | [] => []
  | (t, a) :: rest =>
      let '(allowed, m') := checkRateLimit t a m in
      if String.eqb a ip then allowed :: verdictsFor ip rest m'
      else verdictsFor ip rest m'
  end.

(** The number of requests of the address [ip] in a sequence. *)
Definition requestsOf (ip : string) (reqs : list (Z * string)) : nat :=
  length (List.filter (fun r => String.eqb (snd r) ip) reqs).

(** The request at time [t] opens a window for [ip]: the address has no
    entry, or the age of its window exceeds the window length. *)
Definition opensWindow (m : gmap string rateEntry) (ip : string) (t : Z) : Prop :=
  m !! ip = None \/
  exists entry, m !! ip = Some entry /\ t - windowStart entry > RATE_LIMIT_WINDOW.

(** The cache holds nothing that the store has not: a cached record with
    entries implies a stored record. *)
Definition cacheCoherent (s : Service.system) : Prop :=
  forall data,
    GetLeaderboard.cachedData (Service.queryCache s) = Some data ->
    scores data = [] \/ store (Service.submitState s) <> None.

(** A POST request carrying [data] from the address [ip]. *)
Definition postOf (ip : string) (data : value) : request :=
  {| method := "POST"; contextIp := Some ip; forwardedFor := None; json := Ok data |}.

(** A stored entry of [s] points submitted at time [t]. *)
Definition entryOf (i : string) (s t : Z) : entry :=
  {| id := i; score := of_Z s; difficulty := VString "EASY";
     snakeLength := VNumber (of_Z (s / 10 + 3));
     gameTime := VNumber (of_Z (s * 100)); timestamp := of_Z t |}.

(** A record of two entries. *)
Definition twoEntries : leaderboard :=
  {| version := 1; lastUpdated := 1699999000000;
     scores := [ entryOf "a" 200 1699990000000; entryOf "b" 100 1699980000000 ] |}.

(** A full record: 20 entries of 2000, 1990, ..., 1810 points. *)
Definition fullRecord : leaderboard :=
  {| version := 1; lastUpdated := 1699999000000;
     scores :=
       map (fun n => entryOf (String (ascii_of_nat (65 + n)) EmptyString)
                             (2000 - 10 * Z.of_nat n) (1699990000000 + Z.of_nat n))
           (List.seq 0 20) |}.

(** An environment in which no store call fails. *)
Definition calmEnv (now : Z) (i : string) : env :=
  {| nowRateLimit := now; nowValidate := now; nowDefault := now; nowUpdate := now;
     newId := i; readFailures := []; writeFailures := [] |}.

(** The responses to a sequence of invocations of the submit-score handler,
    served one after the other by one instance. *)
Fixpoint serve (calls : list (env * request)) (s : state) : list response :=
  match calls with
  | [] => []
  | (e, req) :: rest =>
      let '(s', resp) := handler e req s in
      resp :: serve rest s'
  end.

(** The system after a sequence of submissions. *)
Fixpoint submitAll (calls : list (env * request)) (s : Service.system) : Service.system :=
  match calls with
  | [] => s
  | (e, req) :: rest => submitAll rest (fst (Service.submit e req s))
  end.

(** A lower-case hexadecimal digit. *)
Definition isHex (c : ascii) : bool :=
  existsb (Ascii.eqb c) (list_ascii_of_string "0123456789abcdef").

(** One of the digits 8, 9, a, b. *)
Definition isVariant (c : ascii) : bool :=
  existsb (Ascii.eqb c) (list_ascii_of_string "89ab").

(** [i] has the shape of [pattern]: a hexadecimal digit for each x, one of
    8, 9, a, b for each y, and the character of the pattern elsewhere. *)
Fixpoint conforms (pattern i : string) : bool :=
  match pattern, i with
  | EmptyString, EmptyString => true
  | String p pattern', String c i' =>
      (if Ascii.eqb p "x" then isHex c
       else if Ascii.eqb p "y" then isVariant c
       else Ascii.eqb p c) && conforms pattern' i'
  | _, _ => false
  end.

(** Every call of the random source gives a number in [0, 1). *)
Definition unitInterval (random : nat -> Q) : Prop :=
  forall n, (0 <= random n < 1)%Q.

(** An entry as the store keeps it and as the responses carry it: what
    [JSON.parse] gives back from the text written for [newEntry]. *)
Definition entryJson (a : entry) : value :=
  jsonRoundTrip
    (VObject [ ("id"%string, VString (id a));
               ("score"%string, VNumber (score a));
               ("difficulty"%string, difficulty a);
               ("snakeLength"%string, snakeLength a);
               ("gameTime"%string, gameTime a);
               ("timestamp"%string, VNumber (timestamp a)) ]).


(** The paths through the submit-score handler. *)
Inductive submitPath (e : env) (req : request) (s : state)
    : state -> response -> Prop :=
| path_method :
    method req <> "POST"%string ->
    submitPath e req s s
      {| status := 405; responseBody := ErrorBody "Method not allowed" |}
| path_limited :
    method req = "POST"%string ->
    checkRateLimit (nowRateLimit e) (clientIp req) (rateLimitMap s)
    = (false, rateLimitMap s) ->
    submitPath e req s s
      {| status := 429;
         responseBody :=
           FailureBody "Rate limit exceeded. Please wait before submitting again." |}
| path_rejected limits data v :
    method req = "POST"%string ->
    checkRateLimit (nowRateLimit e) (clientIp req) (rateLimitMap s) = (true, limits) ->
    json req = Ok data -> validateScore (nowValidate e) data = Ok v ->
    valid v = false ->
    submitPath e req s {| rateLimitMap := limits; store := store s |}
      {| status := 400;
         responseBody := FailureBody (default ""%string (error v)) |}
| path_failed limits :
    method req = "POST"%string ->
    checkRateLimit (nowRateLimit e) (clientIp req) (rateLimitMap s) = (true, limits) ->
    (forall r, trySubmit e req (store s) <> Ok r) ->
    submitPath e req s {| rateLimitMap := limits; store := store s |}
      {| status := 500; responseBody := FailureBody "Server error" |}
| path_stored limits data v newEntry :
    method req = "POST"%string ->
    checkRateLimit (nowRateLimit e) (clientIp req) (rateLimitMap s) = (true, limits) ->
    json req = Ok data -> validateScore (nowValidate e) data = Ok v ->
    valid v = true -> makeEntry (newId e) data = Ok newEntry ->
    retryLoop 3 (readFailures e) = Ok tt -> retryLoop 3 (writeFailures e) = Ok tt ->
    let leaderboardData :=
      match store s with
      | Some existing => existing
      | None => emptyLeaderboard (nowDefault e)
      end in
    let result := insertEntry (nowUpdate e) leaderboardData newEntry in
    submitPath e req s {| rateLimitMap := limits; store := Some (fst result) |}
      {| status := 200;
         responseBody :=
           SuccessBody (snd result)
             match snd result with
             | Some r => MadeLeaderboard r
             | None => ScoreSubmitted
             end |}.

End ServiceProps.

(** * Properties *)

(** Closes a goal [Ok (reject msg) = Ok v -> valid v = true -> _]. *)
Ltac rejected :=
  let H := fresh "H" in
  intros H; inversion H; subst; simpl; discriminate.

(** ** The game: directions *)

Section Directions.
Import GameJs GameProps.

Lemma negate_unit_ne (p : point) : isUnit p -> p <> negate p.
Proof.
  intros [-> | [-> | [-> | ->]]]; unfold negate; simpl; intros H; inversion H.
Qed.

Lemma isUnit_nonzero (p : point) : isUnit p -> p <> origin.
Proof.
  intros [-> | [-> | [-> | ->]]]; unfold origin; intros H; inversion H.
Qed.

Lemma setDirection_negation (s : gameState) :
  direction s <> origin -> Input.setDirection (negate (direction s)) s = s.
Proof.
  intros Hnz. unfold Input.setDirection, negate. simpl.
  destruct (direction s) as [dx dy]. simpl.
  rewrite !Z.eqb_refl. simpl.
  destruct (Z.eqb_spec (- dx) 0) as [Hx | Hx]; simpl; [| reflexivity].
  destruct (Z.eqb_spec (- dy) 0) as [Hy | Hy]; simpl; [| reflexivity].
  exfalso. apply Hnz. unfold origin. f_equal; lia.
Qed.

Lemma setDirection_fields (d : point) (s : gameState) :
  direction (Input.setDirection d s) = direction s /\
  (nextDirection (Input.setDirection d s) = nextDirection s \/
   (nextDirection (Input.setDirection d s) = d /\ (d <> negate (direction s) \/ d = origin))).
Proof.
  unfold Input.setDirection.
  destruct (Z.eqb_spec (x d) (- x (direction s))) as [Hx | Hx];
  destruct (Z.eqb_spec (x d) 0) as [Hx0 | Hx0];
  destruct (Z.eqb_spec (y d) (- y (direction s))) as [Hy | Hy];
  destruct (Z.eqb_spec (y d) 0) as [Hy0 | Hy0]; simpl; split; auto; right; split; auto;
  try (left; intros E; rewrite E in *; simpl in *; congruence);
  right; destruct d; unfold origin; simpl in *; congruence.
Qed.

Lemma setDirection_directionsOk (d : point) (s : gameState) :
  isUnit d -> directionsOk s -> directionsOk (Input.setDirection d s).
Proof.
  intros Hd (Hdir & Hnext & Hne).
  destruct (setDirection_fields d s) as [Hdir' [Hsame | [Hset Hwhy]]];
    unfold directionsOk; rewrite Hdir'.
  - rewrite Hsame. auto.
  - rewrite Hset. repeat split; auto.
    destruct Hwhy as [Hwhy | Hwhy]; [assumption |].
    exfalso. exact (isUnit_nonzero d Hd Hwhy).
Qed.

End Directions.

(** ** The game: one tick *)

Section Tick.
Import GameJs GameProps.

Lemma removelast_cons_cons {A : Type} (a b : A) (l : list A) :
  removelast (a :: b :: l) = a :: removelast (b :: l).
Proof. reflexivity. Qed.

Lemma move_spec (s : gameState) (head : point) (rest : list point) :
  snake s = head :: rest -> Snake.move s = Ok (afterMove head s).
Proof.
  intros Hs. unfold Snake.move, headOf, afterMove, bodyAfterMove, newHeadOf.
  destruct s as [sn d nd f sc pl gl sp gr df ft rp]. simpl in *. subst sn. simpl.
  destruct gr; simpl; reflexivity.
Qed.

Lemma isOnSnake_swap (segments : list point) (p : point) :
  existsb (fun seg => (x p =? x seg) && (y p =? y seg)) segments
  = Food.isOnSnake segments p.
Proof.
  unfold Food.isOnSnake. induction segments as [| a l IH]; simpl; [reflexivity |].
  rewrite IH. f_equal. rewrite (Z.eqb_sym (x p)), (Z.eqb_sym (y p)). reflexivity.
Qed.

(** The tick, branch by branch. *)
Lemma loop_unfold (h : host) (s : gameState) (head : point) (rest : list point) :
  isPlaying s = true -> snake s = head :: rest ->
  Game.loop h s =
    let s1 := afterMove head s in
    if collides head s then Ok (Game.gameOver s1)
    else if point_eqb (newHeadOf head s) (food s) then
      do s2 <- Food.regenerate h
                 (set_score (score s + CONFIG.POINTS_PER_FOOD) (Snake.grow s1));
      match difficulty s2 with
      | Some k =>
          Ok (set_gameLoopId true
                (set_speed (Z.max CONFIG.MIN_SPEED
                              (speed s2 - CONFIG.speedIncrement (CONFIG.DIFFICULTY k))) s2))
      | None => Throws
      end
    else Ok (set_gameLoopId true s1).
Proof.
  intros Hp Hs. unfold Game.loop. rewrite Hp. simpl negb. cbv iota.
  rewrite (move_spec s head rest Hs). cbn [bind].
  unfold Snake.checkWallCollision, Snake.checkSelfCollision, Food.checkCollision, headOf.
  cbn [afterMove snake bind tl food].
  rewrite isOnSnake_swap. unfold collides.
  set (nh := newHeadOf head s).
  destruct ((x nh <? 0) || (x nh >=? CONFIG.GRID_SIZE) ||
            (y nh <? 0) || (y nh >=? CONFIG.GRID_SIZE)) eqn:Hwall; cbn [orb bind].
  - reflexivity.
  - destruct (Food.isOnSnake (bodyAfterMove s) nh) eqn:Hself; cbn [bind].
    + reflexivity.
    + unfold point_eqb.
      destruct ((x nh =? x (food s)) && (y nh =? y (food s))) eqn:Heat; cbn [bind].
      * destruct (Food.regenerate h _) as [s2 | |]; cbn [bind]; try reflexivity.
        destruct (difficulty s2); reflexivity.
      * reflexivity.
Qed.

End Tick.

(** ** The game: food placement *)

Section FoodPlacement.
Import GameJs GameProps.

Lemma candidate_shift (h : host) (pos k : nat) :
  candidate h (S (S pos)) k = candidate h pos (S k).
Proof.
  unfold candidate.
  replace (S (S pos) + 2 * k)%nat with (pos + 2 * S k)%nat by lia. reflexivity.
Qed.

Lemma candidate_first (h : host) (pos : nat) :
  candidate h pos 0 = {| x := Food.randomCell h pos; y := Food.randomCell h (S pos) |}.
Proof.
  unfold candidate. replace (pos + 2 * 0)%nat with pos by lia. reflexivity.
Qed.

(** A result of the loop is the first candidate off the snake. *)
Lemma generateLoop_ok (h : host) (segments : list point) (n pos : nat) (f : point) (p : nat) :
  Food.generateLoop h n pos segments = Ok (f, p) ->
  exists k, (k < n)%nat /\ f = candidate h pos k /\ p = (pos + 2 * S k)%nat /\
            Food.isOnSnake segments f = false /\
            forall j, (j < k)%nat -> Food.isOnSnake segments (candidate h pos j) = true.
Proof.
  revert pos. induction n as [| n IH]; intros pos; simpl; [discriminate |].
  rewrite <- candidate_first.
  destruct (Food.isOnSnake segments (candidate h pos 0)) eqn:Hon.
  - intros Hrec. destruct (IH _ Hrec) as (k & Hk & Hf & Hp & Hfree & Hbefore).
    exists (S k). rewrite candidate_shift in Hf. repeat split; try assumption; try lia.
    intros j Hj. destruct j as [| j]; [assumption |].
    rewrite <- candidate_shift. apply Hbefore. lia.
  - intros Heq. inversion Heq; subst. exists 0%nat.
    repeat split; try assumption; lia.
Qed.

(** The loop ends as soon as a candidate is off the snake. *)
Lemma generateLoop_total (h : host) (segments : list point) (n pos k : nat) :
  (k < n)%nat -> Food.isOnSnake segments (candidate h pos k) = false ->
  exists r, Food.generateLoop h n pos segments = Ok r.
Proof.
  revert pos k. induction n as [| n IH]; intros pos k Hk Hfree; [lia |].
  simpl. rewrite <- candidate_first.
  destruct (Food.isOnSnake segments (candidate h pos 0)) eqn:Hon.
  - destruct k as [| k]; [congruence |].
    apply (IH (S (S pos)) k); [lia |]. rewrite candidate_shift. assumption.
  - eexists. reflexivity.
Qed.

(** The loop goes on for as long as the candidates are on the snake. *)
Lemma generateLoop_diverges (h : host) (segments : list point) (n pos : nat) :
  (forall k, (k < n)%nat -> Food.isOnSnake segments (candidate h pos k) = true) ->
  Food.generateLoop h n pos segments = Diverges.
Proof.
  revert pos. induction n as [| n IH]; intros pos Hall; simpl; [reflexivity |].
  rewrite <- candidate_first. rewrite (Hall 0%nat) by lia.
  apply IH. intros k Hk. rewrite candidate_shift. apply Hall. lia.
Qed.

Lemma generateLoop_no_throw (h : host) (segments : list point) (n pos : nat) :
  Food.generateLoop h n pos segments <> Throws.
Proof.
  revert pos. induction n as [| n IH]; intros pos; simpl; [discriminate |].
  destruct (Food.isOnSnake _ _); [apply IH | discriminate].
Qed.

(** What [Food.generate] changes: the food, the position in the random
    source and the food timer. *)
Lemma generate_spec (h : host) (s s' : gameState) :
  Food.generate h s = Ok s' ->
  snake s' = snake s /\ direction s' = direction s /\
  nextDirection s' = nextDirection s /\ score s' = score s /\
  isPlaying s' = isPlaying s /\ gameLoopId s' = gameLoopId s /\
  speed s' = speed s /\ shouldGrow s' = shouldGrow s /\
  difficulty s' = difficulty s /\
  foodTimerId s' = (isPlaying s && bool_decide (difficulty s <> None)) /\
  Food.isOnSnake (snake s) (food s') = false.
Proof.
  unfold Food.generate.
  destruct (Food.generateLoop h (loopBound h) (randomPos s) (snake s))
    as [[f p] | |] eqn:Hloop; cbn [bind]; try discriminate.
  intros Heq. inversion Heq; subst s'. clear Heq.
  destruct (generateLoop_ok _ _ _ _ _ _ Hloop) as (k & _ & _ & _ & Hfree & _).
  unfold Food.startTimer, Food.clearTimer.
  destruct s as [sn d nd fd sc pl gl sp gr df ft rp]. simpl in *.
  destruct ft, pl; simpl; try (destruct (bool_decide (df <> None)); simpl);
    repeat split; try reflexivity; assumption.
Qed.

Lemma generate_total (h : host) (s : gameState) :
  productive h (randomPos s) (snake s) -> exists s', Food.generate h s = Ok s'.
Proof.
  intros (k & Hk & Hfree). unfold Food.generate.
  destruct (generateLoop_total h (snake s) (loopBound h) (randomPos s) k Hk Hfree)
    as [r Hr].
  rewrite Hr. cbn [bind]. eexists. reflexivity.
Qed.

Lemma generate_no_throw (h : host) (s : gameState) : Food.generate h s <> Throws.
Proof.
  unfold Food.generate.
  destruct (Food.generateLoop h (loopBound h) (randomPos s) (snake s)) eqn:Hloop;
    cbn [bind]; try discriminate.
  exfalso. exact (generateLoop_no_throw _ _ _ _ Hloop).
Qed.

Lemma clearTimer_spec (s : gameState) :
  snake (Food.clearTimer s) = snake s /\ direction (Food.clearTimer s) = direction s /\
  nextDirection (Food.clearTimer s) = nextDirection s /\
  score (Food.clearTimer s) = score s /\ isPlaying (Food.clearTimer s) = isPlaying s /\
  gameLoopId (Food.clearTimer s) = gameLoopId s /\ speed (Food.clearTimer s) = speed s /\
  shouldGrow (Food.clearTimer s) = shouldGrow s /\
  difficulty (Food.clearTimer s) = difficulty s /\
  food (Food.clearTimer s) = food s /\ randomPos (Food.clearTimer s) = randomPos s /\
  foodTimerId (Food.clearTimer s) = false.
Proof.
  unfold Food.clearTimer. destruct s as [sn d nd fd sc pl gl sp gr df ft rp].
  simpl. destruct ft; simpl; repeat split; reflexivity.
Qed.

End FoodPlacement.

Section TickResults.
Import GameJs GameProps.

Lemma length_removelast_cons {A : Type} (a : A) (l : list A) :
  length (removelast (a :: l)) = length l.
Proof.
  revert a. induction l as [| b l IH]; intros a; [reflexivity |].
  rewrite removelast_cons_cons. cbn [length]. rewrite IH. reflexivity.
Qed.

Lemma length_bodyAfterMove (s : gameState) (head : point) (rest : list point) :
  snake s = head :: rest ->
  S (length (bodyAfterMove s))
  = (length (snake s) + (if shouldGrow s then 1 else 0))%nat.
Proof.
  intros Hs. unfold bodyAfterMove. destruct (shouldGrow s).
  - lia.
  - rewrite Hs, length_removelast_cons. simpl. lia.
Qed.

Lemma gameOver_spec (s : gameState) :
  snake (Game.gameOver s) = snake s /\ direction (Game.gameOver s) = direction s /\
  nextDirection (Game.gameOver s) = nextDirection s /\
  score (Game.gameOver s) = score s /\ shouldGrow (Game.gameOver s) = shouldGrow s /\
  difficulty (Game.gameOver s) = difficulty s /\ food (Game.gameOver s) = food s /\
  isPlaying (Game.gameOver s) = false /\ gameLoopId (Game.gameOver s) = false /\
  foodTimerId (Game.gameOver s) = false.
Proof.
  unfold Game.gameOver, Food.clearTimer.
  destruct s as [sn d nd fd sc pl gl sp gr df ft rp]. simpl.
  destruct gl, ft; simpl; repeat split; reflexivity.
Qed.

Lemma loop_result (h : host) (s s' : gameState) (head : point) (rest : list point) :
  isPlaying s = true -> snake s = head :: rest -> Game.loop h s = Ok s' ->
  snake s' = newHeadOf head s :: bodyAfterMove s /\
  direction s' = nextDirection s /\ nextDirection s' = nextDirection s /\
  difficulty s' = difficulty s /\ tickOutcome s s' head.
Proof.
  intros Hp Hs. rewrite (loop_unfold h s head rest Hp Hs). cbv zeta.
  destruct (collides head s) eqn:Hc.
  - intros Heq. inversion Heq; subst s'. clear Heq.
    destruct (gameOver_spec (afterMove head s))
      as (H1 & H2 & H3 & H4 & H5 & H6 & H7 & H8 & H9 & H10).
    rewrite H1, H2, H3, H6. repeat split; try reflexivity.
    apply tick_collision; assumption || reflexivity.
  - destruct (point_eqb (newHeadOf head s) (food s)) eqn:He.
    + unfold Food.regenerate.
      set (s1 := set_score _ _).
      destruct (Food.generate h (Food.clearTimer s1)) as [s2 | |] eqn:Hg;
        cbn [bind]; try discriminate.
      destruct (generate_spec _ _ _ Hg)
        as (G1 & G2 & G3 & G4 & G5 & G6 & G7 & G8 & G9 & G10 & G11).
      destruct (clearTimer_spec s1)
        as (C1 & C2 & C3 & C4 & C5 & C6 & C7 & C8 & C9 & C10 & C11 & C12).
      rewrite C1 in G1, G11. rewrite C2 in G2. rewrite C3 in G3. rewrite C4 in G4.
      rewrite C5 in G5. rewrite C8 in G8. rewrite C9 in G9.
      destruct (difficulty s2) as [k |] eqn:Hd; try discriminate.
      intros Heq. inversion Heq; subst s'. clear Heq. cbn.
      split; [exact G1 |]. split; [exact G2 |]. split; [exact G3 |].
      split; [rewrite Hd; exact G9 |].
      apply tick_eat; cbn;
        first [ assumption | reflexivity | rewrite G5; exact Hp | exact G4
              | exact G8 | rewrite G1; exact G11 ].
    + intros Heq. inversion Heq; subst s'. clear Heq. cbn.
      repeat split; try reflexivity.
      apply tick_plain; cbn; try assumption; reflexivity.
Qed.

Lemma loop_stopped (h : host) (s : gameState) :
  isPlaying s = false -> Game.loop h s = Ok s.
Proof. intros Hp. unfold Game.loop. rewrite Hp. reflexivity. Qed.

(** A tick that does not eat always completes. *)
Lemma loop_total_plain (h : host) (s : gameState) (head : point) (rest : list point) :
  isPlaying s = true -> snake s = head :: rest -> eatingTick s = false ->
  exists s', Game.loop h s = Ok s'.
Proof.
  intros Hp Hs He. rewrite (loop_unfold h s head rest Hp Hs). cbv zeta.
  unfold eatingTick in He. rewrite Hs in He.
  destruct (collides head s); [eexists; reflexivity |].
  destruct (point_eqb (newHeadOf head s) (food s)); [discriminate |].
  eexists; reflexivity.
Qed.

(** A tick that eats completes when the random source delivers a free
    cell. *)
Lemma loop_total_eat (h : host) (s : gameState) (head : point) (rest : list point) :
  isPlaying s = true -> snake s = head :: rest -> difficulty s <> None ->
  productive h (randomPos s) (newHeadOf head s :: bodyAfterMove s) ->
  exists s', Game.loop h s = Ok s'.
Proof.
  intros Hp Hs Hd Hprod. rewrite (loop_unfold h s head rest Hp Hs). cbv zeta.
  destruct (collides head s); [eexists; reflexivity |].
  destruct (point_eqb (newHeadOf head s) (food s)); [| eexists; reflexivity].
  unfold Food.regenerate. set (s1 := set_score _ _).
  destruct (clearTimer_spec s1)
    as (C1 & C2 & C3 & C4 & C5 & C6 & C7 & C8 & C9 & C10 & C11 & C12).
  destruct (generate_total h (Food.clearTimer s1)) as [s2 Hg].
  { rewrite C11, C1. subst s1. cbn. assumption. }
  rewrite Hg. cbn [bind].
  destruct (generate_spec _ _ _ Hg)
    as (G1 & G2 & G3 & G4 & G5 & G6 & G7 & G8 & G9 & G10 & G11).
  rewrite G9, C9. subst s1. cbn.
  destruct (difficulty s); [eexists; reflexivity | congruence].
Qed.

End TickResults.

(** ** The game: starting, stopping and the events *)

Section Lifecycle.
Import GameJs GameProps.

Lemma initialize_reset_spec (s : gameState) :
  let s0 := Snake.initialize (Game.reset s) in
  snake s0 = startSnake /\ direction s0 = {| x := 1; y := 0 |} /\
  nextDirection s0 = {| x := 1; y := 0 |} /\ score s0 = 0 /\
  isPlaying s0 = false /\ shouldGrow s0 = false /\ gameLoopId s0 = false /\
  foodTimerId s0 = false /\ difficulty s0 = difficulty s /\
  randomPos s0 = randomPos s.
Proof.
  destruct s as [sn d nd fd sc pl gl sp gr df ft rp].
  unfold Snake.initialize, Game.reset, Food.clearTimer. simpl.
  destruct gl, ft; simpl; repeat split; reflexivity.
Qed.

(** [Game.start] with a difficulty selected: the state [s1] the first tick
    runs from, and the tick. *)
Lemma start_spec (h : host) (s s' : gameState) (k : CONFIG.difficultyKey) :
  difficulty s = Some k -> Game.start h s = Ok s' ->
  exists s1,
    Game.loop h s1 = Ok s' /\
    snake s1 = startSnake /\ direction s1 = {| x := 1; y := 0 |} /\
    nextDirection s1 = {| x := 1; y := 0 |} /\ score s1 = 0 /\
    isPlaying s1 = true /\ shouldGrow s1 = false /\
    difficulty s1 = Some k /\
    speed s1 = CONFIG.initialSpeed (CONFIG.DIFFICULTY k) /\
    Food.isOnSnake startSnake (food s1) = false.
Proof.
  intros Hd. unfold Game.start. rewrite Hd.
  destruct (initialize_reset_spec s)
    as (I1 & I2 & I3 & I4 & I5 & I6 & I7 & I8 & I9 & I10).
  cbv zeta in *.
  destruct (Food.generate h (Snake.initialize (Game.reset s))) as [s0 | |] eqn:Hg;
    cbn [bind]; try discriminate.
  destruct (generate_spec _ _ _ Hg)
    as (G1 & G2 & G3 & G4 & G5 & G6 & G7 & G8 & G9 & G10 & G11).
  intros Hloop. eexists. split; [exact Hloop |]. cbn.
  rewrite G1, G2, G3, G4, G8, G9, I1, I2, I3, I4, I6, I9, Hd.
  rewrite I1 in G11. repeat split; try reflexivity. exact G11.
Qed.


Lemma keyMap_unit (key : string) (d : point) :
  Input.keyMap key = Some d -> isUnit d.
Proof.
  unfold Input.keyMap, isUnit.
  repeat (match goal with
          | |- (if ?b then _ else _) = _ -> _ => destruct b
          end);
    intros H; inversion H; subst; auto.
Qed.

(** No event handler breaks the invariant of the direction fields. *)
Lemma handle_directionsOk (h : host) (ev : event) (s s' : gameState) :
  directionsOk s -> handle h ev s = Ok s' -> directionsOk s'.
Proof.
  intros Hok.
  assert (Hunit10 : isUnit {| x := 1; y := 0 |}) by (left; reflexivity).
  assert (Hstart : forall t, Game.start h s = Ok t -> directionsOk t).
  { intros t Ht. destruct (difficulty s) as [k |] eqn:Hd.
    - destruct (start_spec h s t k Hd Ht)
        as (s1 & Hl & S1 & S2 & S3 & S4 & S5 & S6 & S7 & S8 & S9).
      destruct (loop_result h s1 t _ _ S5 S1 Hl) as (L1 & L2 & L3 & L4 & _).
      unfold directionsOk. rewrite L2, L3, S3.
      repeat split; try assumption. apply negate_unit_ne. assumption.
    - unfold Game.start in Ht. rewrite Hd in Ht. inversion Ht; subst. assumption. }
  assert (Hset : forall d t, isUnit d -> Ok (Input.setDirection d s) = Ok t -> directionsOk t).
  { intros d t Hd Ht. inversion Ht; subst. apply setDirection_directionsOk; assumption. }
  assert (Hsame : forall t, Ok s = Ok t -> directionsOk t).
  { intros t Ht. inversion Ht; subst. assumption. }
  destruct ev as [key | | dx dy | | level | |]; simpl.
  - destruct (String.eqb key " " && negb (isPlaying s)).
    + destruct (bool_decide (difficulty s <> None)); auto.
    + destruct (Input.keyMap key) as [d |] eqn:Hk; auto.
      destruct (isPlaying s); auto. apply Hset. exact (keyMap_unit key d Hk).
  - destruct (negb (isPlaying s)); auto.
  - destruct (negb (isPlaying s)); auto.
    destruct (_ <? _); auto.
    destruct (_ >? _); [destruct (dx >? 0) | destruct (dy >? 0)];
      apply Hset; unfold isUnit; auto.
  - destruct (negb (isPlaying s)); auto.
  - intros Ht. inversion Ht; subst. exact Hok.
  - destruct (gameLoopId s); auto.
    destruct (isPlaying s) eqn:Hp.
    + destruct (snake s) as [| head rest] eqn:Hs.
      * unfold Game.loop, Snake.move, headOf. cbn. rewrite Hp, Hs. cbn. discriminate.
      * intros Ht.
        assert (Hp' : isPlaying (set_gameLoopId false s) = true) by exact Hp.
        assert (Hs' : snake (set_gameLoopId false s) = head :: rest) by exact Hs.
        destruct (loop_result h _ s' _ _ Hp' Hs' Ht) as (L1 & L2 & L3 & L4 & _).
        cbn in L2, L3. destruct Hok as (O1 & O2 & O3).
        unfold directionsOk. rewrite L2, L3.
        repeat split; try assumption. apply negate_unit_ne. assumption.
    + rewrite loop_stopped by exact Hp. intros Ht. inversion Ht; subst. exact Hok.
  - destruct (foodTimerId s); auto.
    unfold Food.relocate. intros Ht.
    destruct (generate_spec _ _ _ Ht) as (G1 & G2 & G3 & _).
    unfold directionsOk. rewrite G2, G3. exact Hok.
Qed.

Lemma run_directionsOk (h : host) (evs : list event) (s s' : gameState) :
  directionsOk s -> run h evs s = Ok s' -> directionsOk s'.
Proof.
  revert s. induction evs as [| ev evs IH]; intros s Hok; simpl.
  - intros Ht. inversion Ht; subst. exact Hok.
  - destruct (handle h ev s) as [s1 | |] eqn:Hh; cbn [bind]; try discriminate.
    apply IH. exact (handle_directionsOk h ev s s1 Hok Hh).
Qed.

Lemma initialState_directionsOk : directionsOk initialState.
Proof.
  unfold directionsOk, initialState, isUnit, negate. simpl.
  repeat split; auto; intros H; inversion H.
Qed.

(** A stopped game with no pending timer: only a start command changes
    anything but the selected difficulty. *)
Lemma handle_stopped (h : host) (ev : event) (s : gameState) :
  isPlaying s = false -> gameLoopId s = false -> foodTimerId s = false ->
  isStartCommand ev = false ->
  exists s', handle h ev s = Ok s' /\
    isPlaying s' = false /\ gameLoopId s' = false /\ foodTimerId s' = false /\
    snake s' = snake s /\ score s' = score s /\ food s' = food s /\
    direction s' = direction s /\ nextDirection s' = nextDirection s.
Proof.
  intros Hp Hl Hf Hev.
  destruct ev as [key | | dx dy | | level | |]; simpl in *; try discriminate.
  - rewrite Hev, Hp. simpl.
    destruct (Input.keyMap key); exists s; repeat split; assumption.
  - rewrite Hp. simpl. exists s; repeat split; assumption.
  - eexists. split; [reflexivity |]. cbn. repeat split; assumption.
  - rewrite Hl. exists s; repeat split; assumption.
  - rewrite Hf. exists s; repeat split; assumption.
Qed.

Lemma run_stopped (h : host) (evs : list event) (s : gameState) :
  isPlaying s = false -> gameLoopId s = false -> foodTimerId s = false ->
  forallb (fun ev => negb (isStartCommand ev)) evs = true ->
  exists s', run h evs s = Ok s' /\
    isPlaying s' = false /\ gameLoopId s' = false /\ foodTimerId s' = false /\
    snake s' = snake s /\ score s' = score s /\ food s' = food s /\
    direction s' = direction s /\ nextDirection s' = nextDirection s.
Proof.
  revert s. induction evs as [| ev evs IH]; intros s Hp Hl Hf Hevs; simpl in *.
  - exists s. repeat split; assumption.
  - apply andb_prop in Hevs. destruct Hevs as [Hev Hevs].
    apply negb_true_iff in Hev.
    destruct (handle_stopped h ev s Hp Hl Hf Hev)
      as (s1 & Hh & P1 & P2 & P3 & P4 & P5 & P6 & P7 & P8).
    rewrite Hh. cbn [bind].
    destruct (IH s1 P1 P2 P3 Hevs) as (s2 & Hr & Q1 & Q2 & Q3 & Q4 & Q5 & Q6 & Q7 & Q8).
    exists s2. split; [exact Hr |].
    repeat split; try assumption; congruence.
Qed.

End Lifecycle.

(** ** The game: the claims *)

Section GameClaims.
Import GameJs GameProps.

Lemma isOnSnake_In (segments : list point) (p : point) :
  Food.isOnSnake segments p = true <-> In p segments.
Proof.
  unfold Food.isOnSnake. rewrite existsb_exists. split.
  - intros (seg & Hin & Heq). apply andb_prop in Heq. destruct Heq as [Hx Hy].
    apply Z.eqb_eq in Hx, Hy. destruct seg, p; simpl in *; subst. exact Hin.
  - intros Hin. exists p. split; [exact Hin |]. rewrite !Z.eqb_refl. reflexivity.
Qed.

Lemma collides_true (s : gameState) (head : point) :
  outsideGrid (newHeadOf head s) \/ In (newHeadOf head s) (bodyAfterMove s) ->
  collides head s = true.
Proof.
  unfold collides, outsideGrid. cbv zeta. intros [Hout | Hin].
  - destruct Hout as [H | [H | [H | H]]].
    + apply Z.ltb_lt in H. rewrite H. reflexivity.
    + apply Z.geb_ge in H. rewrite H. rewrite !orb_true_r. reflexivity.
    + apply Z.ltb_lt in H. rewrite H. rewrite !orb_true_r. reflexivity.
    + apply Z.geb_ge in H. rewrite H. rewrite !orb_true_r. reflexivity.
  - apply isOnSnake_In in Hin. rewrite Hin. apply orb_true_r.
Qed.

(** C4.  A tick whose new head is off the grid or on another segment ends
    the game at once: the tick completes with [isPlaying] false and both
    timers cleared; a further call of the tick changes nothing, and no
    sequence of events without a start command makes the game run or the
    snake move again. *)
Theorem collision_ends_game (h : host) (s : gameState) (head : point) (rest : list point) :
  isPlaying s = true -> snake s = head :: rest ->
  outsideGrid (newHeadOf head s) \/ In (newHeadOf head s) (bodyAfterMove s) ->
  exists s',
    Game.loop h s = Ok s' /\ isPlaying s' = false /\
    gameLoopId s' = false /\ foodTimerId s' = false /\
    Game.loop h s' = Ok s' /\
    forall evs, forallb (fun ev => negb (isStartCommand ev)) evs = true ->
      exists s'', run h evs s' = Ok s'' /\ isPlaying s'' = false /\
                  gameLoopId s'' = false /\ snake s'' = snake s' /\
                  score s'' = score s'.
Proof.
  intros Hp Hs Hcol. apply (collides_true s head) in Hcol.
  assert (Hl : Game.loop h s = Ok (Game.gameOver (afterMove head s))).
  { rewrite (loop_unfold h s head rest Hp Hs). cbv zeta. rewrite Hcol. reflexivity. }
  destruct (gameOver_spec (afterMove head s))
    as (H1 & H2 & H3 & H4 & H5 & H6 & H7 & H8 & H9 & H10).
  exists (Game.gameOver (afterMove head s)).
  split; [exact Hl |]. split; [exact H8 |]. split; [exact H9 |]. split; [exact H10 |].
  split; [apply loop_stopped; exact H8 |].
  intros evs Hevs.
  destruct (run_stopped h evs _ H8 H9 H10 Hevs)
    as (s2 & Hr & Q1 & Q2 & Q3 & Q4 & Q5 & _).
  exists s2. repeat split; assumption.
Qed.

(** The theorem at a snake whose head is in the last column, heading right. *)
Lemma collision_ends_game_witness :
  isPlaying atRightWall = true /\
  outsideGrid (newHeadOf {| x := 19; y := 10 |} atRightWall) /\
  exists s',
    Game.loop (constantHost 0 1) atRightWall = Ok s' /\ isPlaying s' = false /\
    gameLoopId s' = false /\ foodTimerId s' = false /\
    Game.loop (constantHost 0 1) s' = Ok s' /\
    forall evs, forallb (fun ev => negb (isStartCommand ev)) evs = true ->
      exists s'', run (constantHost 0 1) evs s' = Ok s'' /\ isPlaying s'' = false /\
                  gameLoopId s'' = false /\ snake s'' = snake s' /\
                  score s'' = score s'.
Proof.
  split; [reflexivity |].
  assert (Hout : outsideGrid (newHeadOf {| x := 19; y := 10 |} atRightWall)).
  { unfold outsideGrid. simpl. unfold CONFIG.GRID_SIZE. right. left. lia. }
  split; [exact Hout |].
  exact (collision_ends_game (constantHost 0 1) atRightWall
           {| x := 19; y := 10 |}
           [ {| x := 18; y := 10 |}; {| x := 17; y := 10 |} ]
           eq_refl eq_refl (or_introl Hout)).
Defined.

(** A head that turns onto a segment of the snake ends the game as well. *)
Example self_collision_ends_game :
  In (newHeadOf {| x := 5; y := 5 |} curledUp) (bodyAfterMove curledUp) /\
  exists s', handle (constantHost 0 1) LoopTimeout curledUp = Ok s' /\
             isPlaying s' = false /\ gameLoopId s' = false /\ foodTimerId s' = false.
Proof.
  split; [vm_compute; tauto |].
  eexists. split; [vm_compute; reflexivity |]. repeat split.
Qed.

Lemma move_directionsOk (s s' : gameState) :
  directionsOk s -> Snake.move s = Ok s' -> directionsOk s'.
Proof.
  intros (O1 & O2 & O3). destruct (snake s) as [| head rest] eqn:Hs.
  - unfold Snake.move, headOf. cbn. rewrite Hs. cbn. discriminate.
  - rewrite (move_spec s head rest Hs). intros Heq. inversion Heq; subst s'.
    unfold directionsOk. cbn. repeat split; try assumption.
    apply negate_unit_ne. assumption.
Qed.

(** C5.  A request for the exact negation of the committed direction leaves
    the state, and so [nextDirection], as it is ([Input.setDirection] is a
    total function: nothing is raised).  The two direction fields start as
    unit vectors with [nextDirection] different from the negation of
    [direction]; every event handler, the timer-driven tick included, and the
    direction commit of [Snake.move] keep it so; hence the pending direction
    is never the negation of the direction in any state the game reaches. *)
Theorem reversal_request_ignored :
  (forall s, direction s <> origin ->
             Input.setDirection (negate (direction s)) s = s) /\
  directionsOk initialState /\
  (forall h ev s s', directionsOk s -> handle h ev s = Ok s' -> directionsOk s') /\
  (forall s s', directionsOk s -> Snake.move s = Ok s' -> directionsOk s') /\
  (forall h evs s, run h evs initialState = Ok s ->
                   nextDirection s <> negate (direction s)).
Proof.
  split; [exact setDirection_negation |].
  split; [exact initialState_directionsOk |].
  split; [exact handle_directionsOk |].
  split; [exact move_directionsOk |].
  intros h evs s Hrun.
  destruct (run_directionsOk h evs initialState s initialState_directionsOk Hrun)
    as (_ & _ & Hne).
  exact Hne.
Qed.

(** The theorem at a snake heading right: a request to go left is ignored, a
    request to go down is taken. *)
Lemma reversal_request_ignored_witness :
  direction atRightWall <> origin /\
  Input.setDirection (negate (direction atRightWall)) atRightWall = atRightWall /\
  directionsOk atRightWall /\
  directionsOk (Input.setDirection {| x := 0; y := 1 |} atRightWall) /\
  nextDirection initialState <> negate (direction initialState).
Proof.
  assert (Hnz : direction atRightWall <> origin) by discriminate.
  assert (Hok : directionsOk atRightWall).
  { unfold directionsOk, isUnit. simpl. repeat split; auto; discriminate. }
  destruct reversal_request_ignored as (H1 & H2 & H3 & H4 & H5).
  split; [exact Hnz |].
  split; [exact (H1 atRightWall Hnz) |].
  split; [exact Hok |].
  split.
  - exact (H3 (constantHost 0 1) (KeyDown "ArrowDown") atRightWall _ Hok eq_refl).
  - exact (H5 (constantHost 0 1) [] initialState eq_refl).
Defined.

End GameClaims.

Section GameClaims2.
Import GameJs GameProps.

(** C3, as stated, fails: a tick that does not land on food changes the
    segment count when the tick before it has eaten.  With the food first at
    (12, 10), the second tick of the game eats; the third moves the head to
    (13, 10), away from the new food at (0, 0), and the snake goes from 3 to
    4 segments on it. *)
Lemma growth_shows_on_the_tick_after_eating :
  let h := listHost [(3 # 5)%Q; (1 # 2)%Q] 1 in
  exists s s',
    run h [ClickDifficulty CONFIG.EASY; ClickStartButton; LoopTimeout] initialState = Ok s /\
    isPlaying s = true /\ gameLoopId s = true /\ score s = 10 /\
    landsOnFood s = false /\
    handle h LoopTimeout s = Ok s' /\ isPlaying s' = true /\
    length (snake s) = 3%nat /\ length (snake s') = 4%nat.
Proof.
  cbv zeta. eexists. eexists.
  split; [vm_compute; reflexivity |].
  repeat split; vm_compute; reflexivity.
Qed.

(** C3 (amended).  On every tick of a running game the segment count grows
    by exactly one if growth is pending (the previous tick ate) and is
    unchanged otherwise, whether or not this tick lands on food.  A tick that
    eats raises the score by exactly the per-food value, 10, and leaves
    growth pending with the game running, so that the count grows by exactly
    one on the tick that follows (which completes unless it eats in turn and
    the food loop goes on); a tick that does not eat leaves the score as it
    is and no growth pending.  A tick that does not eat always completes; one
    that eats completes as soon as the random source delivers a free cell. *)
Theorem tick_segment_count (h : host) (s : gameState) (head : point) (rest : list point) :
  isPlaying s = true -> snake s = head :: rest ->
  CONFIG.POINTS_PER_FOOD = 10 /\
  (forall s', Game.loop h s = Ok s' ->
     length (snake s') = (length (snake s) + (if shouldGrow s then 1 else 0))%nat /\
     (eatingTick s = true ->
        score s' = score s + CONFIG.POINTS_PER_FOOD /\ shouldGrow s' = true /\
        isPlaying s' = true /\
        (forall s'', Game.loop h s' = Ok s'' ->
                     length (snake s'') = S (length (snake s'))) /\
        (eatingTick s' = false -> exists s'', Game.loop h s' = Ok s'')) /\
     (eatingTick s = false -> score s' = score s /\ shouldGrow s' = false)) /\
  (eatingTick s = false -> exists s', Game.loop h s = Ok s') /\
  (difficulty s <> None ->
   productive h (randomPos s) (newHeadOf head s :: bodyAfterMove s) ->
   exists s', Game.loop h s = Ok s').
Proof.
  intros Hp Hs. split; [reflexivity |]. split; [| split].
  - intros s' Hl.
    destruct (loop_result h s s' head rest Hp Hs Hl) as (L1 & L2 & L3 & L4 & Hout).
    split.
    { rewrite L1. cbn [length]. exact (length_bodyAfterMove s head rest Hs). }
    unfold eatingTick. rewrite Hs.
    destruct Hout as [Hc P1 P2 P3 P4 P5 P6 | Hc He P1 P2 P3 P4 P5 | Hc He P1 P2 P3 P4 P5].
    + rewrite Hc, andb_false_r. split; [discriminate |]. intros _. split; assumption.
    + rewrite Hc, He. split; [| discriminate]. intros _.
      split; [exact P3 |]. split; [exact P4 |]. split; [exact P1 |]. split.
      * intros s'' Hl'.
        destruct (loop_result h s' s'' _ _ P1 L1 Hl') as (M1 & _).
        rewrite M1. cbn [length].
        rewrite (length_bodyAfterMove s' _ _ L1), P4. lia.
      * exact (loop_total_plain h s' _ _ P1 L1).
    + rewrite He. split; [discriminate |]. intros _. split; assumption.
  - exact (loop_total_plain h s head rest Hp Hs).
  - exact (loop_total_eat h s head rest Hp Hs).
Qed.

(** The theorem at a tick that does not eat and has no growth pending. *)
Lemma tick_segment_count_witness :
  isPlaying atRightWall = true /\
  CONFIG.POINTS_PER_FOOD = 10 /\
  (forall s', Game.loop (constantHost 0 1) atRightWall = Ok s' ->
     length (snake s') = 3%nat) /\
  exists s', Game.loop (constantHost 0 1) atRightWall = Ok s'.
Proof.
  split; [reflexivity |].
  destruct (tick_segment_count (constantHost 0 1) atRightWall
              {| x := 19; y := 10 |}
              [ {| x := 18; y := 10 |}; {| x := 17; y := 10 |} ] eq_refl eq_refl)
    as (H1 & H2 & H3 & _).
  split; [exact H1 |]. split.
  - intros s' Hl. destruct (H2 s' Hl) as (Hlen & _). exact Hlen.
  - exact (H3 eq_refl).
Defined.

(** C7, as stated, fails: the food loop need not terminate.  With a random
    source that returns 0.5 at every call the candidate is (10, 10) each
    time, the head cell of the three-segment initial snake, and the loop is
    still rejecting it after any number of iterations. *)
Lemma generate_can_run_forever :
  snake (Snake.initialize initialState) = startSnake /\
  forall bound,
    Food.generate (constantHost (1 # 2) bound) (Snake.initialize initialState)
    = Diverges.
Proof.
  split; [reflexivity |]. intros bound. unfold Food.generate.
  rewrite generateLoop_diverges; [reflexivity |].
  intros k _. reflexivity.
Qed.

Lemma gridCells_NoDup : NoDup gridCells.
Proof. apply (bool_decide_unpack _). vm_compute. reflexivity. Qed.

Lemma gridCells_inGrid (p : point) : In p gridCells -> inGrid p.
Proof.
  unfold gridCells, inGrid. rewrite in_flat_map. intros (i & Hi & Hp).
  apply in_map_iff in Hp. destruct Hp as (j & <- & Hj).
  apply in_seq in Hi, Hj. unfold CONFIG.GRID_SIZE in *. simpl in *. lia.
Qed.

(** A snake of fewer segments than the grid has cells leaves a cell free. *)
Lemma free_cell_exists (segments : list point) :
  (length segments < 400)%nat ->
  exists cell, inGrid cell /\ Food.isOnSnake segments cell = false.
Proof.
  intros Hlen.
  destruct (forallb (Food.isOnSnake segments) gridCells) eqn:Hall.
  - exfalso. rewrite forallb_forall in Hall.
    assert (Hincl : incl gridCells segments).
    { intros p Hp. apply isOnSnake_In. apply Hall. exact Hp. }
    pose proof (NoDup_incl_length (proj1 (NoDup_ListNoDup _) gridCells_NoDup) Hincl) as Hle.
    change (length gridCells) with 400%nat in Hle. lia.
  - assert (Hex : existsb (fun c => negb (Food.isOnSnake segments c)) gridCells = true).
    { clear Hlen. induction gridCells as [| c l IH]; simpl in *; [discriminate |].
      destruct (Food.isOnSnake segments c); simpl in *; [apply IH; exact Hall | reflexivity]. }
    apply existsb_exists in Hex. destruct Hex as (c & Hc & Hfree).
    exists c. split; [exact (gridCells_inGrid c Hc) |].
    apply negb_true_iff. exact Hfree.
Qed.

(** C7 (amended).  Whenever [Food.generate] completes, the food is on no
    segment of the snake, which it leaves as it was.  It completes as soon as
    the random source delivers a cell off the snake, and it is still running
    for as long as every cell delivered is occupied; it never throws.  A
    snake of at most grid capacity minus one segments always leaves such a
    free cell on the grid. *)
Theorem generate_places_food_off_snake (h : host) (s : gameState) :
  (forall s', Food.generate h s = Ok s' ->
     snake s' = snake s /\ ~ In (food s') (snake s')) /\
  (productive h (randomPos s) (snake s) -> exists s', Food.generate h s = Ok s') /\
  ((forall k, (k < loopBound h)%nat ->
              Food.isOnSnake (snake s) (candidate h (randomPos s) k) = true) ->
   Food.generate h s = Diverges) /\
  Food.generate h s <> Throws /\
  ((Z.of_nat (length (snake s)) <= CONFIG.GRID_SIZE * CONFIG.GRID_SIZE - 1) ->
   exists cell, inGrid cell /\ ~ In cell (snake s)).
Proof.
  split; [| split; [| split; [| split]]].
  - intros s' Hg.
    destruct (generate_spec _ _ _ Hg) as (G1 & _ & _ & _ & _ & _ & _ & _ & _ & _ & G11).
    split; [exact G1 |]. rewrite G1. intros Hin.
    apply isOnSnake_In in Hin. congruence.
  - exact (generate_total h s).
  - intros Hall. unfold Food.generate.
    rewrite (generateLoop_diverges _ _ _ _ Hall). reflexivity.
  - exact (generate_no_throw h s).
  - intros Hlen. destruct (free_cell_exists (snake s)) as (c & Hc & Hfree).
    + unfold CONFIG.GRID_SIZE in Hlen. lia.
    + exists c. split; [exact Hc |]. intros Hin.
      apply isOnSnake_In in Hin. congruence.
Qed.

(** The theorem at a random source that delivers the free cell (0, 0). *)
Lemma generate_places_food_off_snake_witness :
  productive (constantHost 0 1) (randomPos atRightWall) (snake atRightWall) /\
  exists s', Food.generate (constantHost 0 1) atRightWall = Ok s' /\
             snake s' = snake atRightWall /\ ~ In (food s') (snake s').
Proof.
  assert (Hprod : productive (constantHost 0 1) (randomPos atRightWall) (snake atRightWall)).
  { exists 0%nat. split; [simpl; lia | reflexivity]. }
  split; [exact Hprod |].
  destruct (generate_places_food_off_snake (constantHost 0 1) atRightWall)
    as (H1 & H2 & _).
  destruct (H2 Hprod) as (s' & Hg).
  exists s'. split; [exact Hg |]. exact (H1 s' Hg).
Defined.

End GameClaims2.

Section GameClaims3.
Import GameJs GameProps.





End GameClaims3.

(** ** The validator *)

Section Validator.
Import JS SubmitScore ServiceProps.

Lemma get_object (fields : list (string * value)) (k : string) :
  get (VObject fields) k = Ok (lookup_field k fields).
Proof. reflexivity. Qed.

Lemma get_total (data : value) (k : string) :
  data <> VNull -> data <> VUndefined -> exists v, get data k = Ok v.
Proof.
  intros Hn Hu. destruct data; try congruence; eexists; reflexivity.
Qed.

Lemma get_same_shape (data : value) (k k' : string) (v : value) :
  get data k = Ok v -> exists v', get data k' = Ok v'.
Proof.
  destruct data; simpl; try discriminate; intros _; eexists; reflexivity.
Qed.

Lemma validateGameData_total (s : number) (gameData : value) :
  exists v, validateGameData s gameData = Ok v.
Proof.
  unfold validateGameData.
  destruct gameData as [| | b | n | str | items | fields]; simpl;
    try (eexists; reflexivity).
  - destruct b; simpl; eexists; reflexivity.
  - destruct n as [| | | q]; simpl; try (eexists; reflexivity).
    destruct (Qeq_bool q 0); simpl; eexists; reflexivity.
  - destruct (negb (str =? "")%string); simpl; eexists; reflexivity.
  - destruct (includes _ _); simpl; [| eexists; reflexivity].
    destruct (notNumberOr _ _); [eexists; reflexivity |].
    destruct (notNumberOr _ _); eexists; reflexivity.
Qed.

(** A verdict of acceptance tells what the game data look like. *)
Lemma validateGameData_valid (s : number) (gameData : value) (v : verdict) :
  validateGameData s gameData = Ok v -> valid v = true ->
  exists fields d l g,
    gameData = VObject fields /\
    lookup_field "difficulty" fields = VString d /\
    existsb (String.eqb d) validDifficulties = true /\
    lookup_field "snakeLength" fields = VNumber l /\
    gt (abs (sub l (add (div s (of_Z 10)) (of_Z 3)))) (of_Z 2) = false /\
    lookup_field "gameTime" fields = VNumber g /\
    lt g (mul (div s (of_Z 10)) (of_Z 500)) = false.
Proof.
  unfold validateGameData.
  destruct gameData as [| | b | n | str | items | fields];
    cbn [truthy isObjectType typeof negb orb get bind includes notNumberOr lookup_field];
    try rejected.
  - destruct b; simpl; rejected.
  - destruct n as [| | | q]; simpl;
      try rejected.
    destruct (Qeq_bool q 0); simpl; rejected.
  - destruct (negb (str =? "")%string); simpl; rejected.
  - destruct (lookup_field "difficulty" fields) as [| | | | d | |] eqn:Hd;
      cbn [bind includes negb notNumberOr];
      try rejected.
    destruct (existsb (String.eqb d) validDifficulties) eqn:Hin;
      cbn [bind includes negb notNumberOr];
      [| rejected].
    destruct (lookup_field "snakeLength" fields) as [| | | l | | |] eqn:Hl;
      cbn [bind includes negb notNumberOr];
      try rejected.
    destruct (gt (abs (sub l (add (div s (of_Z 10)) (of_Z 3)))) (of_Z 2)) eqn:Hlen;
      [rejected |].
    destruct (lookup_field "gameTime" fields) as [| | | g | | |] eqn:Hg;
      cbn [bind includes negb notNumberOr];
      try rejected.
    destruct (lt g (mul (div s (of_Z 10)) (of_Z 500))) eqn:Htime;
      [rejected |].
    intros _ _. exists fields, d, l, g. repeat split; assumption.
Qed.

Lemma validateScore_valid (now : Z) (data : value) (v : verdict) :
  validateScore now data = Ok v -> valid v = true ->
  exists fields s t,
    data = VObject fields /\
    lookup_field "score" fields = VNumber s /\
    sne (rem s (of_Z 10)) (of_Z 0) = false /\
    lt s (of_Z 0) = false /\ gt s (of_Z 10000) = false /\
    lookup_field "timestamp" fields = VNumber t /\
    gt (abs (sub (of_Z now) t)) (of_Z 600000) = false /\
    validateGameData s (lookup_field "gameData" fields) = Ok v.
Proof.
  unfold validateScore.
  destruct data as [| | b | n | str | items | fields];
    cbn [get bind notNumberOr orb];
    try discriminate;
    try rejected.
  destruct (lookup_field "score" fields) as [| | | s | | |] eqn:Hs;
    try rejected.
  destruct (sne (rem s (of_Z 10)) (of_Z 0)) eqn:Hrem;
    [rejected |].
  destruct (lt s (of_Z 0)) eqn:Hneg; cbn [orb];
    [rejected |].
  destruct (gt s (of_Z 10000)) eqn:Hbig; cbn [orb];
    [rejected |].
  destruct (lookup_field "timestamp" fields) as [| | | t | | |] eqn:Ht;
    cbn [notNumberOr];
    try rejected.
  destruct (gt (abs (sub (of_Z now) t)) (of_Z 600000)) eqn:Hfresh;
    [rejected |].
  intros Hv _. exists fields, s, t. repeat split; assumption.
Qed.

(** Everywhere but on null and undefined [validateScore] is total and
    type-safe.  On every value that can be destructured, in particular on
    every object, it returns a verdict: it neither throws nor loops.  The
    verdict is a rejection whenever [score] or [timestamp] is not of number
    type, whenever [gameData] is not an object (absent, null, a primitive or
    an array), and whenever [snakeLength] or [gameTime] of the game data is
    not of number type. *)
Theorem validateScore_total_and_typed (now : Z) (data : value) :
  data <> VNull -> data <> VUndefined ->
  exists v score gameData timestamp,
    get data "score" = Ok score /\ get data "gameData" = Ok gameData /\
    get data "timestamp" = Ok timestamp /\
    validateScore now data = Ok v /\
    (typeof score <> TNumber -> valid v = false) /\
    (typeof timestamp <> TNumber -> valid v = false) /\
    ((forall fields, gameData <> VObject fields) -> valid v = false) /\
    (forall fields, gameData = VObject fields ->
       typeof (lookup_field "snakeLength" fields) <> TNumber \/
       typeof (lookup_field "gameTime" fields) <> TNumber ->
       valid v = false).
Proof.
  intros Hn Hu.
  destruct (get_total data "score" Hn Hu) as [score Hs].
  destruct (get_total data "gameData" Hn Hu) as [gameData Hg].
  destruct (get_total data "timestamp" Hn Hu) as [timestamp Ht].
  assert (Htot : exists v, validateScore now data = Ok v).
  { unfold validateScore. rewrite Hs, Hg, Ht. cbn [bind].
    destruct score as [| | | s | | |]; try (eexists; reflexivity).
    destruct (sne _ _); [eexists; reflexivity |].
    destruct (lt s (of_Z 0) || gt s (of_Z 10000)); [eexists; reflexivity |].
    destruct (notNumberOr _ _); [eexists; reflexivity |].
    apply validateGameData_total. }
  destruct Htot as [v Hv].
  exists v, score, gameData, timestamp.
  split; [exact Hs |]. split; [exact Hg |]. split; [exact Ht |]. split; [exact Hv |].
  assert (Hcases : valid v = false \/ valid v = true)
    by (destruct (valid v); auto).
  destruct Hcases as [Hrej | Hacc]; [repeat split; intros; exact Hrej |].
  destruct (validateScore_valid now data v Hv Hacc)
    as (fields & s & t & -> & Fs & _ & _ & _ & Ft & _ & Hgd).
  destruct (validateGameData_valid s _ v Hgd Hacc)
    as (gfields & d & l & g & Fg & _ & _ & Fl & _ & Ftime & _).
  rewrite get_object in Hs, Hg, Ht.
  inversion Hs; inversion Hg; inversion Ht; subst score gameData timestamp.
  rewrite Fs, Ft, Fg. simpl.
  split; [congruence |]. split; [congruence |].
  split; [intros Hno; exfalso; exact (Hno gfields eq_refl) |].
  intros fields' Heq. inversion Heq; subst fields'.
  rewrite Fl, Ftime. simpl. intros [H | H]; congruence.
Qed.

(** The theorem at the plausible submission of 120 points. *)
Lemma validateScore_total_and_typed_witness :
  let data := submissionOf 120 15 7000 1700000000000 in
  data <> VNull /\ data <> VUndefined /\
  exists v score gameData timestamp,
    get data "score" = Ok score /\ get data "gameData" = Ok gameData /\
    get data "timestamp" = Ok timestamp /\
    validateScore 1700000000000 data = Ok v /\
    (typeof score <> TNumber -> valid v = false) /\
    (typeof timestamp <> TNumber -> valid v = false) /\
    ((forall fields, gameData <> VObject fields) -> valid v = false) /\
    (forall fields, gameData = VObject fields ->
       typeof (lookup_field "snakeLength" fields) <> TNumber \/
       typeof (lookup_field "gameTime" fields) <> TNumber ->
       valid v = false).
Proof.
  cbv zeta.
  assert (H1 : submissionOf 120 15 7000 1700000000000 <> VNull) by discriminate.
  assert (H2 : submissionOf 120 15 7000 1700000000000 <> VUndefined) by discriminate.
  split; [exact H1 |]. split; [exact H2 |].
  exact (validateScore_total_and_typed 1700000000000 _ H1 H2).
Defined.

(** The value null cannot be destructured: on it the validator throws. *)
Example validateScore_null_throws (now : Z) : validateScore now VNull = Throws.
Proof. reflexivity. Qed.

(** C9.  The validator is not total at the public interface.  The JSON
    body null reaches [validateScore], which destructures its argument
    before any check and so throws instead of returning a verdict; the
    handler's catch then answers 500 with "Server error" and stores
    nothing, where a rejection is answered 400.  One level down the same
    function does reject a null [gameData] with a verdict. *)
Theorem validateScore_throws_on_null :
  (forall now, validateScore now VNull = Throws) /\
  (forall score, validateGameData score VNull = Ok (reject "Missing game data")) /\
  (forall e ip s,
     status (snd (handler e (postOf ip VNull) s)) = 429 \/
     (snd (handler e (postOf ip VNull) s)
      = {| status := 500; responseBody := FailureBody "Server error" |} /\
      store (fst (handler e (postOf ip VNull) s)) = store s)).
Proof.
  split; [reflexivity |]. split; [reflexivity |].
  intros e ip s. unfold handler.
  change (negb (String.eqb (method (postOf ip VNull)) "POST")) with false. cbv iota.
  destruct (checkRateLimit _ _ _) as [allowed limits].
  destruct allowed; cbn [negb]; [right | left; reflexivity].
  split; reflexivity.
Qed.

(** Submissions with a field of the wrong type. *)
Example validate_string_score :
  validateScore 1700000000000
    (VObject [ ("score"%string, VString "120");
               ("timestamp"%string, VNumber (of_Z 1700000000000));
               ("gameData"%string,
                 VObject [ ("difficulty"%string, VString "EASY");
                           ("snakeLength"%string, VNumber (of_Z 15));
                           ("gameTime"%string, VNumber (of_Z 7000)) ]) ])
  = Ok (reject "Invalid score format").
Proof. vm_compute. reflexivity. Qed.

Example validate_missing_gameData :
  validateScore 1700000000000
    (VObject [ ("score"%string, VNumber (of_Z 120));
               ("timestamp"%string, VNumber (of_Z 1700000000000)) ])
  = Ok (reject "Missing game data").
Proof. vm_compute. reflexivity. Qed.

End Validator.

Section ValidatorRange.
Import JS SubmitScore ServiceProps.

(** The properties of the validator listed as test cases. *)
Example validate_plausible_submission :
  validateScore 1700000000000 (submissionOf 120 15 7000 1700000000000) = Ok accept.
Proof. vm_compute. reflexivity. Qed.

Example validate_not_multiple_of_ten :
  validateScore 1700000000000 (submissionOf 121 15 7000 1700000000000)
  = Ok (reject "Invalid score format").
Proof. vm_compute. reflexivity. Qed.

Example validate_stale_timestamp :
  validateScore 1700000700000 (submissionOf 120 15 7000 1700000000000)
  = Ok (reject "Timestamp expired").
Proof. vm_compute. reflexivity. Qed.

(** C2, as stated, fails: the bound of the range check is the constant
    10000, not the 400 cells times 10 points of the grid.  A submission of
    5000 points with the matching length and a long enough game is
    accepted. *)
Lemma score_above_grid_maximum_accepted :
  GameJs.CONFIG.GRID_SIZE * GameJs.CONFIG.GRID_SIZE * GameJs.CONFIG.POINTS_PER_FOOD = 4000 /\
  gt (of_Z 5000) (of_Z 4000) = true /\
  validateScore 1700000000000 (submissionOf 5000 503 250000 1700000000000)
  = Ok accept.
Proof.
  split; [reflexivity |]. split; [reflexivity |]. vm_compute. reflexivity.
Qed.

(** C2 (amended).  Every submission whose score is a number above 10000,
    the fixed bound of the range check, gets a rejection verdict. *)
Theorem score_above_10000_rejected (now : Z) (data : value) (s : number) :
  get data "score" = Ok (VNumber s) -> gt s (of_Z 10000) = true ->
  exists v, validateScore now data = Ok v /\ valid v = false.
Proof.
  intros Hs Hbig.
  destruct (get_same_shape data "score" "gameData" _ Hs) as [gameData Hg].
  destruct (get_same_shape data "score" "timestamp" _ Hs) as [timestamp Ht].
  unfold validateScore. rewrite Hs, Hg, Ht. cbn [bind].
  destruct (sne (rem s (of_Z 10)) (of_Z 0)).
  - eexists. split; reflexivity.
  - rewrite Hbig, orb_true_r. eexists. split; reflexivity.
Qed.

(** The theorem at a submission of 10010 points, consistent otherwise. *)
Lemma score_above_10000_rejected_witness :
  get (submissionOf 10010 1004 600000 1700000000000) "score" = Ok (VNumber (of_Z 10010)) /\
  gt (of_Z 10010) (of_Z 10000) = true /\
  exists v, validateScore 1700000000000 (submissionOf 10010 1004 600000 1700000000000)
            = Ok v /\ valid v = false.
Proof.
  split; [reflexivity |]. split; [reflexivity |].
  exact (score_above_10000_rejected 1700000000000
           (submissionOf 10010 1004 600000 1700000000000) (of_Z 10010)
           eq_refl eq_refl).
Defined.

End ValidatorRange.

(** ** The rate limiter *)

Section RateLimiter.
Import JS SubmitScore ServiceProps.

Lemma checkRateLimit_other (t : Z) (a ip : string) (m : gmap string rateEntry) :
  a <> ip -> snd (checkRateLimit t a m) !! ip = m !! ip.
Proof.
  intros Hne. unfold checkRateLimit.
  destruct (m !! a) as [entry |]; simpl.
  - destruct (t - windowStart entry >? RATE_LIMIT_WINDOW); simpl.
    + apply lookup_insert_ne. exact Hne.
    + destruct (count entry >=? RATE_LIMIT_MAX); simpl; [reflexivity |].
      apply lookup_insert_ne. exact Hne.
  - apply lookup_insert_ne. exact Hne.
Qed.

(** A request that opens a window is admitted and counted as the first. *)
Lemma checkRateLimit_opens (t : Z) (ip : string) (m : gmap string rateEntry) :
  opensWindow m ip t ->
  checkRateLimit t ip m
  = (true, <[ip := {| windowStart := t; count := 1 |}]> m).
Proof.
  unfold checkRateLimit. intros [Hnone | (entry & Hsome & Hold)].
  - rewrite Hnone. reflexivity.
  - rewrite Hsome.
    destruct (Z.gtb_spec (t - windowStart entry) RATE_LIMIT_WINDOW); [reflexivity | lia].
Qed.

(** Inside the window a request is admitted exactly while the count is
    below the maximum; an admitted request is counted. *)
Lemma checkRateLimit_inside (t t0 c : Z) (ip : string) (m : gmap string rateEntry) :
  m !! ip = Some {| windowStart := t0; count := c |} ->
  t - t0 <= RATE_LIMIT_WINDOW ->
  fst (checkRateLimit t ip m) = (c <? RATE_LIMIT_MAX) /\
  snd (checkRateLimit t ip m) !! ip
  = Some {| windowStart := t0;
            count := if c <? RATE_LIMIT_MAX then c + 1 else c |}.
Proof.
  intros Hsome Hin. unfold checkRateLimit. rewrite Hsome. cbn [windowStart count].
  destruct (Z.gtb_spec (t - t0) RATE_LIMIT_WINDOW); [lia |].
  destruct (Z.geb_spec c RATE_LIMIT_MAX); destruct (Z.ltb_spec c RATE_LIMIT_MAX);
    try lia; cbn [fst snd].
  - split; [reflexivity | exact Hsome].
  - split; [reflexivity | apply lookup_insert_eq].
Qed.

(** The verdicts of an address inside its window, from a count of [c]. *)
Lemma verdictsFor_inside (ip : string) (t0 : Z) (rest : list (Z * string)) :
  forall (c : nat) (m : gmap string rateEntry),
    m !! ip = Some {| windowStart := t0; count := Z.of_nat c |} ->
    Forall (fun r => snd r = ip -> fst r - t0 <= RATE_LIMIT_WINDOW) rest ->
    verdictsFor ip rest m
    = map (fun j => (c + j <? 5)%nat) (List.seq 0 (requestsOf ip rest)).
Proof.
  induction rest as [| [t a] rest IH]; intros c m Hm Hwin; [reflexivity |].
  inversion Hwin as [| r l Hhead Htail]; subst. cbn [fst snd] in Hhead.
  cbn [verdictsFor]. unfold requestsOf. cbn [List.filter snd].
  destruct (checkRateLimit t a m) as [allowed m'] eqn:Hcheck.
  destruct (String.eqb_spec a ip) as [-> | Hne].
  - destruct (checkRateLimit_inside t t0 (Z.of_nat c) ip m Hm (Hhead eq_refl))
      as [Hfst Hsnd].
    rewrite Hcheck in Hfst, Hsnd. cbn [fst snd] in Hfst, Hsnd.
    cbn [length List.seq map]. f_equal.
    + rewrite Hfst. unfold RATE_LIMIT_MAX.
      destruct (Z.ltb_spec (Z.of_nat c) 5); destruct (Nat.ltb_spec (c + 0) 5);
        try reflexivity; lia.
    + rewrite <- seq_shift, map_map.
      destruct (Z.ltb_spec (Z.of_nat c) RATE_LIMIT_MAX) as [Hlt | Hge].
      * replace (Z.of_nat c + 1) with (Z.of_nat (S c)) in Hsnd by lia.
        rewrite (IH (S c) m' Hsnd Htail). apply map_ext. intros j.
        replace (S c + j)%nat with (c + S j)%nat by lia. reflexivity.
      * rewrite (IH c m' Hsnd Htail). apply map_ext. intros j.
        unfold RATE_LIMIT_MAX in Hge.
        destruct (Nat.ltb_spec (c + j) 5); destruct (Nat.ltb_spec (c + S j) 5);
          try reflexivity; lia.
  - apply IH; [| exact Htail].
    pose proof (checkRateLimit_other t a ip m Hne) as Hother.
    rewrite Hcheck in Hother. cbn [snd] in Hother. rewrite Hother. exact Hm.
Qed.

(** C6.  Take the requests served from the one that opens a window for an
    address, requests of other addresses in between included; as long as
    those of the address arrive no later than 60 seconds after the opening
    one, the first five of them are admitted and every later one is denied:
    of six such requests exactly the sixth is denied.  A denied request is
    answered with status 429.  A request that finds the window older than
    the window length opens a fresh window, is admitted and counted as the
    first of it. *)
Theorem rate_limit_window :
  (forall ip m t0 rest,
     opensWindow m ip t0 ->
     Forall (fun r => snd r = ip -> fst r - t0 <= RATE_LIMIT_WINDOW) rest ->
     verdictsFor ip ((t0, ip) :: rest) m
     = map (fun j => (j <? 5)%nat) (List.seq 0 (S (requestsOf ip rest)))) /\
  (forall ip m t0 rest,
     opensWindow m ip t0 ->
     Forall (fun r => snd r = ip -> fst r - t0 <= RATE_LIMIT_WINDOW) rest ->
     requestsOf ip rest = 5%nat ->
     verdictsFor ip ((t0, ip) :: rest) m = [true; true; true; true; true; false]) /\
  (forall e req s,
     method req = "POST"%string ->
     fst (checkRateLimit (nowRateLimit e) (clientIp req) (rateLimitMap s)) = false ->
     status (snd (handler e req s)) = 429 /\ store (fst (handler e req s)) = store s) /\
  (forall ip m t entry,
     m !! ip = Some entry -> t - windowStart entry > RATE_LIMIT_WINDOW ->
     checkRateLimit t ip m
     = (true, <[ip := {| windowStart := t; count := 1 |}]> m)) /\
  RATE_LIMIT_WINDOW = 60000 /\ RATE_LIMIT_MAX = 5.
Proof.
  assert (Hgen : forall ip m t0 rest,
     opensWindow m ip t0 ->
     Forall (fun r => snd r = ip -> fst r - t0 <= RATE_LIMIT_WINDOW) rest ->
     verdictsFor ip ((t0, ip) :: rest) m
     = map (fun j => (j <? 5)%nat) (List.seq 0 (S (requestsOf ip rest)))).
  { intros ip m t0 rest Hopen Hwin. cbn [verdictsFor].
    rewrite (checkRateLimit_opens t0 ip m Hopen). rewrite String.eqb_refl.
    cbn [List.seq map]. f_equal.
    rewrite (verdictsFor_inside ip t0 rest 1 _ (lookup_insert_eq _ _ _) Hwin).
    rewrite <- seq_shift, map_map. reflexivity. }
  split; [exact Hgen |]. split; [| split; [| split; [| split; reflexivity]]].
  - intros ip m t0 rest Hopen Hwin Hsix.
    rewrite (Hgen ip m t0 rest Hopen Hwin), Hsix. reflexivity.
  - intros e req s Hpost Hdenied. unfold handler. rewrite Hpost. cbn [String.eqb negb].
    change (("POST" =? "POST")%string) with true. cbn [negb].
    destruct (checkRateLimit _ _ _) as [allowed limits]. cbn [fst] in Hdenied.
    subst allowed. cbn. split; reflexivity.
  - intros ip m t entry Hsome Hold. apply checkRateLimit_opens.
    right. exists entry. split; assumption.
Qed.

(** The rate-limit theorem at six requests of one address within a minute,
    a request of another address in between. *)
Lemma rate_limit_window_witness :
  let reqs := [ (10000, "203.0.113.7"%string); (20000, "198.51.100.1"%string);
                (30000, "203.0.113.7"%string); (40000, "203.0.113.7"%string);
                (50000, "203.0.113.7"%string); (60000, "203.0.113.7"%string) ] in
  opensWindow ∅ "203.0.113.7" 0 /\
  Forall (fun r => snd r = "203.0.113.7"%string -> fst r - 0 <= RATE_LIMIT_WINDOW) reqs /\
  requestsOf "203.0.113.7" reqs = 5%nat /\
  verdictsFor "203.0.113.7" ((0, "203.0.113.7"%string) :: reqs) ∅
  = [true; true; true; true; true; false].
Proof.
  cbv zeta.
  assert (Hopen : opensWindow ∅ "203.0.113.7" 0) by (left; apply lookup_empty).
  assert (Hwin : Forall (fun r => snd r = "203.0.113.7"%string ->
                                  fst r - 0 <= RATE_LIMIT_WINDOW)
                   [ (10000, "203.0.113.7"%string); (20000, "198.51.100.1"%string);
                     (30000, "203.0.113.7"%string); (40000, "203.0.113.7"%string);
                     (50000, "203.0.113.7"%string); (60000, "203.0.113.7"%string) ]).
  { repeat constructor; intros _; unfold RATE_LIMIT_WINDOW; simpl; lia. }
  split; [exact Hopen |]. split; [exact Hwin |]. split; [reflexivity |].
  exact (proj1 (proj2 rate_limit_window) "203.0.113.7"%string ∅ 0 _ Hopen Hwin eq_refl).
Defined.

End RateLimiter.

(** ** The leaderboard order and the sort *)

Section LeaderboardOrder.
Import JS SubmitScore ServiceProps.

Lemma gt_zero_fin (q : Q) : gt (Fin q) (of_Z 0) = true <-> (0 < q)%Q.
Proof.
  unfold gt, lt, of_Z. change (inject_Z 0) with 0%Q.
  rewrite Qlt_alt. destruct (0 ?= q)%Q; split; congruence.
Qed.

Lemma finite_is_Fin (n : number) : is_finite n = true -> n = Fin (qOf n).
Proof. destruct n; simpl; try discriminate. reflexivity. Qed.

(** On entries with finite keys the comparator is positive exactly when the
    first entry does not rank before the second. *)
Lemma compareScores_rankLe (a b : entry) :
  finiteEntry a -> finiteEntry b ->
  (gt (compareScores a b) (of_Z 0) = false <-> rankLe a b).
Proof.
  intros [Ha1 Ha2] [Hb1 Hb2]. unfold compareScores, rankLe.
  rewrite (finite_is_Fin _ Ha1), (finite_is_Fin _ Ha2),
          (finite_is_Fin _ Hb1), (finite_is_Fin _ Hb2).
  cbn [qOf]. set (sa := qOf (score a)). set (sb := qOf (score b)).
  set (ta := qOf (timestamp a)). set (tb := qOf (timestamp b)).
  unfold sne, seq, sub, neg, add.
  destruct (Qeq_bool sb sa) eqn:Heq; cbn [negb].
  - apply Qeq_bool_iff in Heq.
    rewrite <- not_true_iff_false, gt_zero_fin. split.
    + intros Hn. right. split; [lra |]. lra.
    + intros [Hlt | [_ Hle]] Hpos; lra.
  - apply Qeq_bool_neq in Heq.
    rewrite <- not_true_iff_false, gt_zero_fin. split.
    + intros Hn. left. destruct (Qlt_le_dec sb sa) as [Hlt | Hle]; [exact Hlt |].
      exfalso. destruct (Qle_lt_or_eq _ _ Hle) as [Hlt | Heq']; [lra |].
      apply Heq. symmetry. exact Heq'.
    + intros [Hlt | [Heq' _]] Hpos; [lra |]. apply Heq. symmetry. exact Heq'.
Qed.

Lemma rankLe_total (a b : entry) : rankLe a b \/ rankLe b a.
Proof.
  unfold rankLe.
  destruct (Q_dec (qOf (score a)) (qOf (score b))) as [[Hlt | Hgt] | Heq].
  - right. left. exact Hlt.
  - left. left. exact Hgt.
  - destruct (Qlt_le_dec (qOf (timestamp b)) (qOf (timestamp a))) as [Hlt | Hle].
    + right. right. split; [symmetry; exact Heq | lra].
    + left. right. split; [exact Heq | exact Hle].
Qed.

Lemma rankLe_trans (a b c : entry) : rankLe a b -> rankLe b c -> rankLe a c.
Proof.
  unfold rankLe. intros [H1 | [H1 H1']] [H2 | [H2 H2']].
  - left. lra.
  - left. lra.
  - left. lra.
  - right. split; lra.
Qed.

Lemma sortInsert_perm {A : Type} (cmp : A -> A -> number) (a : A) (l : list A) :
  Permutation (sortInsert cmp a l) (a :: l).
Proof.
  induction l as [| b l IH]; cbn [sortInsert]; [reflexivity |].
  destruct (gt (cmp a b) (of_Z 0)); [| reflexivity].
  rewrite IH. apply perm_swap.
Qed.

Lemma sort_perm {A : Type} (cmp : A -> A -> number) (l : list A) :
  Permutation (sort cmp l) l.
Proof.
  induction l as [| a l IH]; cbn [sort]; [reflexivity |].
  rewrite sortInsert_perm. rewrite IH. reflexivity.
Qed.

Lemma Forall_perm {A : Type} (P : A -> Prop) (l l' : list A) :
  Permutation l l' -> Forall P l' -> Forall P l.
Proof.
  intros Hp Hall. rewrite !List.Forall_forall in *. intros a Ha.
  apply Hall. exact (Permutation_in _ Hp Ha).
Qed.

Lemma sortInsert_sorted (a : entry) (l : list entry) :
  finiteEntry a -> Forall finiteEntry l -> StronglySorted rankLe l ->
  StronglySorted rankLe (sortInsert compareScores a l).
Proof.
  intros Ha. induction l as [| b l IH]; intros Hfin Hsorted; cbn [sortInsert].
  - constructor; constructor.
  - inversion Hfin as [| b' l' Hb Hl]; subst.
    inversion Hsorted as [| b' l' Hsl Hbl]; subst.
    destruct (gt (compareScores a b) (of_Z 0)) eqn:Hcmp.
    + constructor; [exact (IH Hl Hsl) |].
      apply (Forall_perm _ _ (a :: l) (sortInsert_perm _ _ _)).
      constructor; [| exact Hbl].
      destruct (rankLe_total a b) as [Hab | Hba]; [| exact Hba].
      apply (compareScores_rankLe a b Ha Hb) in Hab. congruence.
    + apply (compareScores_rankLe a b Ha Hb) in Hcmp.
      constructor; [exact Hsorted |].
      constructor; [exact Hcmp |].
      rewrite !List.Forall_forall in *. intros c Hc.
      exact (rankLe_trans a b c Hcmp (Hbl c Hc)).
Qed.

Lemma sort_finite (l : list entry) :
  Forall finiteEntry l -> Forall finiteEntry (sort compareScores l).
Proof. apply Forall_perm. apply sort_perm. Qed.

Lemma sort_sorted (l : list entry) :
  Forall finiteEntry l -> StronglySorted rankLe (sort compareScores l).
Proof.
  induction l as [| a l IH]; intros Hfin; cbn [sort]; [constructor |].
  inversion Hfin as [| a' l' Ha Hl]; subst.
  apply sortInsert_sorted; [exact Ha | exact (sort_finite l Hl) | exact (IH Hl)].
Qed.

(** An entry that ranks before the head of a list is inserted in front. *)
Lemma sortInsert_front (a : entry) (l : list entry) :
  finiteEntry a -> Forall finiteEntry l -> Forall (rankLe a) l ->
  sortInsert compareScores a l = a :: l.
Proof.
  intros Ha Hfin Hle. destruct l as [| b l]; [reflexivity |]. cbn [sortInsert].
  inversion Hfin; subst. inversion Hle; subst.
  assert (Hcmp : gt (compareScores a b) (of_Z 0) = false)
    by (apply compareScores_rankLe; assumption).
  rewrite Hcmp. reflexivity.
Qed.

(** Sorting a sorted list with one entry pushed at its end puts the entry
    behind the stored entries that rank before it or equal to it, and leaves
    the stored entries in their order. *)
Lemma sort_pushed (old : list entry) (new : entry) :
  Forall finiteEntry old -> StronglySorted rankLe old -> finiteEntry new ->
  exists l1 l2,
    old = l1 ++ l2 /\
    sort compareScores (old ++ [new]) = l1 ++ new :: l2 /\
    Forall (fun a => rankLe a new) l1 /\
    Forall (fun a => ~ rankLe a new) l2.
Proof.
  intros Hfin Hsorted Hnew. induction old as [| a old IH].
  - exists [], []. repeat split; constructor.
  - inversion Hfin as [| a' l' Ha Hold]; subst.
    inversion Hsorted as [| a' l' Hso Hao]; subst.
    destruct (IH Hold Hso) as (l1 & l2 & Heq & Hsort & H1 & H2).
    cbn [app sort]. rewrite Hsort.
    destruct l1 as [| b l1].
    + cbn [app] in *. subst l2.
      cbn [sortInsert].
      destruct (gt (compareScores a new) (of_Z 0)) eqn:Hcmp.
      * rewrite (sortInsert_front a old Ha Hold Hao).
        exists [], (a :: old). repeat split; try constructor; try assumption.
        intros Hle. apply (compareScores_rankLe a new Ha Hnew) in Hle. congruence.
      * apply (compareScores_rankLe a new Ha Hnew) in Hcmp.
        exists [a], old. repeat split; try assumption.
        constructor; [exact Hcmp | constructor].
    + subst old. cbn [app sortInsert].
      inversion Hao as [| b' l' Hab Hrest]; subst.
      inversion Hold as [| b' l' Hb Hrest']; subst.
      assert (Hcmp : gt (compareScores a b) (of_Z 0) = false)
        by (apply compareScores_rankLe; assumption).
      rewrite Hcmp.
      exists (a :: b :: l1), l2. repeat split; try assumption.
      constructor; [| exact H1].
      inversion H1; subst. exact (rankLe_trans a b new Hab ltac:(assumption)).
Qed.

Lemma findIndex_nonneg_lt {A : Type} (p : A -> bool) (l : list A) :
  -1 <= findIndex p l < Z.of_nat (length l).
Proof.
  induction l as [| a l IH]; simpl; [lia |].
  destruct (p a); [lia |].
  destruct (Z.ltb_spec (findIndex p l) 0); lia.
Qed.

Lemma findIndex_none {A : Type} (p : A -> bool) (l : list A) :
  Forall (fun a => p a = false) l -> findIndex p l = -1.
Proof.
  induction 1 as [| a l Ha Hl IH]; simpl; [reflexivity |].
  rewrite Ha, IH. reflexivity.
Qed.

Lemma findIndex_app {A : Type} (p : A -> bool) (l1 l2 : list A) (a : A) :
  Forall (fun b => p b = false) l1 -> p a = true ->
  findIndex p (l1 ++ a :: l2) = Z.of_nat (length l1).
Proof.
  intros Hl1 Ha. induction Hl1 as [| b l Hb Hl IH]; simpl.
  - rewrite Ha. reflexivity.
  - rewrite Hb, IH. destruct (Z.ltb_spec (Z.of_nat (length l)) 0); lia.
Qed.

Lemma In_firstn {A : Type} (n : nat) (l : list A) (a : A) :
  In a (firstn n l) -> In a l.
Proof.
  revert n. induction l as [| b l IH]; intros n; [rewrite firstn_nil; auto |].
  destruct n as [| n]; cbn [firstn]; [intros [] |].
  intros [-> | Hin]; [left; reflexivity | right; exact (IH n Hin)].
Qed.

Lemma StronglySorted_firstn {A : Type} (R : A -> A -> Prop) (n : nat) (l : list A) :
  StronglySorted R l -> StronglySorted R (firstn n l).
Proof.
  revert n. induction l as [| a l IH]; intros n Hs.
  - rewrite firstn_nil. constructor.
  - destruct n as [| n]; [constructor |]. cbn [firstn].
    inversion Hs; subst. constructor; [apply IH; assumption |].
    rewrite !List.Forall_forall in *. intros b Hb.
    match goal with H : forall x, In x l -> R a x |- _ => apply H end.
    exact (In_firstn _ _ _ Hb).
Qed.

End LeaderboardOrder.

(** ** The submit-score handler *)

Section SubmitHandler.
Import JS SubmitScore ServiceProps.

Lemma rem_finite (s d : number) :
  sne (rem s d) (of_Z 0) = false -> is_finite s = true.
Proof.
  destruct s as [| | | q]; [| | | reflexivity];
    destruct d; cbn; discriminate.
Qed.

Lemma timestamp_finite (now : Z) (t : number) :
  gt (abs (sub (of_Z now) t)) (of_Z 600000) = false -> t <> NaN ->
  is_finite t = true.
Proof.
  destruct t as [| | | q]; cbn; try discriminate; try reflexivity.
  intros _ Hn. congruence.
Qed.

Lemma is_json_lookup (fields : list (string * value)) (k : string) (t : number) :
  is_json (VObject fields) = true -> lookup_field k fields = VNumber t -> t <> NaN.
Proof.
  cbn [is_json]. induction fields as [| [k' v] fields IH]; cbn [forallb lookup_field snd].
  - discriminate.
  - intros Hall. apply andb_prop in Hall. destruct Hall as [Hv Hrest].
    destruct (String.eqb k k'); [| exact (IH Hrest)].
    intros ->. intros ->. discriminate.
Qed.

(** A valid submission yields an entry; its score is finite, and so is its
    timestamp when the submission is JSON. *)
Lemma makeEntry_valid (now : Z) (i : string) (data : value) (v : verdict) :
  validateScore now data = Ok v -> valid v = true ->
  exists newEntry,
    makeEntry i data = Ok newEntry /\ id newEntry = i /\
    get data "score" = Ok (VNumber (score newEntry)) /\
    get data "timestamp" = Ok (VNumber (timestamp newEntry)) /\
    is_finite (score newEntry) = true /\
    (is_json data = true -> is_finite (timestamp newEntry) = true).
Proof.
  intros Hv Hacc.
  destruct (validateScore_valid now data v Hv Hacc)
    as (fields & s & t & -> & Fs & Hrem & _ & _ & Ft & Hfresh & Hgd).
  destruct (validateGameData_valid s _ v Hgd Hacc)
    as (gfields & d & l & g & Fg & _ & _ & _ & _ & _ & _).
  unfold makeEntry. rewrite !get_object, Fs, Ft, Fg. cbn [bind get].
  eexists. split; [reflexivity |]. cbn [id score timestamp].
  split; [reflexivity |]. split; [reflexivity |]. split; [reflexivity |].
  split; [exact (rem_finite s _ Hrem) |].
  intros Hjson. apply (timestamp_finite now t Hfresh).
  exact (is_json_lookup fields "timestamp" t Hjson Ft).
Qed.

(** The handler on an admitted, valid submission when the store answers. *)
Lemma handler_accepts (e : env) (req : request) (s : state)
    (data : value) (v : verdict) (newEntry : entry) :
  method req = "POST"%string ->
  fst (checkRateLimit (nowRateLimit e) (clientIp req) (rateLimitMap s)) = true ->
  json req = Ok data ->
  validateScore (nowValidate e) data = Ok v -> valid v = true ->
  makeEntry (newId e) data = Ok newEntry ->
  retryLoop 3 (readFailures e) = Ok tt -> retryLoop 3 (writeFailures e) = Ok tt ->
  let leaderboardData :=
    match store s with
    | Some existing => existing
    | None => emptyLeaderboard (nowDefault e)
    end in
  let result := insertEntry (nowUpdate e) leaderboardData newEntry in
  handler e req s =
    ({| rateLimitMap := snd (checkRateLimit (nowRateLimit e) (clientIp req) (rateLimitMap s));
        store := Some (fst result) |},
     {| status := 200;
        responseBody :=
          SuccessBody (snd result)
            match snd result with
            | Some r => MadeLeaderboard r
            | None => ScoreSubmitted
            end |}).
Proof.
  intros Hpost Hadm Hjson Hv Hacc Hentry Hread Hwrite. cbv zeta.
  unfold handler. rewrite Hpost. change (("POST" =? "POST")%string) with true.
  cbn [negb].
  destruct (checkRateLimit _ _ _) as [allowed limits]. cbn [fst snd] in *.
  subst allowed. cbn [negb].
  unfold trySubmit. rewrite Hjson. cbn [bind]. rewrite Hv. cbn [bind].
  rewrite Hacc. cbn [negb]. rewrite Hentry. cbn [bind]. rewrite Hread. cbn [bind].
  destruct (insertEntry _ _ _) as [updated rank]. rewrite Hwrite. cbn [bind fst snd].
  reflexivity.
Qed.

Lemma freshId_findIndex (i : string) (l : list entry) :
  freshId i l ->
  Forall (fun a => String.eqb (id a) i = false) l.
Proof.
  unfold freshId. apply List.Forall_impl. intros a Ha.
  apply String.eqb_neq. exact Ha.
Qed.

(** The update of a well-formed record by an entry with a fresh id. *)
Lemma insertEntry_spec (now : Z) (data : leaderboard) (new : entry) :
  snapshotOk (scores data) -> finiteEntry new -> freshId (id new) (scores data) ->
  exists l1 l2,
    scores data = l1 ++ l2 /\
    sort compareScores (scores data ++ [new]) = l1 ++ new :: l2 /\
    Forall (fun a => rankLe a new) l1 /\
    Forall (fun a => ~ rankLe a new) l2 /\
    ((length l1 < 20)%nat /\
       snd (insertEntry now data new) = Some (Z.of_nat (length l1) + 1) \/
     length l1 = 20%nat /\ l2 = [] /\
       snd (insertEntry now data new) = None /\
       scores (fst (insertEntry now data new)) = scores data).
Proof.
  intros (Hlen & Hfin & Hsorted) Hnew Hfresh.
  destruct (sort_pushed (scores data) new Hfin Hsorted Hnew)
    as (l1 & l2 & Heq & Hsort & H1 & H2).
  exists l1, l2. split; [exact Heq |]. split; [exact Hsort |].
  split; [exact H1 |]. split; [exact H2 |].
  unfold insertEntry, slice0. cbn [fst snd scores]. rewrite Hsort.
  apply freshId_findIndex in Hfresh. rewrite Heq in Hfresh, Hlen.
  apply Forall_app in Hfresh. destruct Hfresh as [Hf1 Hf2].
  rewrite length_app in Hlen.
  destruct (Nat.lt_ge_cases (length l1) 20) as [Hlt | Hge].
  - left. split; [exact Hlt |].
    rewrite firstn_app.
    rewrite (firstn_all2 l1) by lia.
    replace (20 - length l1)%nat with (S (19 - length l1)) by lia.
    cbn [firstn].
    rewrite (findIndex_app _ l1 _ new Hf1 (String.eqb_refl _)).
    destruct (Z.gtb_spec (Z.of_nat (length l1) + 1) 0); [| lia].
    destruct (Z.leb_spec (Z.of_nat (length l1) + 1) 20); [| lia].
    reflexivity.
  - right. assert (Hl1 : length l1 = 20%nat) by lia.
    assert (Hl2 : l2 = []) by (destruct l2; [reflexivity | simpl in Hlen; lia]).
    split; [exact Hl1 |]. split; [exact Hl2 |].
    rewrite firstn_app. rewrite Hl1. cbn [Nat.sub firstn]. rewrite app_nil_r.
    rewrite <- Hl1, firstn_all.
    rewrite (findIndex_none _ l1 Hf1). cbn.
    split; [reflexivity |]. rewrite Heq, Hl2, app_nil_r. reflexivity.
Qed.

End SubmitHandler.

Section SubmitClaim.
Import JS SubmitScore ServiceProps.

Lemma Forall_firstn {A : Type} (P : A -> Prop) (n : nat) (l : list A) :
  Forall P l -> Forall P (firstn n l).
Proof.
  rewrite !List.Forall_forall. intros Hall a Ha. apply Hall.
  exact (In_firstn n l a Ha).
Qed.

Lemma snapshotOk_top (l : list entry) :
  Forall finiteEntry l -> snapshotOk (firstn 20 (sort compareScores l)).
Proof.
  intros Hfin. split; [apply firstn_le_length |]. split.
  - apply Forall_firstn. apply sort_finite. exact Hfin.
  - apply StronglySorted_firstn. apply sort_sorted. exact Hfin.
Qed.

(** C1.  For a POST request that is admitted and carries a JSON submission
    [validateScore] accepts, with the store answering within the retries, a
    stored record as the data model describes it and a generated id that no
    stored entry carries: the handler builds the entry from the submission,
    pushes it behind the stored entries and sorts; the sorted array is a
    permutation of the stored entries and the new one, in leaderboard order
    (score descending, then timestamp ascending, so that of two entries of
    equal score the one with the earlier timestamp comes first); the record it
    persists holds the first 20 entries of that array and is again
    well-formed.  The new entry lands behind the stored entries [l1] that rank
    before or equal to it and in front of the others, [l2].  The response has
    status 200 and carries the 1-based rank [length l1 + 1] when that is at
    most 20, where the persisted record holds the new entry; otherwise it
    carries null, the new entry is not in the persisted record and the 20
    stored entries are persisted unchanged. *)
Theorem submit_inserts_and_ranks (e : env) (req : request) (s : state)
    (data : value) (v : verdict) :
  method req = "POST"%string ->
  fst (checkRateLimit (nowRateLimit e) (clientIp req) (rateLimitMap s)) = true ->
  json req = Ok data -> is_json data = true ->
  validateScore (nowValidate e) data = Ok v -> valid v = true ->
  retryLoop 3 (readFailures e) = Ok tt -> retryLoop 3 (writeFailures e) = Ok tt ->
  snapshotOk (storedScores (store s)) ->
  freshId (newId e) (storedScores (store s)) ->
  exists newEntry rank l1 l2,
    let old := storedScores (store s) in
    let sorted := sort compareScores (old ++ [newEntry]) in
    let top := storedScores (store (fst (handler e req s))) in
    makeEntry (newId e) data = Ok newEntry /\
    get data "score" = Ok (VNumber (score newEntry)) /\
    get data "timestamp" = Ok (VNumber (timestamp newEntry)) /\
    snd (handler e req s)
    = {| status := 200;
         responseBody :=
           SuccessBody rank
             match rank with
             | Some r => MadeLeaderboard r
             | None => ScoreSubmitted
             end |} /\
    Permutation sorted (old ++ [newEntry]) /\
    StronglySorted rankLe sorted /\
    top = firstn 20 sorted /\
    snapshotOk top /\
    old = l1 ++ l2 /\ sorted = l1 ++ newEntry :: l2 /\
    Forall (fun a => rankLe a newEntry) l1 /\
    Forall (fun a => ~ rankLe a newEntry) l2 /\
    ((length l1 < 20)%nat /\ rank = Some (Z.of_nat (length l1) + 1) /\
       nth_error top (length l1) = Some newEntry \/
     length l1 = 20%nat /\ rank = None /\ ~ In newEntry top /\ top = old).
Proof.
  intros Hpost Hadm Hjson Hisjson Hv Hacc Hread Hwrite Hok Hfresh.
  destruct (makeEntry_valid (nowValidate e) (newId e) data v Hv Hacc)
    as (newEntry & Hentry & Hid & Hscore & Htime & Hfs & Hft).
  assert (Hnew : finiteEntry newEntry) by (split; [exact Hfs | exact (Hft Hisjson)]).
  pose proof (handler_accepts e req s data v newEntry
                Hpost Hadm Hjson Hv Hacc Hentry Hread Hwrite) as Hh.
  cbv zeta in Hh.
  set (ld := match store s with
             | Some existing => existing
             | None => emptyLeaderboard (nowDefault e)
             end) in Hh.
  assert (Hld : scores ld = storedScores (store s))
    by (subst ld; destruct (store s); reflexivity).
  assert (Hok' : snapshotOk (scores ld)) by (rewrite Hld; exact Hok).
  assert (Hfresh' : freshId (id newEntry) (scores ld))
    by (rewrite Hld, Hid; exact Hfresh).
  destruct (insertEntry_spec (nowUpdate e) ld newEntry Hok' Hnew Hfresh')
    as (l1 & l2 & Heq & Hsort & H1 & H2 & Hrank).
  assert (Hfin : Forall finiteEntry (storedScores (store s) ++ [newEntry])).
  { apply Forall_app. split; [apply Hok | constructor; [exact Hnew | constructor]]. }
  assert (Htop : storedScores (store (fst (handler e req s)))
                 = firstn 20 (sort compareScores (storedScores (store s) ++ [newEntry]))).
  { rewrite Hh. cbn [fst store storedScores]. unfold insertEntry, slice0.
    cbn [fst scores]. rewrite Hld. reflexivity. }
  exists newEntry, (snd (insertEntry (nowUpdate e) ld newEntry)), l1, l2.
  cbv zeta. rewrite Htop. rewrite Hld in Heq, Hsort.
  split; [exact Hentry |]. split; [exact Hscore |]. split; [exact Htime |].
  split; [rewrite Hh; reflexivity |].
  split; [apply sort_perm |].
  split; [apply sort_sorted; exact Hfin |].
  split; [reflexivity |].
  split; [apply snapshotOk_top; exact Hfin |].
  split; [exact Heq |]. split; [exact Hsort |].
  split; [exact H1 |]. split; [exact H2 |].
  destruct Hrank as [[Hlt Hr] | (Hl1 & Hl2 & Hr & Hsame)].
  - left. split; [exact Hlt |]. split; [exact Hr |].
    rewrite Hsort. rewrite nth_error_firstn.
    destruct (Nat.ltb_spec (length l1) 20); [| lia].
    rewrite nth_error_app2 by lia. rewrite Nat.sub_diag. reflexivity.
  - right. split; [exact Hl1 |]. split; [exact Hr |].
    assert (Hkeep : firstn 20 (sort compareScores (storedScores (store s) ++ [newEntry]))
                    = storedScores (store s)).
    { rewrite Hsort, Heq, Hl2, app_nil_r. rewrite firstn_app, Hl1.
      cbn [Nat.sub firstn]. rewrite app_nil_r, <- Hl1. apply firstn_all. }
    rewrite Hkeep. split; [| reflexivity].
    intros Hin. unfold freshId in Hfresh. rewrite List.Forall_forall in Hfresh.
    apply (Hfresh newEntry Hin). exact Hid.
Qed.

(** The handler keeps the stored record well-formed. *)
Lemma handler_snapshotOk (e : env) (req : request) (s : state) :
  Service.jsonBody req -> snapshotOk (storedScores (store s)) ->
  snapshotOk (storedScores (store (fst (handler e req s)))).
Proof.
  intros Hjson Hok. unfold handler.
  destruct (negb (method req =? "POST")%string); [exact Hok |].
  destruct (checkRateLimit _ _ _) as [allowed limits].
  destruct (negb allowed); [exact Hok |].
  destruct (trySubmit e req (store s)) as [[stored resp] | |] eqn:Htry;
    cbn [fst store]; try exact Hok.
  unfold trySubmit in Htry.
  destruct (json req) as [data | |] eqn:Hdata; cbn [bind] in Htry; try discriminate.
  destruct (validateScore _ data) as [v | |] eqn:Hv; cbn [bind] in Htry; try discriminate.
  destruct (valid v) eqn:Hacc; cbn [negb] in Htry;
    [| inversion Htry; subst; exact Hok].
  destruct (makeEntry_valid _ (newId e) data v Hv Hacc)
    as (newEntry & Hentry & _ & _ & _ & Hfs & Hft).
  rewrite Hentry in Htry. cbn [bind] in Htry.
  destruct (retryLoop 3 (readFailures e)); cbn [bind] in Htry; try discriminate.
  unfold insertEntry, slice0 in Htry.
  destruct (retryLoop 3 (writeFailures e)); cbn [bind] in Htry; try discriminate.
  inversion Htry; subst. cbn [storedScores scores].
  apply snapshotOk_top. apply Forall_app. split.
  - destruct Hok as (_ & Hfin & _). destruct (store s); [exact Hfin | constructor].
  - constructor; [| constructor]. split; [exact Hfs | exact (Hft (Hjson data Hdata))].
Qed.

(** Every record the service stores is well-formed. *)
Lemma reachable_snapshotOk (sys : Service.system) :
  Service.reachable sys -> snapshotOk (storedScores (store (Service.submitState sys))).
Proof.
  induction 1 as [| s Hr IH | e req s Hjson Hr IH | e method s Hr IH].
  - cbn. split; [simpl; lia |]. split; constructor.
  - exact IH.
  - unfold Service.submit.
    pose proof (handler_snapshotOk e req (Service.submitState s) Hjson IH) as Hh.
    destruct (handler e req (Service.submitState s)) as [st resp]. exact Hh.
  - unfold Service.query.
    destruct (GetLeaderboard.handler e method _ _) as [c resp]. exact IH.
Qed.

End SubmitClaim.

Section SubmitExamples.
Import JS SubmitScore ServiceProps.

Lemma twoEntries_ok : snapshotOk (scores twoEntries).
Proof.
  split; [simpl; lia |]. split.
  - repeat constructor.
  - repeat constructor.
Qed.

(** The theorem at a submission of 120 points against a record of two
    entries. *)
Lemma submit_inserts_and_ranks_witness :
  let e := calmEnv 1700000000000 "n" in
  let req := postOf "203.0.113.7" (submissionOf 120 15 7000 1700000000000) in
  let s := {| rateLimitMap := ∅; store := Some twoEntries |} in
  snapshotOk (storedScores (store s)) /\
  freshId (newId e) (storedScores (store s)) /\
  exists newEntry l1 l2,
    makeEntry (newId e) (submissionOf 120 15 7000 1700000000000) = Ok newEntry /\
    snapshotOk (storedScores (store (fst (handler e req s)))) /\
    storedScores (store s) = l1 ++ l2 /\
    Forall (fun a => rankLe a newEntry) l1 /\
    Forall (fun a => ~ rankLe a newEntry) l2.
Proof.
  cbv zeta.
  assert (Hfresh : freshId "n" (scores twoEntries)).
  { repeat constructor; discriminate. }
  split; [exact twoEntries_ok |]. split; [exact Hfresh |].
  assert (Hadm : fst (checkRateLimit 1700000000000 "203.0.113.7" ∅) = true).
  { unfold checkRateLimit. rewrite lookup_empty. reflexivity. }
  assert (Hv : validateScore 1700000000000 (submissionOf 120 15 7000 1700000000000)
               = Ok accept).
  { vm_compute. reflexivity. }
  destruct (submit_inserts_and_ranks
              (calmEnv 1700000000000 "n")
              (postOf "203.0.113.7" (submissionOf 120 15 7000 1700000000000))
              {| rateLimitMap := ∅; store := Some twoEntries |}
              (submissionOf 120 15 7000 1700000000000) accept
              eq_refl Hadm eq_refl eq_refl Hv eq_refl eq_refl eq_refl
              twoEntries_ok Hfresh)
    as (newEntry & rank & l1 & l2 & H).
  cbv zeta in H.
  destruct H as (H1 & _ & _ & _ & _ & _ & _ & H8 & H9 & _ & H11 & H12 & _).
  exists newEntry, l1, l2.
  split; [exact H1 |]. split; [exact H8 |]. split; [exact H9 |].
  split; [exact H11 | exact H12].
Defined.

(** The new entry of 120 points goes between the stored 200 and 100 and
    is ranked second. *)
Example submit_ranks_second :
  let e := calmEnv 1700000000000 "n" in
  let req := postOf "203.0.113.7" (submissionOf 120 15 7000 1700000000000) in
  let s := {| rateLimitMap := ∅; store := Some twoEntries |} in
  snd (handler e req s)
  = {| status := 200; responseBody := SuccessBody (Some 2) (MadeLeaderboard 2) |} /\
  map id (storedScores (store (fst (handler e req s)))) = ["a"; "n"; "b"]%string.
Proof. cbv zeta. split; vm_compute; reflexivity. Qed.

(** Of two entries of equal score the one with the earlier timestamp comes
    first, whichever is submitted first. *)
Example equal_scores_earlier_first :
  let e := calmEnv 1700000000000 "n" in
  let board := {| version := 1; lastUpdated := 0;
                  scores := [ entryOf "late" 120 1700000000500 ] |} in
  let s := {| rateLimitMap := ∅; store := Some board |} in
  let req := postOf "203.0.113.7" (submissionOf 120 15 7000 1700000000000) in
  snd (handler e req s)
  = {| status := 200; responseBody := SuccessBody (Some 1) (MadeLeaderboard 1) |} /\
  map id (storedScores (store (fst (handler e req s)))) = ["n"; "late"]%string.
Proof. cbv zeta. split; vm_compute; reflexivity. Qed.

(** With 20 stored entries of 2000 down to 1810 points, a submission of 120
    points gets the rank null and the stored entries stay as they are. *)
Example submit_below_full_record :
  let e := calmEnv 1700000000000 "n" in
  let req := postOf "203.0.113.7" (submissionOf 120 15 7000 1700000000000) in
  let s := {| rateLimitMap := ∅; store := Some fullRecord |} in
  length (scores fullRecord) = 20%nat /\
  snd (handler e req s)
  = {| status := 200; responseBody := SuccessBody None ScoreSubmitted |} /\
  storedScores (store (fst (handler e req s))) = scores fullRecord.
Proof. cbv zeta. split; [reflexivity |]. split; vm_compute; reflexivity. Qed.

End SubmitExamples.

(** ** The empty store *)

Section EmptyStore.
Import JS SubmitScore ServiceProps.

Lemma handler_keeps_record (e : env) (req : request) (s : state) :
  store s <> None -> store (fst (handler e req s)) <> None.
Proof.
  intros Hs. unfold handler.
  destruct (negb (method req =? "POST")%string); [exact Hs |].
  destruct (checkRateLimit _ _ _) as [allowed limits].
  destruct (negb allowed); [exact Hs |].
  destruct (trySubmit e req (store s)) as [[stored resp] | |] eqn:Htry;
    cbn [fst store]; try exact Hs.
  unfold trySubmit in Htry.
  destruct (json req) as [data | |]; cbn [bind] in Htry; try discriminate.
  destruct (validateScore _ data) as [v | |]; cbn [bind] in Htry; try discriminate.
  destruct (negb (valid v)); [inversion Htry; subst; exact Hs |].
  destruct (makeEntry _ data) as [newEntry | |]; cbn [bind] in Htry; try discriminate.
  destruct (retryLoop 3 (readFailures e)); cbn [bind] in Htry; try discriminate.
  destruct (insertEntry _ _ _) as [updated rank].
  destruct (retryLoop 3 (writeFailures e)); cbn [bind] in Htry; try discriminate.
  inversion Htry; subst. discriminate.
Qed.

Lemma query_cache (e : GetLeaderboard.env) (c : GetLeaderboard.cache)
    (stored : option leaderboard) (data : leaderboard) :
  GetLeaderboard.cachedData (fst (GetLeaderboard.handler e "GET" c stored)) = Some data ->
  GetLeaderboard.cachedData c = Some data \/
  stored = Some data \/
  (stored = None /\ data = emptyLeaderboard (GetLeaderboard.nowDefault e)).
Proof.
  unfold GetLeaderboard.handler. change (("GET" =? "GET")%string) with true. cbn [negb].
  destruct (GetLeaderboard.cacheHit c _); cbn [fst]; [auto |].
  destruct (retryLoop 3 _); cbn [fst]; auto.
  cbn [GetLeaderboard.cachedData]. intros Heq. inversion Heq; subst.
  destruct stored; auto.
Qed.

Lemma reachable_cacheCoherent (s : Service.system) :
  Service.reachable s -> cacheCoherent s.
Proof.
  induction 1 as [| s Hr IH | e req s Hjson Hr IH | e method s Hr IH];
    unfold cacheCoherent in *.
  - cbn. discriminate.
  - cbn. discriminate.
  - intros data. unfold Service.submit.
    destruct (handler e req (Service.submitState s)) as [st resp] eqn:Hh.
    cbn [fst Service.queryCache Service.submitState]. intros Hc.
    destruct (IH data Hc) as [Hempty | Hsome]; [left; exact Hempty |].
    right. pose proof (handler_keeps_record e req _ Hsome) as Hkeep.
    rewrite Hh in Hkeep. exact Hkeep.
  - intros data. unfold Service.query.
    destruct (GetLeaderboard.handler e method _ _) as [c resp] eqn:Hh.
    cbn [fst Service.queryCache Service.submitState]. intros Hc.
    destruct (String.eqb_spec method "GET") as [-> | Hne].
    + pose proof (query_cache e (Service.queryCache s)
                    (store (Service.submitState s)) data) as Hq.
      rewrite Hh in Hq. cbn [fst] in Hq.
      destruct (Hq Hc) as [Hold | [Hst | [_ ->]]].
      * exact (IH data Hold).
      * right. rewrite Hst. discriminate.
      * left. reflexivity.
    + unfold GetLeaderboard.handler in Hh.
      apply String.eqb_neq in Hne. rewrite Hne in Hh. cbn [negb] in Hh.
      inversion Hh; subst. exact (IH data Hc).
Qed.

(** C10.  While the store holds no record, in every state the service
    reaches, a GET request whose store read succeeds within the retries is
    answered with status 200, success and an empty scores array; when it
    reads the store, the record it answers from and caches is the empty
    version-1 record.  An admitted POST request with a submission that
    [validateScore] accepts, the store answering, then inserts into the empty
    record: the response carries rank 1 and the record persisted is the
    version-1 record holding the new entry alone. *)
Theorem empty_store_is_empty_leaderboard :
  (forall sys e,
     Service.reachable sys -> store (Service.submitState sys) = None ->
     retryLoop 3 (GetLeaderboard.readFailures e) = Ok tt ->
     exists lastUpdated,
       snd (Service.query e "GET" sys)
       = {| GetLeaderboard.status := 200;
            GetLeaderboard.responseBody := GetLeaderboard.ScoresBody [] lastUpdated |}) /\
  (forall c e,
     GetLeaderboard.cacheHit c (GetLeaderboard.now e) = None ->
     retryLoop 3 (GetLeaderboard.readFailures e) = Ok tt ->
     GetLeaderboard.handler e "GET" c None
     = ({| GetLeaderboard.cachedData := Some (emptyLeaderboard (GetLeaderboard.nowDefault e));
           GetLeaderboard.cacheTimestamp := GetLeaderboard.now e |},
        {| GetLeaderboard.status := 200;
           GetLeaderboard.responseBody :=
             GetLeaderboard.ScoresBody [] (GetLeaderboard.nowDefault e) |}) /\
     version (emptyLeaderboard (GetLeaderboard.nowDefault e)) = 1) /\
  (forall e req s data v,
     method req = "POST"%string ->
     fst (checkRateLimit (nowRateLimit e) (clientIp req) (rateLimitMap s)) = true ->
     json req = Ok data ->
     validateScore (nowValidate e) data = Ok v -> valid v = true ->
     retryLoop 3 (readFailures e) = Ok tt -> retryLoop 3 (writeFailures e) = Ok tt ->
     store s = None ->
     exists newEntry,
       makeEntry (newId e) data = Ok newEntry /\
       snd (handler e req s)
       = {| status := 200; responseBody := SuccessBody (Some 1) (MadeLeaderboard 1) |} /\
       store (fst (handler e req s))
       = Some {| version := 1; lastUpdated := nowUpdate e; scores := [newEntry] |}).
Proof.
  split; [| split].
  - intros sys e Hreach Hnone Hread.
    pose proof (reachable_cacheCoherent sys Hreach) as Hco.
    unfold Service.query, GetLeaderboard.handler.
    change (("GET" =? "GET")%string) with true. cbn [negb].
    rewrite Hnone.
    destruct (GetLeaderboard.cacheHit (Service.queryCache sys) (GetLeaderboard.now e))
      as [cached |] eqn:Hhit.
    + assert (Hc : GetLeaderboard.cachedData (Service.queryCache sys) = Some cached).
      { unfold GetLeaderboard.cacheHit in Hhit.
        destruct (GetLeaderboard.cachedData (Service.queryCache sys)) as [d |];
          [| discriminate].
        destruct (_ <? _); [inversion Hhit; reflexivity | discriminate]. }
      destruct (Hco cached Hc) as [Hempty | Hsome]; [| congruence].
      exists (lastUpdated cached). cbn [snd]. unfold GetLeaderboard.okResponse.
      rewrite Hempty. reflexivity.
    + rewrite Hread. exists (GetLeaderboard.nowDefault e). reflexivity.
  - intros c e Hmiss Hread. split; [| reflexivity].
    unfold GetLeaderboard.handler. change (("GET" =? "GET")%string) with true.
    cbn [negb]. rewrite Hmiss, Hread. reflexivity.
  - intros e req s data v Hpost Hadm Hjson Hv Hacc Hread Hwrite Hnone.
    destruct (makeEntry_valid (nowValidate e) (newId e) data v Hv Hacc)
      as (newEntry & Hentry & Hid & _).
    exists newEntry. split; [exact Hentry |].
    rewrite (handler_accepts e req s data v newEntry
               Hpost Hadm Hjson Hv Hacc Hentry Hread Hwrite).
    rewrite Hnone. unfold insertEntry, slice0, emptyLeaderboard.
    cbn [scores app sort sortInsert firstn findIndex version fst snd].
    rewrite String.eqb_refl. cbn. split; reflexivity.
Qed.

(** The theorem at the cold-started service: a GET request whose first two
    store reads fail, and a first submission. *)
Lemma empty_store_is_empty_leaderboard_witness :
  Service.reachable Service.initial /\
  (exists lastUpdated,
     snd (Service.query
            {| GetLeaderboard.now := 1700000000000;
               GetLeaderboard.nowDefault := 1700000000001;
               GetLeaderboard.readFailures := [true; true] |} "GET" Service.initial)
     = {| GetLeaderboard.status := 200;
          GetLeaderboard.responseBody := GetLeaderboard.ScoresBody [] lastUpdated |}) /\
  exists newEntry,
    makeEntry "n" (submissionOf 120 15 7000 1700000000000) = Ok newEntry /\
    snd (handler (calmEnv 1700000000000 "n")
           (postOf "203.0.113.7" (submissionOf 120 15 7000 1700000000000))
           {| rateLimitMap := ∅; store := None |})
    = {| status := 200; responseBody := SuccessBody (Some 1) (MadeLeaderboard 1) |} /\
    store (fst (handler (calmEnv 1700000000000 "n")
                  (postOf "203.0.113.7" (submissionOf 120 15 7000 1700000000000))
                  {| rateLimitMap := ∅; store := None |}))
    = Some {| version := 1; lastUpdated := 1700000000000; scores := [newEntry] |}.
Proof.
  destruct empty_store_is_empty_leaderboard as (H1 & _ & H3).
  split; [exact Service.reach_initial |]. split.
  - exact (H1 Service.initial
              {| GetLeaderboard.now := 1700000000000;
                 GetLeaderboard.nowDefault := 1700000000001;
                 GetLeaderboard.readFailures := [true; true] |}
              Service.reach_initial eq_refl eq_refl).
  - assert (Hadm : fst (checkRateLimit 1700000000000 "203.0.113.7" ∅) = true).
    { unfold checkRateLimit. rewrite lookup_empty. reflexivity. }
    assert (Hv : validateScore 1700000000000 (submissionOf 120 15 7000 1700000000000)
                 = Ok accept).
    { vm_compute. reflexivity. }
    exact (H3 (calmEnv 1700000000000 "n")
              (postOf "203.0.113.7" (submissionOf 120 15 7000 1700000000000))
              {| rateLimitMap := ∅; store := None |}
              (submissionOf 120 15 7000 1700000000000) accept
              eq_refl Hadm eq_refl Hv eq_refl eq_refl eq_refl eq_refl).
Defined.

End EmptyStore.

(** * Further properties *)

(** ** The game: what an event does *)

Section Steps.
Import GameJs GameProps.

(** Every event handler that completes acts in one of six ways. *)
Lemma handle_stepKind (h : host) (ev : event) (s s' : gameState) :
  handle h ev s = Ok s' -> stepKind h s s'.
Proof.
  assert (Hstart : Game.start h s = Ok s' -> isPlaying s = false -> stepKind h s s').
  { intros Hst Hp. unfold Game.start in Hst.
    destruct (difficulty s) as [k |] eqn:Hd.
    - destruct (Food.generate h (Snake.initialize (Game.reset s))) as [s0 | |] eqn:Hg;
        cbn [bind] in Hst; try discriminate.
      exact (step_start h s s' k s0 Hp Hd Hg Hst).
    - inversion Hst; subst. apply step_none. reflexivity. }
  assert (Hnone : Ok s = Ok s' -> stepKind h s s').
  { intros Heq. inversion Heq; subst. apply step_none. reflexivity. }
  assert (Hset : forall d, isPlaying s = true -> isUnit d ->
                           Ok (Input.setDirection d s) = Ok s' -> stepKind h s s').
  { intros d Hp Hd Heq. inversion Heq; subst.
    exact (step_direction h s _ d Hp Hd eq_refl). }
  destruct ev as [key | | dx dy | | level | |]; cbn [handle].
  - destruct (isPlaying s) eqn:Hp.
    + rewrite andb_false_r.
      destruct (Input.keyMap key) as [d |] eqn:Hk; [| exact Hnone].
      apply Hset; [reflexivity | exact (keyMap_unit key d Hk)].
    + destruct (String.eqb key " "); cbn [andb negb].
      * destruct (bool_decide (difficulty s <> None)); [| exact Hnone].
        intros Hst. exact (Hstart Hst eq_refl).
      * destruct (Input.keyMap key); exact Hnone.
  - destruct (isPlaying s) eqn:Hp; cbn [negb]; [exact Hnone |].
    intros Hst. exact (Hstart Hst eq_refl).
  - destruct (isPlaying s) eqn:Hp; cbn [negb]; [| exact Hnone].
    destruct (_ <? _); [exact Hnone |].
    destruct (_ >? _); [destruct (dx >? 0) | destruct (dy >? 0)];
      apply Hset; try reflexivity; unfold isUnit; auto.
  - destruct (isPlaying s) eqn:Hp; cbn [negb]; [exact Hnone |].
    intros Hst. exact (Hstart Hst eq_refl).
  - intros Heq. inversion Heq; subst. exact (step_select h s _ level eq_refl).
  - destruct (gameLoopId s) eqn:Hl; [| exact Hnone].
    intros Hloop. exact (step_tick h s s' Hl Hloop).
  - destruct (foodTimerId s) eqn:Hf; [| exact Hnone].
    intros Hg. exact (step_relocate h s s' Hf Hg).
Qed.

(** A tick of a running game that completes ends in one of three ways. *)
Lemma loop_tickResult (h : host) (t s' : gameState) :
  isPlaying t = true -> Game.loop h t = Ok s' ->
  exists head rest, snake t = head :: rest /\ tickResult h t s' head.
Proof.
  intros Hp Hl. destruct (snake t) as [| head rest] eqn:Hs.
  - unfold Game.loop, Snake.move, headOf in Hl. cbn in Hl. rewrite Hp, Hs in Hl.
    cbn in Hl. discriminate.
  - exists head, rest. split; [reflexivity |].
    rewrite (loop_unfold h t head rest Hp Hs) in Hl. cbv zeta in Hl.
    destruct (collides head t) eqn:Hc.
    + inversion Hl; subst. exact (result_collision h t _ head Hc eq_refl).
    + destruct (point_eqb (newHeadOf head t) (food t)) eqn:He.
      * unfold Food.regenerate in Hl.
        destruct (Food.generate h _) as [s2 | |] eqn:Hg; cbn [bind] in Hl;
          try discriminate.
        destruct (difficulty s2) as [k |] eqn:Hd; [| discriminate].
        inversion Hl; subst.
        exact (result_eat h t _ head s2 k Hc He Hg Hd eq_refl).
      * inversion Hl; subst. exact (result_plain h t _ head Hc He eq_refl).
Qed.

(** The state a tick that eats leaves, before the speed and the timer are
    set. *)
Lemma eat_fields (h : host) (t s2 : gameState) (head : point) :
  Food.generate h
    (Food.clearTimer
       (set_score (score t + CONFIG.POINTS_PER_FOOD) (Snake.grow (afterMove head t))))
  = Ok s2 ->
  snake s2 = newHeadOf head t :: bodyAfterMove t /\
  score s2 = score t + CONFIG.POINTS_PER_FOOD /\ shouldGrow s2 = true /\
  isPlaying s2 = isPlaying t /\ gameLoopId s2 = gameLoopId t /\
  speed s2 = speed t /\ difficulty s2 = difficulty t /\
  foodTimerId s2 = (isPlaying t && bool_decide (difficulty t <> None)) /\
  ~ In (food s2) (snake s2).
Proof.
  intros Hg. set (s1 := set_score _ _) in Hg.
  destruct (generate_spec _ _ _ Hg)
    as (G1 & G2 & G3 & G4 & G5 & G6 & G7 & G8 & G9 & G10 & G11).
  destruct (clearTimer_spec s1)
    as (C1 & C2 & C3 & C4 & C5 & C6 & C7 & C8 & C9 & C10 & C11 & C12).
  assert (Hfree : ~ In (food s2) (snake s2)).
  { rewrite G1. intros Hin. apply isOnSnake_In in Hin. congruence. }
  rewrite C1 in G1. rewrite C4 in G4. rewrite C5 in G5, G10.
  rewrite C6 in G6. rewrite C7 in G7. rewrite C8 in G8. rewrite C9 in G9, G10.
  clear G11. subst s1. cbn in *.
  repeat split; assumption.
Qed.

Lemma run_app (h : host) (evs1 evs2 : list event) (s : gameState) :
  run h (evs1 ++ evs2) s = (do s1 <- run h evs1 s; run h evs2 s1).
Proof.
  revert s. induction evs1 as [| ev evs1 IH]; intros s; cbn [app run bind].
  - reflexivity.
  - destruct (handle h ev s) as [s1 | |]; cbn [bind]; [apply IH | reflexivity ..].
Qed.

(** A property that every completed event handler keeps holds in every state
    reached from a state that has it. *)
Lemma run_invariant (h : host) (P : gameState -> Prop) :
  (forall ev s s', P s -> handle h ev s = Ok s' -> P s') ->
  forall evs s s', P s -> run h evs s = Ok s' -> P s'.
Proof.
  intros Hstep. induction evs as [| ev evs IH]; intros s s' HP; cbn [run].
  - intros Heq. inversion Heq; subst. exact HP.
  - destruct (handle h ev s) as [s1 | |] eqn:Hh; cbn [bind]; try discriminate.
    apply IH. exact (Hstep ev s s1 HP Hh).
Qed.

Lemma atRightWall_reached :
  run (constantHost 0 1)
      ([ClickDifficulty CONFIG.EASY; ClickStartButton] ++ repeat LoopTimeout 8)
      initialState = Ok atRightWall.
Proof. vm_compute. reflexivity. Qed.

Lemma afterGameOver_reached :
  run (constantHost 0 1)
      ([ClickDifficulty CONFIG.EASY; ClickStartButton] ++ repeat LoopTimeout 9)
      initialState = Ok afterGameOver.
Proof. vm_compute. reflexivity. Qed.

Lemma constantHost_validRandom (bound : nat) : validRandom (constantHost 0 bound).
Proof. intros n. cbn. split; [apply Qle_refl | reflexivity]. Qed.

End Steps.

(** ** The game: invariants *)

Section Invariants.
Import GameJs GameProps.

Lemma setDirection_frame (d : point) (s : gameState) :
  snake (Input.setDirection d s) = snake s /\
  score (Input.setDirection d s) = score s /\
  isPlaying (Input.setDirection d s) = isPlaying s /\
  gameLoopId (Input.setDirection d s) = gameLoopId s /\
  foodTimerId (Input.setDirection d s) = foodTimerId s /\
  speed (Input.setDirection d s) = speed s /\
  shouldGrow (Input.setDirection d s) = shouldGrow s /\
  difficulty (Input.setDirection d s) = difficulty s /\
  food (Input.setDirection d s) = food s.
Proof.
  unfold Input.setDirection. destruct (negb _); cbn; repeat split; reflexivity.
Qed.

(** *** The timers *)

Lemma tick_timersOk (h : host) (t s' : gameState) :
  isPlaying t = true -> Game.loop h t = Ok s' -> timersOk s'.
Proof.
  intros Hp Hl. destruct (loop_tickResult h t s' Hp Hl) as (head & rest & Hs & Hres).
  unfold timersOk.
  destruct Hres as [Hc -> | s2 k Hc He Hg Hd -> | Hc He ->].
  - destruct (gameOver_spec (afterMove head t))
      as (_ & _ & _ & _ & _ & _ & _ & H8 & H9 & H10).
    rewrite H8, H9, H10. split; [reflexivity | discriminate].
  - destruct (eat_fields h t s2 head Hg) as (_ & _ & _ & E4 & _).
    cbn. rewrite E4, Hp. split; reflexivity.
  - cbn. rewrite Hp. split; reflexivity.
Qed.

Lemma timersOk_step (h : host) (s s' : gameState) :
  timersOk s -> stepKind h s s' -> timersOk s'.
Proof.
  intros [Hloop Hfood] Hstep.
  destruct Hstep as [-> | d Hp Hd -> | level -> | k s0 Hp Hd Hg Hl | Hl Hloop' | Hf Hg].
  - split; assumption.
  - destruct (setDirection_frame d s) as (_ & _ & F3 & F4 & F5 & _).
    unfold timersOk. rewrite F3, F4, F5. split; assumption.
  - split; assumption.
  - set (t := set_isPlaying true _) in Hl. exact (tick_timersOk h t s' eq_refl Hl).
  - refine (tick_timersOk h (set_gameLoopId false s) s' _ Hloop').
    cbn. rewrite <- Hloop. exact Hl.
  - destruct (generate_spec _ _ _ Hg)
      as (_ & _ & _ & _ & G5 & G6 & _ & _ & _ & G10 & _).
    unfold timersOk. rewrite G5, G6, G10. split; [exact Hloop |].
    intros Hand. apply andb_prop in Hand. exact (proj1 Hand).
Qed.

(** *** The speed *)

Lemma speedIncrement_positive (k : CONFIG.difficultyKey) :
  0 < CONFIG.speedIncrement (CONFIG.DIFFICULTY k).
Proof. destruct k; reflexivity. Qed.

Lemma initialSpeed_range (k : CONFIG.difficultyKey) :
  CONFIG.MIN_SPEED <= CONFIG.initialSpeed (CONFIG.DIFFICULTY k) <= 200.
Proof. destruct k; cbn; unfold CONFIG.MIN_SPEED; lia. Qed.

(** A tick never slows the game down and never goes below the floor. *)
Lemma tick_speed (h : host) (t s' : gameState) :
  isPlaying t = true -> CONFIG.MIN_SPEED <= speed t -> Game.loop h t = Ok s' ->
  CONFIG.MIN_SPEED <= speed s' <= speed t.
Proof.
  intros Hp Hmin Hl.
  destruct (loop_tickResult h t s' Hp Hl) as (head & rest & Hs & Hres).
  destruct Hres as [Hc -> | s2 k Hc He Hg Hd -> | Hc He ->].
  - unfold Game.gameOver, Food.clearTimer. cbn.
    destruct (gameLoopId t); cbn; destruct (foodTimerId t); cbn; lia.
  - destruct (eat_fields h t s2 head Hg) as (_ & _ & _ & _ & _ & E6 & _).
    cbn. rewrite E6. pose proof (speedIncrement_positive k). lia.
  - cbn. lia.
Qed.

Lemma speedOk_step (h : host) (s s' : gameState) :
  speedOk s -> stepKind h s s' -> speedOk s'.
Proof.
  unfold speedOk. intros Hok Hstep.
  destruct Hstep as [-> | d Hp Hd -> | level -> | k s0 Hp Hd Hg Hl | Hl Hloop' | Hf Hg].
  - exact Hok.
  - destruct (setDirection_frame d s) as (_ & _ & _ & _ & _ & F6 & _).
    rewrite F6. exact Hok.
  - exact Hok.
  - pose proof (initialSpeed_range k) as Hk.
    set (t := set_isPlaying true _) in Hl.
    pose proof (tick_speed h t s' eq_refl (proj1 Hk) Hl) as Ht. cbn in Ht. lia.
  - destruct (isPlaying s) eqn:Hp.
    + pose proof (tick_speed h (set_gameLoopId false s) s' Hp (proj1 Hok) Hloop') as Ht.
      cbn in Ht. lia.
    + rewrite loop_stopped in Hloop' by exact Hp. inversion Hloop'; subst. exact Hok.
  - destruct (generate_spec _ _ _ Hg) as (_ & _ & _ & _ & _ & _ & G7 & _).
    rewrite G7. exact Hok.
Qed.

End Invariants.

Section SnakeInvariants.
Import GameJs GameProps.

Lemma In_removelast {A : Type} (a : A) (l : list A) :
  In a (removelast l) -> In a l.
Proof.
  induction l as [| b l IH]; [intros [] |].
  destruct l as [| c l]; [intros [] |].
  rewrite removelast_cons_cons. intros [-> | Hin]; [left; reflexivity |].
  right. exact (IH Hin).
Qed.

Lemma NoDup_removelast {A : Type} (l : list A) :
  List.NoDup l -> List.NoDup (removelast l).
Proof.
  induction 1 as [| a l Hnot Hnd IH]; [constructor |].
  destruct l as [| b l]; [constructor |].
  rewrite removelast_cons_cons. constructor; [| exact IH].
  intros Hin. apply Hnot. exact (In_removelast _ _ Hin).
Qed.

Lemma Forall_removelast {A : Type} (P : A -> Prop) (l : list A) :
  Forall P l -> Forall P (removelast l).
Proof.
  rewrite !List.Forall_forall. intros Hall a Ha. apply Hall.
  exact (In_removelast _ _ Ha).
Qed.

Lemma connected_removelast (l : list point) :
  connected l -> connected (removelast l).
Proof.
  induction l as [| p l IH]; [intros _; exact I |].
  destruct l as [| q l]; [intros _; exact I |].
  rewrite removelast_cons_cons. intros [Hadj Hrest].
  destruct l as [| r l]; [exact I |].
  rewrite removelast_cons_cons in *. split; [exact Hadj | exact (IH Hrest)].
Qed.

Lemma bodyAfterMove_In (t : gameState) (p : point) :
  In p (bodyAfterMove t) -> In p (snake t).
Proof.
  unfold bodyAfterMove. destruct (shouldGrow t); [auto | apply In_removelast].
Qed.

Lemma bodyAfterMove_head (t : gameState) (head : point) (rest : list point) :
  snake t = head :: rest -> (2 <= length (snake t))%nat ->
  exists others, bodyAfterMove t = head :: others.
Proof.
  intros Hs Hlen. unfold bodyAfterMove. rewrite Hs in *.
  destruct (shouldGrow t); [exists rest; reflexivity |].
  destruct rest as [| q rest]; [simpl in Hlen; lia |].
  rewrite removelast_cons_cons. eexists. reflexivity.
Qed.

Lemma newHead_adjacent (t : gameState) (head : point) :
  isUnit (nextDirection t) -> adjacent (newHeadOf head t) head.
Proof.
  unfold adjacent, newHeadOf.
  intros [-> | [-> | [-> | ->]]]; cbn; [right | right | left | left]; split; lia.
Qed.

Lemma startSnake_ok :
  connected startSnake /\ Forall inGrid startSnake /\ List.NoDup startSnake.
Proof.
  split; [| split].
  - cbn. unfold adjacent. cbn. repeat split; try exact I; right; split; lia.
  - unfold startSnake, inGrid, CONFIG.GRID_SIZE. repeat constructor; cbn; lia.
  - unfold startSnake. repeat constructor; cbn; intuition discriminate.
Qed.

(** The state [Game.start] runs its first tick from. *)
Lemma start_entry (h : host) (s s0 : gameState) (k : CONFIG.difficultyKey) :
  difficulty s = Some k ->
  Food.generate h (Snake.initialize (Game.reset s)) = Ok s0 ->
  let t := set_isPlaying true
             (set_speed (CONFIG.initialSpeed (CONFIG.DIFFICULTY k)) s0) in
  snake t = startSnake /\ nextDirection t = {| x := 1; y := 0 |} /\
  score t = 0 /\ shouldGrow t = false /\ difficulty t = Some k /\
  food t = food s0 /\ ~ In (food s0) startSnake /\ foodTimerId t = false.
Proof.
  intros Hd Hg. cbv zeta.
  destruct (initialize_reset_spec s)
    as (I1 & I2 & I3 & I4 & I5 & I6 & I7 & I8 & I9 & I10).
  cbv zeta in *.
  destruct (generate_spec _ _ _ Hg)
    as (G1 & G2 & G3 & G4 & G5 & G6 & G7 & G8 & G9 & G10 & G11).
  assert (Hfree : ~ In (food s0) startSnake).
  { rewrite I1 in G11. intros Hin. apply isOnSnake_In in Hin. congruence. }
  cbn [snake nextDirection score shouldGrow difficulty food foodTimerId
       set_isPlaying set_speed].
  rewrite G1, G3, G4, G8, G9, G10, I1, I3, I4, I5, I6, I9, Hd.
  repeat split; try reflexivity. exact Hfree.
Qed.

(** *** The snake and the score *)

Lemma tick_snakeOk (h : host) (t s' : gameState) :
  isPlaying t = true -> isUnit (nextDirection t) -> snakeOk t ->
  Game.loop h t = Ok s' -> snakeOk s'.
Proof.
  intros Hp Hunit (_ & Hsn & _ & _) Hl.
  destruct (loop_tickResult h t s' Hp Hl) as (head & rest & Hs & Hres).
  destruct Hsn as (Hdiff & Hlen & Hconn & Hscore); [rewrite Hs; discriminate |].
  destruct (bodyAfterMove_head t head rest Hs ltac:(lia)) as [others Hbody].
  pose proof (length_bodyAfterMove t head rest Hs) as Hlb.
  assert (Hconn' : connected (newHeadOf head t :: bodyAfterMove t)).
  { assert (Hcb : connected (bodyAfterMove t)).
    { unfold bodyAfterMove. destruct (shouldGrow t);
        [exact Hconn | exact (connected_removelast _ Hconn)]. }
    rewrite Hbody in *. split; [exact (newHead_adjacent t head Hunit) | exact Hcb]. }
  assert (Hgen : forall (sn : list point) (sc : Z) (gr pl : bool)
                        (df : option CONFIG.difficultyKey),
             sn = newHeadOf head t :: bodyAfterMove t -> df = difficulty t ->
             sc = score t + (if gr then CONFIG.POINTS_PER_FOOD else 0) ->
             (pl = false -> gr = false) ->
             (sn = [] -> sc = 0) /\
             (sn <> [] ->
                df <> None /\ (3 <= length sn)%nat /\ connected sn /\
                sc = CONFIG.POINTS_PER_FOOD *
                     (Z.of_nat (length sn) - 3 + (if gr then 1 else 0))) /\
             (pl = false -> gr = false) /\ (pl = true -> sn <> [])).
  { intros sn sc gr pl df -> -> -> Hgr.
    split; [discriminate |]. split; [| split; [exact Hgr | discriminate]].
    intros _. split; [exact Hdiff |]. cbn [length].
    split; [lia |]. split; [exact Hconn' |].
    rewrite Hscore. unfold CONFIG.POINTS_PER_FOOD.
    destruct (shouldGrow t), gr; lia. }
  unfold snakeOk.
  destruct Hres as [Hc -> | s2 k Hc He Hg Hd -> | Hc He ->].
  - destruct (gameOver_spec (afterMove head t))
      as (H1 & _ & _ & H4 & H5 & H6 & _ & H8 & _).
    rewrite H1, H4, H5, H6, H8.
    apply (Hgen _ _ false false _ eq_refl eq_refl); [cbn; lia | reflexivity].
  - destruct (eat_fields h t s2 head Hg) as (E1 & E2 & E3 & E4 & _ & _ & E7 & _).
    cbn [snake score shouldGrow isPlaying difficulty set_gameLoopId set_speed].
    rewrite E1, E2, E3, E4, E7, Hp.
    apply (Hgen _ _ true true _ eq_refl eq_refl); [reflexivity | discriminate].
  - cbn [snake score shouldGrow isPlaying difficulty set_gameLoopId afterMove].
    rewrite Hp.
    apply (Hgen _ _ false true _ eq_refl eq_refl); [lia | reflexivity].
Qed.

Lemma snakeOk_step (h : host) (s s' : gameState) :
  directionsOk s -> snakeOk s -> stepKind h s s' -> snakeOk s'.
Proof.
  intros (_ & Hnext & _) Hok Hstep.
  destruct Hstep as [-> | d Hp Hd -> | level -> | k s0 Hp Hd Hg Hl | Hl Hloop' | Hf Hg].
  - exact Hok.
  - destruct (setDirection_frame d s) as (F1 & F2 & F3 & _ & _ & _ & F7 & F8 & _).
    unfold snakeOk. rewrite F1, F2, F3, F7, F8. exact Hok.
  - destruct Hok as (H1 & H2 & H3 & H4). unfold snakeOk. cbn.
    split; [exact H1 |]. split; [| split; assumption].
    intros Hne. destruct (H2 Hne) as (_ & Hrest). split; [discriminate | exact Hrest].
  - destruct (start_entry h s s0 k Hd Hg) as (T1 & T2 & T3 & T4 & T5 & _).
    cbv zeta in *. set (t := set_isPlaying true _) in *.
    apply (tick_snakeOk h t s' eq_refl); [rewrite T2; left; reflexivity | | exact Hl].
    unfold snakeOk. rewrite T1, T3, T4, T5.
    split; [discriminate |]. split; [| split; discriminate].
    intros _. split; [discriminate |]. split; [simpl; lia |].
    split; [exact (proj1 startSnake_ok) | reflexivity].
  - destruct (isPlaying s) eqn:Hp.
    + apply (tick_snakeOk h (set_gameLoopId false s) s' Hp Hnext); [| exact Hloop'].
      exact Hok.
    + rewrite loop_stopped in Hloop' by exact Hp. inversion Hloop'; subst. exact Hok.
  - destruct (generate_spec _ _ _ Hg)
      as (G1 & _ & _ & G4 & G5 & _ & _ & G8 & G9 & _).
    unfold snakeOk. rewrite G1, G4, G5, G8, G9. exact Hok.
Qed.

End SnakeInvariants.

Section CellInvariants.
Import GameJs GameProps.

Lemma collides_false (t : gameState) (head : point) :
  collides head t = false ->
  inGrid (newHeadOf head t) /\ ~ In (newHeadOf head t) (bodyAfterMove t).
Proof.
  unfold collides. cbv zeta. set (nh := newHeadOf head t).
  intros Hc. apply orb_false_elim in Hc. destruct Hc as [Hc Hself].
  apply orb_false_elim in Hc. destruct Hc as [Hc Hy2].
  apply orb_false_elim in Hc. destruct Hc as [Hc Hy1].
  apply orb_false_elim in Hc. destruct Hc as [Hx1 Hx2].
  split.
  - unfold inGrid.
    destruct (Z.ltb_spec (x nh) 0); [discriminate |].
    destruct (Z.geb_spec (x nh) CONFIG.GRID_SIZE); [discriminate |].
    destruct (Z.ltb_spec (y nh) 0); [discriminate |].
    destruct (Z.geb_spec (y nh) CONFIG.GRID_SIZE); [discriminate |]. lia.
  - intros Hin. apply isOnSnake_In in Hin. congruence.
Qed.

(** The head a colliding tick computes is off the grid or on a segment. *)
Lemma collides_cases (t : gameState) (head : point) :
  collides head t = true ->
  ~ inGrid (newHeadOf head t) \/ In (newHeadOf head t) (bodyAfterMove t).
Proof.
  unfold collides. cbv zeta. set (nh := newHeadOf head t).
  destruct (Food.isOnSnake (bodyAfterMove t) nh) eqn:Hself.
  - intros _. right. apply isOnSnake_In. exact Hself.
  - rewrite orb_false_r. intros Hc. left. unfold inGrid. intros [Hx Hy].
    destruct (Z.ltb_spec (x nh) 0); [lia |].
    destruct (Z.geb_spec (x nh) CONFIG.GRID_SIZE); [lia |].
    destruct (Z.ltb_spec (y nh) 0); [lia |].
    destruct (Z.geb_spec (y nh) CONFIG.GRID_SIZE); [lia |]. discriminate.
Qed.

Lemma bodyAfterMove_cells (t : gameState) :
  Forall inGrid (snake t) -> List.NoDup (snake t) ->
  Forall inGrid (bodyAfterMove t) /\ List.NoDup (bodyAfterMove t).
Proof.
  intros Hgrid Hnd. unfold bodyAfterMove. destruct (shouldGrow t).
  - split; assumption.
  - split; [apply Forall_removelast | apply NoDup_removelast]; assumption.
Qed.

(** *** The cells of the snake *)

Lemma tick_cellsOk (h : host) (t s' : gameState) :
  isPlaying t = true -> Forall inGrid (snake t) -> List.NoDup (snake t) ->
  Game.loop h t = Ok s' -> cellsOk s'.
Proof.
  intros Hp Hgrid Hnd Hl.
  destruct (loop_tickResult h t s' Hp Hl) as (head & rest & Hs & Hres).
  destruct (bodyAfterMove_cells t Hgrid Hnd) as [Hbg Hbn].
  assert (Hrun : collides head t = false ->
                 Forall inGrid (newHeadOf head t :: bodyAfterMove t) /\
                 List.NoDup (newHeadOf head t :: bodyAfterMove t)).
  { intros Hc. destruct (collides_false t head Hc) as [Hin Hnot].
    split; constructor; assumption. }
  unfold cellsOk.
  destruct Hres as [Hc -> | s2 k Hc He Hg Hd -> | Hc He ->].
  - destruct (gameOver_spec (afterMove head t)) as (H1 & _ & _ & _ & _ & _ & _ & H8 & _).
    rewrite H1, H8. cbn [snake afterMove tl].
    split; [exact Hbg |]. split; [exact Hbn | discriminate].
  - destruct (eat_fields h t s2 head Hg) as (E1 & _).
    cbn [snake isPlaying set_gameLoopId set_speed]. rewrite E1. cbn [tl].
    split; [exact Hbg |]. split; [exact Hbn |]. intros _. exact (Hrun Hc).
  - cbn [snake isPlaying set_gameLoopId afterMove tl].
    split; [exact Hbg |]. split; [exact Hbn |]. intros _. exact (Hrun Hc).
Qed.

Lemma cellsOk_step (h : host) (s s' : gameState) :
  cellsOk s -> stepKind h s s' -> cellsOk s'.
Proof.
  intros Hok Hstep.
  destruct Hstep as [-> | d Hp Hd -> | level -> | k s0 Hp Hd Hg Hl | Hl Hloop' | Hf Hg].
  - exact Hok.
  - destruct (setDirection_frame d s) as (F1 & _ & F3 & _).
    unfold cellsOk. rewrite F1, F3. exact Hok.
  - exact Hok.
  - destruct (start_entry h s s0 k Hd Hg) as (T1 & _).
    cbv zeta in *. set (t := set_isPlaying true _) in *.
    destruct startSnake_ok as (_ & Hg' & Hn').
    apply (tick_cellsOk h t s' eq_refl); [rewrite T1; exact Hg' | rewrite T1; exact Hn' | exact Hl].
  - destruct (isPlaying s) eqn:Hp.
    + destruct Hok as (_ & _ & Hrun). destruct (Hrun Hp) as [Hg' Hn'].
      exact (tick_cellsOk h (set_gameLoopId false s) s' Hp Hg' Hn' Hloop').
    + rewrite loop_stopped in Hloop' by exact Hp. inversion Hloop'; subst.
      exact Hok.
  - destruct (generate_spec _ _ _ Hg) as (G1 & _ & _ & _ & G5 & _).
    unfold cellsOk. rewrite G1, G5. exact Hok.
Qed.

(** *** The food *)

Lemma randomCell_range (h : host) (n : nat) :
  validRandom h -> 0 <= Food.randomCell h n < CONFIG.GRID_SIZE.
Proof.
  intros Hr. destruct (Hr n) as [Hlo Hhi]. unfold Food.randomCell, CONFIG.GRID_SIZE.
  set (r := random h n) in *. split.
  - change 0 with (Qfloor 0). apply Qfloor_resp_le.
    change (inject_Z 20) with (20 # 1)%Q. nra.
  - apply Z.lt_nge. intros Hge.
    pose proof (Qfloor_le (r * inject_Z 20)) as Hfl.
    assert (Hq : (inject_Z 20 <= inject_Z (Qfloor (r * inject_Z 20)))%Q)
      by (rewrite <- Zle_Qle; exact Hge).
    change (inject_Z 20) with (20 # 1)%Q in *. nra.
Qed.

Lemma candidate_inGrid (h : host) (pos k : nat) :
  validRandom h -> inGrid (candidate h pos k).
Proof.
  intros Hr. unfold inGrid, candidate. cbn [x y].
  split; apply randomCell_range; exact Hr.
Qed.

Lemma generate_foodOk (h : host) (s s' : gameState) :
  validRandom h -> Food.generate h s = Ok s' -> foodOk s'.
Proof.
  intros Hr Hg.
  destruct (generate_spec _ _ _ Hg) as (G1 & _ & _ & _ & _ & _ & _ & _ & _ & _ & G11).
  unfold foodOk. split.
  - unfold Food.generate in Hg.
    destruct (Food.generateLoop h (loopBound h) (randomPos s) (snake s))
      as [[f p] | |] eqn:Hloop; cbn [bind] in Hg; try discriminate.
    destruct (generateLoop_ok _ _ _ _ _ _ Hloop) as (k & _ & Hf & _).
    inversion Hg; subst s'. clear Hg.
    assert (Hfood : food (Food.startTimer (set_food f p s)) = f).
    { unfold Food.startTimer, Food.clearTimer.
      destruct s as [sn d nd fd sc pl gl sp gr df ft rp]. cbn.
      destruct ft, pl; cbn; try (destruct (bool_decide (df <> None)); cbn); reflexivity. }
    rewrite Hfood, Hf. apply candidate_inGrid. exact Hr.
  - rewrite G1. intros Hin. apply isOnSnake_In in Hin. congruence.
Qed.

Lemma tick_foodOk (h : host) (t s' : gameState) :
  validRandom h -> isPlaying t = true -> foodOk t ->
  Game.loop h t = Ok s' -> foodOk s'.
Proof.
  intros Hr Hp [Hgrid Hfree] Hl.
  destruct (loop_tickResult h t s' Hp Hl) as (head & rest & Hs & Hres).
  assert (Hbody : ~ In (food t) (bodyAfterMove t)).
  { intros Hin. apply Hfree. exact (bodyAfterMove_In t _ Hin). }
  unfold foodOk.
  destruct Hres as [Hc -> | s2 k Hc He Hg Hd -> | Hc He ->].
  - destruct (gameOver_spec (afterMove head t)) as (H1 & _ & _ & _ & _ & _ & H7 & _).
    rewrite H1, H7. cbn [snake food afterMove].
    split; [exact Hgrid |]. intros [Heq | Hin]; [| exact (Hbody Hin)].
    destruct (collides_cases t head Hc) as [Hout | Hon].
    + apply Hout. rewrite Heq. exact Hgrid.
    + apply Hbody. rewrite <- Heq. exact Hon.
  - destruct (generate_foodOk h _ s2 Hr Hg) as [Hg2 Hf2].
    cbn [snake food set_gameLoopId set_speed]. split; assumption.
  - cbn [snake food set_gameLoopId afterMove].
    split; [exact Hgrid |]. intros [Heq | Hin]; [| exact (Hbody Hin)].
    unfold point_eqb in He. rewrite Heq, !Z.eqb_refl in He. discriminate.
Qed.

Lemma foodOk_step (h : host) (s s' : gameState) :
  validRandom h -> foodOk s -> stepKind h s s' -> foodOk s'.
Proof.
  intros Hr Hok Hstep.
  destruct Hstep as [-> | d Hp Hd -> | level -> | k s0 Hp Hd Hg Hl | Hl Hloop' | Hf Hg].
  - exact Hok.
  - destruct (setDirection_frame d s) as (F1 & _ & _ & _ & _ & _ & _ & _ & F9).
    unfold foodOk. rewrite F1, F9. exact Hok.
  - exact Hok.
  - destruct (start_entry h s s0 k Hd Hg) as (T1 & _ & _ & _ & _ & T6 & T7 & _).
    cbv zeta in *. set (t := set_isPlaying true _) in *.
    apply (tick_foodOk h t s' Hr eq_refl); [| exact Hl].
    unfold foodOk. rewrite T1, T6. split; [| exact T7].
    exact (proj1 (generate_foodOk h _ s0 Hr Hg)).
  - destruct (isPlaying s) eqn:Hp.
    + exact (tick_foodOk h (set_gameLoopId false s) s' Hr Hp Hok Hloop').
    + rewrite loop_stopped in Hloop' by exact Hp. inversion Hloop'; subst. exact Hok.
  - exact (generate_foodOk h s s' Hr Hg).
Qed.

End CellInvariants.

(** ** The validator on integer submissions *)

Section ValidatorIntegers.
Import JS SubmitScore ServiceProps.

Lemma lt_Fin (p q : Q) : lt (Fin p) (Fin q) = true <-> (p < q)%Q.
Proof.
  cbn [lt]. rewrite Qlt_alt. destruct (p ?= q)%Q; split; congruence.
Qed.

Lemma lt_Fin_bool (p q : Q) (b : bool) :
  ((p < q)%Q <-> b = true) -> lt (Fin p) (Fin q) = b.
Proof.
  intros Hiff. destruct (lt (Fin p) (Fin q)) eqn:Hlt.
  - apply lt_Fin in Hlt. symmetry. apply Hiff. exact Hlt.
  - destruct b; [| reflexivity].
    assert (Ht : lt (Fin p) (Fin q) = true) by (apply lt_Fin, Hiff; reflexivity).
    congruence.
Qed.

Lemma lt_of_Z (a b : Z) : lt (of_Z a) (of_Z b) = (a <? b).
Proof.
  apply lt_Fin_bool. rewrite <- Zlt_Qlt. symmetry. apply Z.ltb_lt.
Qed.

Lemma Qtrunc_div_10 (s : Z) : Qtrunc (inject_Z s / inject_Z 10) = Z.quot s 10.
Proof. unfold Qtrunc. cbn. rewrite Z.mul_1_r. reflexivity. Qed.

(** The first check, on an integer score. *)
Lemma score_format_of_Z (s : Z) :
  sne (rem (of_Z s) (of_Z 10)) (of_Z 0) = negb (Z.rem s 10 =? 0).
Proof.
  unfold sne, rem, of_Z, sgn. change (inject_Z 10 ?= 0)%Q with Gt. cbn [seq].
  rewrite Qtrunc_div_10. f_equal.
  assert (Heq : (inject_Z s - inject_Z 10 * inject_Z (Z.quot s 10)
                 == inject_Z (Z.rem s 10))%Q).
  { unfold Qminus. rewrite <- inject_Z_mult, <- inject_Z_opp, <- inject_Z_plus.
    pose proof (Z.quot_rem' s 10) as Hqr.
    replace (s + - (10 * Z.quot s 10)) with (Z.rem s 10) by lia. reflexivity. }
  destruct (Z.eqb_spec (Z.rem s 10) 0) as [Hz | Hnz].
  - apply Qeq_bool_iff. rewrite Heq, Hz. reflexivity.
  - apply not_true_iff_false. intros Hb. apply Qeq_bool_iff in Hb.
    rewrite Heq in Hb. apply Hnz. apply inject_Z_injective. exact Hb.
Qed.

(** The timestamp check, on integers. *)
Lemma abs_sub_of_Z (a b c : Z) :
  gt (abs (sub (of_Z a) (of_Z b))) (of_Z c) = (c <? Z.abs (a - b)).
Proof.
  unfold gt, abs, sub, neg, add, of_Z. apply lt_Fin_bool.
  rewrite <- inject_Z_opp, <- inject_Z_plus.
  change (Qabs (inject_Z (a + - b))) with (inject_Z (Z.abs (a + - b))).
  rewrite <- Zlt_Qlt. replace (a + - b) with (a - b) by lia.
  symmetry. apply Z.ltb_lt.
Qed.

Lemma div_10_exact (s : Z) :
  Z.rem s 10 = 0 -> (inject_Z s / inject_Z 10 == inject_Z (Z.quot s 10))%Q.
Proof.
  intros Hrem. pose proof (Z.quot_rem' s 10) as Hqr.
  assert (Hs : s = Z.quot s 10 * 10) by lia.
  rewrite Hs at 1. rewrite inject_Z_mult. apply Qdiv_mult_l. discriminate.
Qed.

(** The length check, on integers, for a score that is a multiple of 10. *)
Lemma length_check_of_Z (s len : Z) :
  Z.rem s 10 = 0 ->
  gt (abs (sub (of_Z len) (add (div (of_Z s) (of_Z 10)) (of_Z 3)))) (of_Z 2)
  = (2 <? Z.abs (len - (Z.quot s 10 + 3))).
Proof.
  intros Hrem. unfold gt, abs, sub, neg, add, div, of_Z, sgn.
  change (inject_Z 10 ?= 0)%Q with Gt. cbn iota. apply lt_Fin_bool.
  assert (Heq : (inject_Z len + - (inject_Z s / inject_Z 10 + inject_Z 3)
                 == inject_Z (len - (Z.quot s 10 + 3)))%Q).
  { rewrite (div_10_exact s Hrem).
    rewrite <- inject_Z_plus, <- inject_Z_opp, <- inject_Z_plus.
    replace (len + - (Z.quot s 10 + 3)) with (len - (Z.quot s 10 + 3)) by lia.
    reflexivity. }
  rewrite Heq.
  change (Qabs (inject_Z (len - (Z.quot s 10 + 3))))
    with (inject_Z (Z.abs (len - (Z.quot s 10 + 3)))).
  rewrite <- Zlt_Qlt. symmetry. apply Z.ltb_lt.
Qed.

(** The time check, on integers, for a score that is a multiple of 10. *)
Lemma time_check_of_Z (s time : Z) :
  Z.rem s 10 = 0 ->
  lt (of_Z time) (mul (div (of_Z s) (of_Z 10)) (of_Z 500))
  = (time <? Z.quot s 10 * 500).
Proof.
  intros Hrem. unfold mul, div, of_Z, sgn.
  change (inject_Z 10 ?= 0)%Q with Gt. cbn iota. apply lt_Fin_bool.
  rewrite (div_10_exact s Hrem), <- inject_Z_mult, <- Zlt_Qlt.
  symmetry. apply Z.ltb_lt.
Qed.

End ValidatorIntegers.

Section ValidatorOnBodies.
Import JS SubmitScore ServiceProps.

(** The verdict of [validateScore] on a body with integer fields. *)
Lemma validateScore_integer_body (now t s len time : Z) (d : value) :
  exists v,
    validateScore now (GameJs.Leaderboard.submitScoreBody t s d len time) = Ok v /\
    (valid v = true <->
       Z.rem s 10 = 0 /\ 0 <= s <= 10000 /\ Z.abs (now - t) <= 600000 /\
       includes validDifficulties d = true /\
       Z.abs (len - (s / 10 + 3)) <= 2 /\ s / 10 * 500 <= time).
Proof.
  unfold validateScore, GameJs.Leaderboard.submitScoreBody.
  cbn [get lookup_field bind].
  change (("score" =? "score")%string) with true.
  change (("gameData" =? "score")%string) with false.
  change (("gameData" =? "timestamp")%string) with false.
  change (("gameData" =? "gameData")%string) with true.
  change (("timestamp" =? "score")%string) with false.
  change (("timestamp" =? "timestamp")%string) with true.
  cbv iota. cbn [bind].
  rewrite score_format_of_Z, !lt_of_Z. unfold gt. rewrite lt_of_Z.
  cbn [notNumberOr]. fold (gt (abs (sub (of_Z now) (of_Z t))) (of_Z 600000)).
  rewrite abs_sub_of_Z.
  destruct (Z.eqb_spec (Z.rem s 10) 0) as [Hrem | Hrem]; cbn [negb];
    [| eexists; split; [reflexivity |]; cbn; split; [discriminate | tauto]].
  destruct (Z.ltb_spec s 0) as [Hneg | Hneg]; cbn [orb];
    [eexists; split; [reflexivity |]; cbn; split; [discriminate | lia] |].
  destruct (Z.ltb_spec 10000 s) as [Hbig | Hbig];
    [eexists; split; [reflexivity |]; cbn; split; [discriminate | lia] |].
  destruct (Z.ltb_spec 600000 (Z.abs (now - t))) as [Hold | Hold];
    [eexists; split; [reflexivity |]; cbn; split; [discriminate | lia] |].
  unfold validateGameData.
  cbn [truthy isObjectType typeof negb orb get lookup_field bind].
  change (("difficulty" =? "difficulty")%string) with true.
  change (("snakeLength" =? "difficulty")%string) with false.
  change (("snakeLength" =? "snakeLength")%string) with true.
  change (("gameTime" =? "difficulty")%string) with false.
  change (("gameTime" =? "snakeLength")%string) with false.
  change (("gameTime" =? "gameTime")%string) with true.
  cbv iota. cbn [bind notNumberOr].
  rewrite (length_check_of_Z s len Hrem), (time_check_of_Z s time Hrem).
  rewrite (Z.quot_div_nonneg s 10) by lia.
  destruct (includes validDifficulties d) eqn:Hd; cbn [negb];
    [| eexists; split; [reflexivity |]; cbn; split; [discriminate | intuition discriminate]].
  destruct (Z.ltb_spec 2 (Z.abs (len - (s / 10 + 3)))) as [Hlen | Hlen];
    [eexists; split; [reflexivity |]; cbn; split; [discriminate | lia] |].
  destruct (Z.ltb_spec time (s / 10 * 500)) as [Htime | Htime];
    [eexists; split; [reflexivity |]; cbn; split; [discriminate | lia] |].
  eexists. split; [reflexivity |]. cbn. split; [intros _ | reflexivity].
  repeat split; try assumption; lia.
Qed.

(** X1.  On the body the game client posts (integer score, timestamp,
    length and game time, any difficulty value) [validateScore] returns a
    verdict, and the verdict is an acceptance exactly when the score is a
    multiple of 10 between 0 and 10000, the timestamp is at most 600000 ms
    away from the server's time in either direction, the difficulty is one of
    the three keys, the length is within 2 of [score / 10 + 3] and the game
    time is at least [score / 10 * 500]. *)
Theorem validateScore_on_integers (now t s len time : Z) (d : value) :
  exists v,
    validateScore now (GameJs.Leaderboard.submitScoreBody t s d len time) = Ok v /\
    (valid v = true <->
       Z.rem s 10 = 0 /\ 0 <= s <= 10000 /\ Z.abs (now - t) <= 600000 /\
       includes validDifficulties d = true /\
       Z.abs (len - (s / 10 + 3)) <= 2 /\ s / 10 * 500 <= time).
Proof.
  exact (validateScore_integer_body now t s len time d).
Qed.

End ValidatorOnBodies.

(** ** The game: what holds in every state it reaches *)

Section Reached.
Import GameJs GameProps.

Lemma initialState_ok :
  timersOk initialState /\ snakeOk initialState /\ cellsOk initialState /\
  speedOk initialState /\ foodOk initialState.
Proof.
  unfold timersOk, snakeOk, cellsOk, speedOk, foodOk, inGrid, initialState,
         CONFIG.MIN_SPEED, CONFIG.GRID_SIZE. cbn.
  repeat split; try discriminate; try constructor; try lia; try congruence; auto.
Qed.

(** The invariants of the game, together. *)
Lemma reached_ok (h : host) (evs : list event) (s : gameState) :
  run h evs initialState = Ok s ->
  directionsOk s /\ timersOk s /\ snakeOk s /\ cellsOk s /\ speedOk s.
Proof.
  apply (run_invariant h
           (fun s => directionsOk s /\ timersOk s /\ snakeOk s /\ cellsOk s /\ speedOk s)).
  - intros ev s0 s1 (Hd & Ht & Hs & Hc & Hv) Hh.
    pose proof (handle_stepKind h ev s0 s1 Hh) as Hstep.
    split; [exact (handle_directionsOk h ev s0 s1 Hd Hh) |].
    split; [exact (timersOk_step h s0 s1 Ht Hstep) |].
    split; [exact (snakeOk_step h s0 s1 Hd Hs Hstep) |].
    split; [exact (cellsOk_step h s0 s1 Hc Hstep) |].
    exact (speedOk_step h s0 s1 Hv Hstep).
  - destruct initialState_ok as (H1 & H2 & H3 & H4 & _).
    split; [exact initialState_directionsOk |].
    split; [exact H1 |]. split; [exact H2 |]. split; [exact H3 | exact H4].
Qed.

Lemma inGrid_gridCells (p : point) : inGrid p -> In p gridCells.
Proof.
  unfold inGrid, gridCells, CONFIG.GRID_SIZE. intros [Hx Hy].
  apply in_flat_map. exists (Z.to_nat (x p)). split; [apply in_seq; cbn; lia |].
  apply in_map_iff. exists (Z.to_nat (y p)). split; [| apply in_seq; cbn; lia].
  destruct p as [px py]. cbn in *. f_equal; lia.
Qed.

(** Distinct cells of the grid are at most 400. *)
Lemma cells_at_most_400 (l : list point) :
  Forall inGrid l -> List.NoDup l -> (length l <= 400)%nat.
Proof.
  intros Hgrid Hnd.
  assert (Hincl : incl l gridCells).
  { intros p Hp. apply inGrid_gridCells.
    rewrite List.Forall_forall in Hgrid. exact (Hgrid p Hp). }
  pose proof (NoDup_incl_length Hnd Hincl) as Hle.
  change (length gridCells) with 400%nat in Hle. exact Hle.
Qed.

(** X2.  In every state the game reaches the loop timer is pending exactly
    while the game is running, and the food timer is pending only while it is
    running: no timer outlives a game. *)
Theorem timers_follow_the_game (h : host) (evs : list event) (s : gameState) :
  run h evs initialState = Ok s ->
  gameLoopId s = isPlaying s /\ (foodTimerId s = true -> isPlaying s = true).
Proof.
  intros Hrun. destruct (reached_ok h evs s Hrun) as (_ & Ht & _). exact Ht.
Qed.

(** The timer property at the game that has just hit the wall. *)
Lemma timers_follow_the_game_witness :
  run (constantHost 0 1)
      ([ClickDifficulty CONFIG.EASY; ClickStartButton] ++ repeat LoopTimeout 9)
      initialState = Ok afterGameOver /\
  gameLoopId afterGameOver = isPlaying afterGameOver /\
  (foodTimerId afterGameOver = true -> isPlaying afterGameOver = true).
Proof.
  split; [exact afterGameOver_reached |].
  exact (timers_follow_the_game (constantHost 0 1) _ afterGameOver afterGameOver_reached).
Defined.

(** What a tick does to the speed. *)
Lemma tick_speed_exact (h : host) (t s' : gameState) :
  isPlaying t = true -> Game.loop h t = Ok s' ->
  (score s' = score t /\ speed s' = speed t) \/
  (exists k, difficulty t = Some k /\
             score s' = score t + CONFIG.POINTS_PER_FOOD /\
             speed s' = Z.max CONFIG.MIN_SPEED
                          (speed t - CONFIG.speedIncrement (CONFIG.DIFFICULTY k))).
Proof.
  intros Hp Hl. destruct (loop_tickResult h t s' Hp Hl) as (head & rest & Hs & Hres).
  destruct Hres as [Hc -> | s2 k Hc He Hg Hd -> | Hc He ->].
  - left. unfold Game.gameOver, Food.clearTimer. cbn.
    destruct (gameLoopId t); cbn; destruct (foodTimerId t); cbn; split; reflexivity.
  - right. destruct (eat_fields h t s2 head Hg) as (_ & E2 & _ & _ & _ & E6 & E7 & _).
    exists k. cbn. rewrite E2, E6, <- E7. repeat split; try reflexivity. exact Hd.
  - left. cbn. split; reflexivity.
Qed.

(** X3.  In every state the game reaches the tick interval lies between the
    floor of 50 ms and 200 ms.  A tick on the loop timer either leaves score
    and interval as they are, or it has eaten: the score is up by 10 and the
    interval is down by the increment of the difficulty, stopping at the
    floor.  The interval never goes up during a game. *)
Theorem speed_floor_and_steps (h : host) (evs : list event) (s : gameState) :
  run h evs initialState = Ok s ->
  CONFIG.MIN_SPEED = 50 /\ 50 <= speed s <= 200 /\
  forall s', handle h LoopTimeout s = Ok s' ->
    speed s' <= speed s /\
    ((score s' = score s /\ speed s' = speed s) \/
     (exists k, difficulty s = Some k /\ score s' = score s + 10 /\
                speed s' = Z.max 50 (speed s - CONFIG.speedIncrement (CONFIG.DIFFICULTY k)))).
Proof.
  intros Hrun. destruct (reached_ok h evs s Hrun) as (_ & _ & _ & _ & Hv).
  split; [reflexivity |]. split; [exact Hv |].
  intros s' Hh. cbn [handle] in Hh.
  destruct (gameLoopId s); [| inversion Hh; subst; split; [lia | left; split; reflexivity]].
  destruct (isPlaying s) eqn:Hp.
  - pose proof (tick_speed h (set_gameLoopId false s) s' Hp (proj1 Hv) Hh) as Hle.
    split; [exact (proj2 Hle) |].
    exact (tick_speed_exact h (set_gameLoopId false s) s' Hp Hh).
  - rewrite loop_stopped in Hh by exact Hp. inversion Hh; subst. cbn.
    split; [lia | left; split; reflexivity].
Qed.

(** The speed property at the EASY game after its ninth tick. *)
Lemma speed_floor_and_steps_witness :
  run (constantHost 0 1)
      ([ClickDifficulty CONFIG.EASY; ClickStartButton] ++ repeat LoopTimeout 8)
      initialState = Ok atRightWall /\
  50 <= speed atRightWall <= 200.
Proof.
  split; [exact atRightWall_reached |].
  exact (proj1 (proj2 (speed_floor_and_steps (constantHost 0 1) _ atRightWall
                         atRightWall_reached))).
Defined.

End Reached.

Section Reached2.
Import GameJs GameProps.

(** X4.  Once a game has been started, in every state the game reaches, a
    difficulty is selected, the snake has at least three segments, each one
    unit away from the next along one axis, and the score is ten points for
    every segment beyond the third, counting a growth that is still pending;
    growth is pending only while the game runs.  Before the first game the
    score is 0. *)
Theorem snake_shape_and_score (h : host) (evs : list event) (s : gameState) :
  run h evs initialState = Ok s ->
  (snake s = [] -> score s = 0) /\
  (snake s <> [] ->
     difficulty s <> None /\ (3 <= length (snake s))%nat /\ connected (snake s) /\
     score s = 10 * (Z.of_nat (length (snake s)) - 3 + (if shouldGrow s then 1 else 0)) /\
     0 <= score s) /\
  (isPlaying s = false -> shouldGrow s = false) /\
  (isPlaying s = true -> snake s <> []).
Proof.
  intros Hrun. destruct (reached_ok h evs s Hrun) as (_ & _ & (H1 & H2 & H3 & H4) & _).
  split; [exact H1 |]. split; [| split; assumption].
  intros Hne. destruct (H2 Hne) as (Hd & Hlen & Hc & Hsc).
  unfold CONFIG.POINTS_PER_FOOD in Hsc.
  repeat split; try assumption. rewrite Hsc. destruct (shouldGrow s); lia.
Qed.

(** The snake property at the EASY game after its ninth tick. *)
Lemma snake_shape_and_score_witness :
  run (constantHost 0 1)
      ([ClickDifficulty CONFIG.EASY; ClickStartButton] ++ repeat LoopTimeout 8)
      initialState = Ok atRightWall /\
  snake atRightWall <> [] /\
  connected (snake atRightWall) /\
  score atRightWall
  = 10 * (Z.of_nat (length (snake atRightWall)) - 3
          + (if shouldGrow atRightWall then 1 else 0)).
Proof.
  assert (Hne : snake atRightWall <> []) by discriminate.
  split; [exact atRightWall_reached |]. split; [exact Hne |].
  destruct (snake_shape_and_score (constantHost 0 1) _ atRightWall atRightWall_reached)
    as (_ & H2 & _).
  destruct (H2 Hne) as (_ & _ & Hc & Hsc & _). split; assumption.
Defined.

(** X5.  On every tick of a running game the head moves by exactly one unit
    along exactly one axis: the new head is the old head plus the direction
    the tick commits, a unit vector, and the old head is the segment behind
    it. *)
Theorem head_moves_one_cell (h : host) (evs : list event) (s s' : gameState)
    (head : point) (rest : list point) :
  run h evs initialState = Ok s ->
  isPlaying s = true -> snake s = head :: rest ->
  handle h LoopTimeout s = Ok s' ->
  isUnit (direction s') /\ direction s' = nextDirection s /\
  exists others,
    snake s' = {| x := x head + x (direction s'); y := y head + y (direction s') |}
               :: head :: others /\
    adjacent {| x := x head + x (direction s'); y := y head + y (direction s') |} head.
Proof.
  intros Hrun Hp Hs Hh.
  destruct (reached_ok h evs s Hrun) as ((_ & Hnext & _) & (Hloop & _) & Hsn & _).
  cbn [handle] in Hh. rewrite Hloop, Hp in Hh.
  assert (Hs' : snake (set_gameLoopId false s) = head :: rest) by exact Hs.
  destruct (loop_result h (set_gameLoopId false s) s' head rest Hp Hs' Hh)
    as (L1 & L2 & _).
  cbn [nextDirection set_gameLoopId] in L2.
  destruct Hsn as (_ & Hlen & _). destruct Hlen as (_ & Hlen & _);
    [rewrite Hs; discriminate |].
  destruct (bodyAfterMove_head (set_gameLoopId false s) head rest Hs' ltac:(cbn; lia))
    as [others Hbody].
  rewrite L2. split; [exact Hnext |]. split; [reflexivity |].
  exists others. rewrite L1, Hbody. split; [reflexivity |].
  exact (newHead_adjacent s head Hnext).
Qed.

(** The head of the EASY game after its ninth tick moves from (19, 10) to
    (20, 10). *)
Lemma head_moves_one_cell_witness :
  run (constantHost 0 1)
      ([ClickDifficulty CONFIG.EASY; ClickStartButton] ++ repeat LoopTimeout 8)
      initialState = Ok atRightWall /\
  handle (constantHost 0 1) LoopTimeout atRightWall = Ok afterGameOver /\
  isUnit (direction afterGameOver) /\
  exists others,
    snake afterGameOver
    = {| x := 19 + x (direction afterGameOver); y := 10 + y (direction afterGameOver) |}
      :: {| x := 19; y := 10 |} :: others.
Proof.
  assert (Hh : handle (constantHost 0 1) LoopTimeout atRightWall = Ok afterGameOver)
    by (vm_compute; reflexivity).
  split; [exact atRightWall_reached |]. split; [exact Hh |].
  destruct (head_moves_one_cell (constantHost 0 1) _ atRightWall afterGameOver
              {| x := 19; y := 10 |}
              [ {| x := 18; y := 10 |}; {| x := 17; y := 10 |} ]
              atRightWall_reached eq_refl eq_refl Hh)
    as (Hu & _ & others & Hsn & _).
  split; [exact Hu |]. exists others. exact Hsn.
Defined.

(** X6.  In every state the game reaches the segments behind the head are
    cells of the grid, pairwise distinct; while the game runs so is the head,
    and the snake has at most 400 segments.  The snake never has more than
    401 segments and the score never exceeds 3980. *)
Theorem snake_cells_distinct_on_grid (h : host) (evs : list event) (s : gameState) :
  run h evs initialState = Ok s ->
  Forall inGrid (tl (snake s)) /\ List.NoDup (tl (snake s)) /\
  (isPlaying s = true ->
     Forall inGrid (snake s) /\ List.NoDup (snake s) /\ (length (snake s) <= 400)%nat) /\
  (length (snake s) <= 401)%nat /\ score s <= 3980.
Proof.
  intros Hrun.
  destruct (reached_ok h evs s Hrun)
    as (_ & _ & (S1 & S2 & S3 & S4) & (Hbg & Hbn & Hplay) & _).
  pose proof (cells_at_most_400 _ Hbg Hbn) as Hbody.
  assert (Hlen : (length (snake s) <= 401)%nat).
  { destruct (snake s); cbn in *; lia. }
  assert (Hrunning : isPlaying s = true -> (length (snake s) <= 400)%nat).
  { intros Hp. destruct (Hplay Hp) as [Hg Hn]. exact (cells_at_most_400 _ Hg Hn). }
  split; [exact Hbg |]. split; [exact Hbn |]. split; [| split; [exact Hlen |]].
  - intros Hp. destruct (Hplay Hp) as [Hg Hn].
    split; [exact Hg |]. split; [exact Hn | exact (Hrunning Hp)].
  - destruct (snake s) as [| p l] eqn:Hs; [rewrite S1 by reflexivity; lia |].
    destruct S2 as (_ & _ & _ & Hsc); [discriminate |].
    unfold CONFIG.POINTS_PER_FOOD in Hsc. rewrite Hsc.
    destruct (isPlaying s) eqn:Hp.
    + specialize (Hrunning eq_refl). destruct (shouldGrow s); lia.
    + rewrite (S3 eq_refl). lia.
Qed.

(** The cell property at the EASY game after its ninth tick. *)
Lemma snake_cells_distinct_on_grid_witness :
  run (constantHost 0 1)
      ([ClickDifficulty CONFIG.EASY; ClickStartButton] ++ repeat LoopTimeout 8)
      initialState = Ok atRightWall /\
  Forall inGrid (snake atRightWall) /\ List.NoDup (snake atRightWall).
Proof.
  split; [exact atRightWall_reached |].
  destruct (snake_cells_distinct_on_grid (constantHost 0 1) _ atRightWall
              atRightWall_reached) as (_ & _ & Hplay & _).
  destruct (Hplay eq_refl) as (Hg & Hn & _). split; assumption.
Defined.

(** X7.  With a random source that returns values in [0, 1), as
    [Math.random] does, in every state the game reaches the food is a cell of
    the grid and lies on no segment of the snake. *)
Theorem food_on_grid_off_snake (h : host) (evs : list event) (s : gameState) :
  validRandom h -> run h evs initialState = Ok s ->
  inGrid (food s) /\ ~ In (food s) (snake s).
Proof.
  intros Hr. apply (run_invariant h foodOk).
  - intros ev s0 s1 Hok Hh.
    exact (foodOk_step h s0 s1 Hr Hok (handle_stepKind h ev s0 s1 Hh)).
  - exact (proj2 (proj2 (proj2 (proj2 initialState_ok)))).
Qed.

(** The food property at the EASY game after its ninth tick. *)
Lemma food_on_grid_off_snake_witness :
  validRandom (constantHost 0 1) /\
  run (constantHost 0 1)
      ([ClickDifficulty CONFIG.EASY; ClickStartButton] ++ repeat LoopTimeout 8)
      initialState = Ok atRightWall /\
  inGrid (food atRightWall) /\ ~ In (food atRightWall) (snake atRightWall).
Proof.
  split; [exact (constantHost_validRandom 1) |].
  split; [exact atRightWall_reached |].
  exact (food_on_grid_off_snake (constantHost 0 1) _ atRightWall
           (constantHost_validRandom 1) atRightWall_reached).
Defined.

End Reached2.

Section Reached3.
Import GameJs GameProps.

Lemma handle_idle (h : host) (ev : event) (s : gameState) :
  difficulty s = None -> isPlaying s = false ->
  gameLoopId s = false -> foodTimerId s = false ->
  (forall level, ev <> ClickDifficulty level) ->
  handle h ev s = Ok s.
Proof.
  intros Hd Hp Hl Hf Hev.
  destruct ev as [key | | dx dy | | level | |]; cbn [handle].
  - rewrite Hp, Hd. cbn [negb]. rewrite andb_true_r.
    destruct (String.eqb key " "); [reflexivity |].
    destruct (Input.keyMap key); reflexivity.
  - rewrite Hp. cbn [negb]. unfold Game.start. rewrite Hd. reflexivity.
  - rewrite Hp. reflexivity.
  - rewrite Hp. cbn [negb]. unfold Game.start. rewrite Hd. reflexivity.
  - exfalso. exact (Hev level eq_refl).
  - rewrite Hl. reflexivity.
  - rewrite Hf. reflexivity.
Qed.

(** X8.  Before a difficulty is selected nothing starts the game: any
    sequence of keys, taps, swipes, clicks on the start button and timeouts
    without a click on a difficulty button leaves the initial state as it
    is. *)
Theorem no_game_without_difficulty (h : host) (evs : list event) :
  (forall level, ~ In (ClickDifficulty level) evs) ->
  run h evs initialState = Ok initialState.
Proof.
  induction evs as [| ev evs IH]; intros Hno; [reflexivity |].
  cbn [run]. rewrite (handle_idle h ev initialState) by
    (try reflexivity; intros level Heq; apply (Hno level); left; exact Heq).
  cbn [bind]. apply IH. intros level Hin. apply (Hno level). right. exact Hin.
Qed.

(** The space bar, a tap, the start button and a direction key before any
    difficulty is selected. *)
Lemma no_game_without_difficulty_witness :
  (forall level,
     ~ In (ClickDifficulty level)
          [KeyDown " "; TouchStart; ClickStartButton; KeyDown "ArrowUp"; LoopTimeout]) /\
  run (constantHost 0 1)
      [KeyDown " "; TouchStart; ClickStartButton; KeyDown "ArrowUp"; LoopTimeout]
      initialState = Ok initialState.
Proof.
  assert (Hno : forall level,
            ~ In (ClickDifficulty level)
                 [KeyDown " "; TouchStart; ClickStartButton; KeyDown "ArrowUp"; LoopTimeout]).
  { intros level Hin. cbn in Hin. intuition discriminate. }
  split; [exact Hno |].
  exact (no_game_without_difficulty (constantHost 0 1) _ Hno).
Defined.

(** X9.  The selected difficulty changes only by a click on a difficulty
    button, which sets it to the level clicked: every other event handler
    that completes, starting a game, ending one and restarting included,
    leaves it as it is.  Once selected, a difficulty is never unset. *)
Theorem difficulty_changes_only_by_selection (h : host) (ev : event) (s s' : gameState) :
  handle h ev s = Ok s' ->
  (difficulty s' = difficulty s \/
   exists level, ev = ClickDifficulty level /\ difficulty s' = Some level) /\
  (difficulty s <> None -> difficulty s' <> None).
Proof.
  intros Hh.
  assert (Hmain : difficulty s' = difficulty s \/
                  exists level, ev = ClickDifficulty level /\ difficulty s' = Some level).
  { assert (Hstart : Game.start h s = Ok s' -> difficulty s' = difficulty s).
    { intros Hst. destruct (difficulty s) as [k |] eqn:Hd.
      - destruct (start_spec h s s' k Hd Hst)
          as (s1 & Hl & S1 & _ & _ & _ & S5 & _ & S7 & _).
        destruct (loop_result h s1 s' _ _ S5 S1 Hl) as (_ & _ & _ & L4 & _).
        congruence.
      - unfold Game.start in Hst. rewrite Hd in Hst. inversion Hst; subst. exact Hd. }
    assert (Hsame : Ok s = Ok s' -> difficulty s' = difficulty s)
      by (intros Heq; inversion Heq; reflexivity).
    assert (Hset : forall d, Ok (Input.setDirection d s) = Ok s' ->
                             difficulty s' = difficulty s).
    { intros d Heq. inversion Heq; subst.
      exact (proj1 (proj2 (proj2 (proj2 (proj2 (proj2 (proj2 (proj2
               (setDirection_frame d s))))))))). }
    destruct ev as [key | | dx dy | | level | |]; cbn [handle] in Hh.
    - left. destruct (String.eqb key " " && negb (isPlaying s)).
      + destruct (bool_decide (difficulty s <> None)); auto.
      + destruct (Input.keyMap key); [destruct (isPlaying s) |]; eauto.
    - left. destruct (negb (isPlaying s)); auto.
    - left. destruct (negb (isPlaying s)); auto.
      destruct (_ <? _); auto.
      destruct (_ >? _); [destruct (dx >? 0) | destruct (dy >? 0)]; eauto.
    - left. destruct (negb (isPlaying s)); auto.
    - right. exists level. inversion Hh; subst. split; reflexivity.
    - left. destruct (gameLoopId s); auto.
      destruct (isPlaying s) eqn:Hp.
      + destruct (snake s) as [| head rest] eqn:Hs.
        * unfold Game.loop, Snake.move, headOf in Hh. cbn in Hh.
          rewrite Hp, Hs in Hh. cbn in Hh. discriminate.
        * destruct (loop_result h (set_gameLoopId false s) s' head rest Hp Hs Hh)
            as (_ & _ & _ & L4 & _). exact L4.
      + rewrite loop_stopped in Hh by exact Hp. inversion Hh; reflexivity.
    - left. destruct (foodTimerId s); auto.
      unfold Food.relocate in Hh.
      exact (proj1 (proj2 (proj2 (proj2 (proj2 (proj2 (proj2 (proj2 (proj2
               (generate_spec _ _ _ Hh)))))))))). }
  split; [exact Hmain |].
  intros Hne. destruct Hmain as [Heq | (level & _ & Heq)]; rewrite Heq;
    [exact Hne | discriminate].
Qed.

(** The difficulty survives the tick that ends the game. *)
Lemma difficulty_changes_only_by_selection_witness :
  handle (constantHost 0 1) LoopTimeout atRightWall = Ok afterGameOver /\
  difficulty atRightWall <> None /\
  difficulty afterGameOver <> None.
Proof.
  assert (Hh : handle (constantHost 0 1) LoopTimeout atRightWall = Ok afterGameOver)
    by (vm_compute; reflexivity).
  assert (Hd : difficulty atRightWall <> None) by discriminate.
  split; [exact Hh |]. split; [exact Hd |].
  exact (proj2 (difficulty_changes_only_by_selection (constantHost 0 1) LoopTimeout
                  atRightWall afterGameOver Hh) Hd).
Defined.

(** A tick keeps the food timer away as long as nothing has been eaten. *)
Lemma tick_first_food (h : host) (t s' : gameState) :
  isPlaying t = true -> 0 <= score t ->
  (score t = 0 -> foodTimerId t = false) ->
  Game.loop h t = Ok s' ->
  (score s' = 0 -> foodTimerId s' = false).
Proof.
  intros Hp Hpos Hinv Hl.
  destruct (loop_tickResult h t s' Hp Hl) as (head & rest & Hs & Hres).
  destruct Hres as [Hc -> | s2 k Hc He Hg Hd -> | Hc He ->].
  - intros _. exact (proj2 (proj2 (proj2 (proj2 (proj2 (proj2 (proj2 (proj2 (proj2
                      (gameOver_spec (afterMove head t))))))))))).
  - destruct (eat_fields h t s2 head Hg) as (_ & E2 & _).
    cbn. rewrite E2. unfold CONFIG.POINTS_PER_FOOD. lia.
  - cbn. exact Hinv.
Qed.

(** X10.  The first food of a game has no relocation timer: [Game.start]
    places it while the game is not yet marked as running, so
    [Food.startTimer] arms nothing.  In every state the game reaches, while
    the score is 0 the food timer is not pending and the food stays where it
    is until it is eaten. *)
Theorem first_food_has_no_timer (h : host) (evs : list event) (s : gameState) :
  run h evs initialState = Ok s ->
  score s = 0 ->
  foodTimerId s = false /\ handle h FoodTimeout s = Ok s.
Proof.
  intros Hrun Hzero.
  assert (Hinv : directionsOk s /\ snakeOk s /\ (score s = 0 -> foodTimerId s = false)).
  { revert Hrun.
    apply (run_invariant h
             (fun s => directionsOk s /\ snakeOk s /\
                       (score s = 0 -> foodTimerId s = false))).
    - intros ev s0 s1 (Hd & Hs & Hf) Hh.
      pose proof (handle_stepKind h ev s0 s1 Hh) as Hstep.
      split; [exact (handle_directionsOk h ev s0 s1 Hd Hh) |].
      split; [exact (snakeOk_step h s0 s1 Hd Hs Hstep) |].
      destruct Hstep
        as [-> | d Hp Hu -> | level -> | k s2 Hp Hk Hg Hl | Hl Hloop' | Hft Hg].
      + exact Hf.
      + destruct (setDirection_frame d s0) as (_ & F2 & _ & _ & F5 & _).
        rewrite F2, F5. exact Hf.
      + exact Hf.
      + destruct (start_entry h s0 s2 k Hk Hg) as (_ & _ & T3 & _ & _ & _ & _ & T8).
        cbv zeta in *. set (t := set_isPlaying true _) in *.
        apply (tick_first_food h t s1 eq_refl); [rewrite T3; lia | | exact Hl].
        intros _. exact T8.
      + destruct (isPlaying s0) eqn:Hp.
        * apply (tick_first_food h (set_gameLoopId false s0) s1 Hp); [| exact Hf | exact Hloop'].
          destruct Hs as (_ & Hsn & _ & Hrun).
          destruct (Hsn (Hrun Hp)) as (_ & Hlen & _ & Hsc).
          cbn. rewrite Hsc. unfold CONFIG.POINTS_PER_FOOD.
          destruct (shouldGrow s0); lia.
        * rewrite loop_stopped in Hloop' by exact Hp. inversion Hloop'; subst. exact Hf.
      + destruct (generate_spec _ _ _ Hg) as (_ & _ & _ & G4 & _).
        rewrite G4. intros Hz. rewrite (Hf Hz) in Hft. discriminate.
    - split; [exact initialState_directionsOk |].
      split; [exact (proj1 (proj2 initialState_ok)) | reflexivity]. }
  destruct Hinv as (_ & _ & Hf). split; [exact (Hf Hzero) |].
  cbn [handle]. rewrite (Hf Hzero). reflexivity.
Qed.

(** The EASY game after nine ticks without food. *)
Lemma first_food_has_no_timer_witness :
  run (constantHost 0 1)
      ([ClickDifficulty CONFIG.EASY; ClickStartButton] ++ repeat LoopTimeout 8)
      initialState = Ok atRightWall /\
  score atRightWall = 0 /\ isPlaying atRightWall = true /\
  foodTimerId atRightWall = false.
Proof.
  split; [exact atRightWall_reached |]. split; [reflexivity |]. split; [reflexivity |].
  exact (proj1 (first_food_has_no_timer (constantHost 0 1) _ atRightWall
                  atRightWall_reached eq_refl)).
Defined.

End Reached3.

Section FinishedGame.
Import GameJs GameProps.

(** X11.  The game and the validator fit together on everything but time.
    When a tick ends a game the state reached, the one [Game.gameOver] reads
    the submission from, has a score that is a multiple of 10 and at most
    3980, a snake of exactly [score / 10 + 3] segments and one of the three
    difficulty keys; so [validateScore] accepts the submission exactly when
    its timestamp is at most 600000 ms away from the server's time and the
    game lasted at least [score / 10 * 500] ms. *)
Theorem finished_game_submission (h : host) (evs : list event) (s0 s : gameState)
    (now gameTime serverNow : Z) :
  run h evs initialState = Ok s0 ->
  isPlaying s0 = true ->
  handle h LoopTimeout s0 = Ok s ->
  isPlaying s = false ->
  (Z.rem (score s) 10 = 0 /\ 0 <= score s <= 3980 /\
   Z.of_nat (length (snake s)) = score s / 10 + 3) /\
  exists v,
    SubmitScore.validateScore serverNow (gameOverSubmission now gameTime s) = Ok v /\
    (SubmitScore.valid v = true <->
       Z.abs (serverNow - now) <= 600000 /\ score s / 10 * 500 <= gameTime).
Proof.
  intros Hrun0 Hp0 Hh Hp.
  assert (Hrun : run h (evs ++ [LoopTimeout]) initialState = Ok s).
  { rewrite run_app, Hrun0. cbn [bind run]. rewrite Hh. reflexivity. }
  destruct (reached_ok h _ s Hrun) as (_ & _ & Hsn & Hc & _).
  destruct (reached_ok h _ s0 Hrun0) as (_ & _ & Hsn0 & _ & _).
  assert (Hne : snake s <> []).
  { cbn [handle] in Hh. destruct (gameLoopId s0) eqn:Hl.
    - destruct (loop_tickResult h (set_gameLoopId false s0) s Hp0 Hh)
        as (head & rest & Hs & Hres).
      destruct Hres as [Hc' -> | s2 k Hc' He Hg Hd -> | Hc' He ->].
      + rewrite (proj1 (gameOver_spec _)). cbn. discriminate.
      + cbn in Hp. destruct (eat_fields h _ s2 head Hg) as (_ & _ & _ & E4 & _).
        cbn in E4. congruence.
      + cbn in Hp. congruence.
    - inversion Hh; subst. congruence. }
  destruct Hsn as (_ & Hshape & Hgrow & _).
  destruct (Hshape Hne) as (Hd & Hlen & _ & Hsc).
  rewrite (Hgrow Hp) in Hsc. unfold CONFIG.POINTS_PER_FOOD in Hsc.
  destruct Hc as (Hgrid & Hnd & _).
  pose proof (cells_at_most_400 _ Hgrid Hnd) as Hmax.
  assert (Htl : (length (snake s) <= 401)%nat).
  { destruct (snake s); cbn [tl length] in *; lia. }
  set (n := Z.of_nat (length (snake s))) in *.
  assert (Hn : 3 <= n <= 401) by (unfold n; lia).
  assert (Hdiv : score s / 10 = n - 3).
  { rewrite Hsc. replace (10 * (n - 3 + 0)) with ((n - 3) * 10) by lia.
    apply Z.div_mul. lia. }
  assert (Hrem : Z.rem (score s) 10 = 0).
  { rewrite Hsc. replace (10 * (n - 3 + 0)) with ((n - 3) * 10) by lia.
    apply Z.rem_mul. lia. }
  split; [split; [exact Hrem | split; lia] |].
  destruct (validateScore_integer_body serverNow now (score s)
              n gameTime (difficultyKey s)) as (v & Hv & Hiff).
  exists v. split; [exact Hv |].
  rewrite Hiff. split.
  - intros (_ & _ & Ht & _ & _ & Hg). split; assumption.
  - intros (Ht & Hg).
    split; [exact Hrem |]. split; [lia |]. split; [exact Ht |].
    split; [| split; [rewrite Hdiv; lia | exact Hg]].
    unfold difficultyKey. destruct (difficulty s) as [[| |] |]; try reflexivity.
    congruence.
Qed.

(** The EASY game that ran into the right wall, submitted 4500 ms after its
    start. *)
Lemma finished_game_submission_witness :
  exists v,
    SubmitScore.validateScore 1700000000000
      (gameOverSubmission 1700000000000 4500 afterGameOver) = Ok v /\
    SubmitScore.valid v = true.
Proof.
  destruct (proj2 (finished_game_submission (constantHost 0 1)
              ([ClickDifficulty CONFIG.EASY; ClickStartButton] ++ repeat LoopTimeout 8)
              atRightWall afterGameOver 1700000000000 4500 1700000000000
              atRightWall_reached eq_refl eq_refl eq_refl))
    as (v & Hv & Hiff).
  exists v. split; [exact Hv |].
  apply Hiff. split; [vm_compute; discriminate | vm_compute; discriminate].
Defined.

End FinishedGame.

Section Retries.
Import JS SubmitScore ServiceProps.

(** The outcomes of the retry loop. *)
Lemma retryLoop_cases (retries : nat) (failures : list bool) :
  (retryLoop retries failures = Throws <->
     (0 < retries)%nat /\ firstn retries failures = repeat true retries) /\
  (retryLoop retries failures = Ok tt \/ retryLoop retries failures = Throws).
Proof.
  revert failures. induction retries as [| r IH]; intros failures.
  - cbn. split; [| left; reflexivity].
    split; [discriminate | intros (H & _); lia].
  - destruct failures as [| [|] later].
    + cbn. split; [| left; reflexivity].
      split; [discriminate | intros (_ & H); discriminate].
    + destruct r as [| r'].
      * cbn. split; [| right; reflexivity].
        split; [intros _; split; [lia | reflexivity] | reflexivity].
      * change (retryLoop (S (S r')) (true :: later)) with (retryLoop (S r') later).
        destruct (IH later) as (Hiff & Hend). split; [| exact Hend].
        rewrite Hiff. change (firstn (S (S r')) (true :: later))
          with (true :: firstn (S r') later).
        change (repeat true (S (S r'))) with (true :: repeat true (S r')).
        split.
        -- intros (_ & H). split; [lia | rewrite H; reflexivity].
        -- intros (_ & H). split; [lia | congruence].
    + cbn. split; [| left; reflexivity].
      split; [discriminate | intros (_ & H); discriminate].
Qed.

(** X12.  The retry loop around a store call makes at most [retries]
    attempts: it gives up, rethrowing, exactly when each of the first
    [retries] attempts throws, and it succeeds otherwise; it always ends.
    Both functions run it with 3 attempts. *)
Theorem retryLoop_gives_up (retries : nat) (failures : list bool) :
  (retryLoop retries failures = Throws <->
     (0 < retries)%nat /\ firstn retries failures = repeat true retries) /\
  (retryLoop retries failures = Ok tt \/ retryLoop retries failures = Throws).
Proof.
  exact (retryLoop_cases retries failures).
Qed.

Lemma retryLoop_three (failures : list bool) :
  retryLoop 3 failures = Throws <-> firstn 3 failures = [true; true; true].
Proof.
  rewrite (proj1 (retryLoop_cases 3 failures)).
  change (repeat true 3) with [true; true; true].
  split; [intros (_ & H); exact H | intros H; split; [lia | exact H]].
Qed.

Lemma retryLoop_three_ok (failures : list bool) :
  retryLoop 3 failures = Ok tt <-> firstn 3 failures <> [true; true; true].
Proof.
  rewrite <- retryLoop_three.
  destruct (proj2 (retryLoop_cases 3 failures)) as [H | H]; rewrite H;
    split; congruence.
Qed.

End Retries.

Section SubmitEffects.
Import JS SubmitScore ServiceProps.

Lemma checkRateLimit_denied (t : Z) (ip : string) (m limits : gmap string rateEntry) :
  checkRateLimit t ip m = (false, limits) -> limits = m.
Proof.
  unfold checkRateLimit. destruct (m !! ip) as [entry |]; [| discriminate].
  destruct (_ >? _); [discriminate |].
  destruct (_ >=? _); [| discriminate].
  intros H. inversion H. reflexivity.
Qed.

Lemma handler_submitPath (e : env) (req : request) (s : state) :
  submitPath e req s (fst (handler e req s)) (snd (handler e req s)).
Proof.
  unfold handler.
  destruct (String.eqb (method req) "POST") eqn:Hm; cbn [negb].
  2: { cbn [fst snd]. destruct s. apply path_method.
       intros Heq. rewrite Heq in Hm. discriminate. }
  apply String.eqb_eq in Hm.
  destruct (checkRateLimit _ _ _) as [allowed limits] eqn:Hrl.
  destruct allowed; cbn [negb].
  2: { cbn [fst snd]. pose proof (checkRateLimit_denied _ _ _ _ Hrl) as ->.
       destruct s. apply path_limited; assumption. }
  destruct (trySubmit e req (store s)) as [[stored resp] | |] eqn:Htry; cbn [fst snd].
  2, 3: apply (path_failed e req s limits Hm Hrl); intros r; congruence.
  unfold trySubmit in Htry.
  destruct (json req) as [data | |] eqn:Hdata; cbn [bind] in Htry; try discriminate.
  destruct (validateScore _ data) as [v | |] eqn:Hv; cbn [bind] in Htry; try discriminate.
  destruct (valid v) eqn:Hacc; cbn [negb] in Htry.
  2: { inversion Htry; subst. eapply path_rejected; eassumption. }
  destruct (makeEntry (newId e) data) as [newEntry | |] eqn:Hentry;
    cbn [bind] in Htry; try discriminate.
  destruct (retryLoop 3 (readFailures e)) as [[] | |] eqn:Hread;
    cbn [bind] in Htry; try discriminate.
  destruct (insertEntry _ _ _) as [updated rank] eqn:Hins.
  destruct (retryLoop 3 (writeFailures e)) as [[] | |] eqn:Hwrite;
    cbn [bind] in Htry; try discriminate.
  inversion Htry; subst.
  pose proof (path_stored e req s limits data v newEntry Hm Hrl Hdata Hv Hacc Hentry
                Hread Hwrite) as Hpath.
  cbv zeta in Hpath. rewrite Hins in Hpath. exact Hpath.
Qed.

(** X13.  The submit-score handler answers with one of the statuses 200,
    400, 405, 429 and 500, and the stored record changes only with a 200:
    a request that is refused, rejected or that fails leaves the record as it
    is, and a request answered 405 or 429 leaves the rate-limit map as it is
    too.  With a 200 the record stored is the insertion of the new entry into
    the record read. *)
Theorem submit_stores_only_on_200 (e : env) (req : request) (s : state) :
  let s' := fst (handler e req s) in
  let resp := snd (handler e req s) in
  In (status resp) [200; 400; 405; 429; 500] /\
  (status resp <> 200 -> store s' = store s) /\
  (status resp = 405 \/ status resp = 429 -> s' = s) /\
  (status resp = 405 <-> method req <> "POST"%string) /\
  (status resp = 200 ->
   exists data newEntry,
     json req = Ok data /\ makeEntry (newId e) data = Ok newEntry /\
     store s'
     = Some (fst (insertEntry (nowUpdate e)
                    match store s with
                    | Some existing => existing
                    | None => emptyLeaderboard (nowDefault e)
                    end newEntry))).
Proof.
  cbv zeta.
  destruct (handler_submitPath e req s)
    as [Hm | Hm Hrl | limits data v Hm Hrl Hdata Hv Hacc | limits Hm Hrl Hfail
        | limits data v newEntry Hm Hrl Hdata Hv Hacc Hentry Hread Hwrite];
    cbn [status store rateLimitMap].
  - split; [cbn; tauto |]. split; [reflexivity |]. split; [reflexivity |].
    split; [tauto | discriminate].
  - split; [cbn; tauto |]. split; [reflexivity |]. split; [reflexivity |].
    split; [split; [discriminate | congruence] | discriminate].
  - split; [cbn; tauto |]. split; [reflexivity |].
    split; [intros [H | H]; discriminate |].
    split; [split; [discriminate | congruence] | discriminate].
  - split; [cbn; tauto |]. split; [reflexivity |].
    split; [intros [H | H]; discriminate |].
    split; [split; [discriminate | congruence] | discriminate].
  - split; [cbn; tauto |]. split; [congruence |].
    split; [intros [H | H]; discriminate |].
    split; [split; [discriminate | congruence] |].
    intros _. exists data, newEntry. repeat split; assumption.
Qed.

End SubmitEffects.

Section RateLimitSequences.
Import JS SubmitScore ServiceProps.

Lemma handler_limits (e : env) (req : request) (s : state) :
  method req = "POST"%string ->
  rateLimitMap (fst (handler e req s))
  = snd (checkRateLimit (nowRateLimit e) (clientIp req) (rateLimitMap s)) /\
  (status (snd (handler e req s)) = 429 <->
   fst (checkRateLimit (nowRateLimit e) (clientIp req) (rateLimitMap s)) = false).
Proof.
  intros Hpost.
  destruct (handler_submitPath e req s)
    as [Hm | Hm Hrl | limits data v Hm Hrl Hdata Hv Hacc | limits Hm Hrl Hfail
        | limits data v newEntry Hm Hrl Hdata Hv Hacc Hentry Hread Hwrite];
    [contradiction | rewrite Hrl ..]; cbn [fst snd status rateLimitMap];
    (split; [reflexivity | split; congruence]).
Qed.

Lemma serve_inside (ip : string) (t0 : Z) (calls : list (env * request)) :
  forall (c : nat) (s : state),
    rateLimitMap s !! ip = Some {| windowStart := t0; count := Z.of_nat c |} ->
    Forall (fun call => method (snd call) = "POST"%string /\
                        clientIp (snd call) = ip /\
                        nowRateLimit (fst call) - t0 <= RATE_LIMIT_WINDOW) calls ->
    map (fun resp => status resp =? 429) (serve calls s)
    = map (fun j => (5 <=? c + j)%nat) (List.seq 0 (length calls)).
Proof.
  induction calls as [| [e req] rest IH]; intros c s Hm Hall; [reflexivity |].
  inversion Hall as [| ? ? (Hpost & Hip & Ht) Hrest]; subst. cbn [fst snd] in *.
  cbn [serve length List.seq map].
  destruct (handler e req s) as [s' resp] eqn:Hh.
  destruct (handler_limits e req s Hpost) as (Hlim & H429).
  rewrite Hh in Hlim, H429. cbn [fst snd] in Hlim, H429.
  destruct (checkRateLimit_inside (nowRateLimit e) t0 (Z.of_nat c) _ _ Hm Ht)
    as (Hfst & Hsnd).
  cbn [map]. f_equal.
  - rewrite Hfst in H429. unfold RATE_LIMIT_MAX in H429.
    destruct (Z.eqb_spec (status resp) 429) as [Heq | Hne].
    + apply H429 in Heq. symmetry. apply Nat.leb_le. apply Z.ltb_ge in Heq. lia.
    + symmetry. apply Nat.leb_gt.
      destruct (Z.ltb_spec (Z.of_nat c) 5) as [Hlt | Hge]; [lia |].
      exfalso. apply Hne. apply H429. reflexivity.
  - rewrite <- seq_shift, map_map.
    destruct (Z.ltb_spec (Z.of_nat c) RATE_LIMIT_MAX) as [Hlt | Hge].
    + rewrite (IH (S c) s').
      * apply map_ext. intros j. f_equal. lia.
      * rewrite Hlim, Hsnd. do 2 f_equal. lia.
      * exact Hrest.
    + unfold RATE_LIMIT_MAX in Hge. rewrite (IH c s').
      * apply map_ext. intros j.
        destruct (Nat.leb_spec 5 (c + j)), (Nat.leb_spec 5 (c + S j)); try reflexivity; lia.
      * rewrite Hlim, Hsnd. reflexivity.
      * exact Hrest.
Qed.

(** X14.  The rate limit counts requests, not accepted scores.  When a POST
    from an address opens a window and further POSTs from that address arrive
    within 60000 ms of it, the first five of them get an answer other than
    429 and every later one gets 429, whatever the bodies are and whether
    the store works: a rejected or failed submission uses up the allowance
    like an accepted one. *)
Theorem limit_counts_every_post (ip : string) (e0 : env) (req0 : request)
    (rest : list (env * request)) (s : state) :
  method req0 = "POST"%string -> clientIp req0 = ip ->
  opensWindow (rateLimitMap s) ip (nowRateLimit e0) ->
  Forall (fun call => method (snd call) = "POST"%string /\
                      clientIp (snd call) = ip /\
                      nowRateLimit (fst call) - nowRateLimit e0 <= RATE_LIMIT_WINDOW) rest ->
  map (fun resp => status resp =? 429) (serve ((e0, req0) :: rest) s)
  = map (fun j => (5 <=? j)%nat) (List.seq 0 (S (length rest))).
Proof.
  intros Hpost Hip Hopen Hall.
  cbn [serve length List.seq map].
  destruct (handler e0 req0 s) as [s' resp] eqn:Hh.
  destruct (handler_limits e0 req0 s Hpost) as (Hlim & H429).
  rewrite Hh in Hlim, H429. cbn [fst snd] in Hlim, H429.
  rewrite Hip in Hlim, H429.
  rewrite (checkRateLimit_opens _ _ _ Hopen) in Hlim, H429. cbn [fst snd] in Hlim, H429.
  cbn [map]. f_equal.
  - destruct (Z.eqb_spec (status resp) 429) as [Heq | Hne]; [| reflexivity].
    apply H429 in Heq. discriminate.
  - rewrite (serve_inside ip (nowRateLimit e0) rest 1 s').
    + rewrite <- seq_shift, map_map. reflexivity.
    + rewrite Hlim, lookup_insert_eq. reflexivity.
    + exact Hall.
Qed.

(** Six malformed submissions (the body is the number 7) from one address,
    one every second: five answers 400, then 429. *)
Lemma limit_counts_every_post_witness :
  let call := fun t : Z => (calmEnv t "n", postOf "203.0.113.7" (VNumber (of_Z 7))) in
  let rest := map call [1001; 1002; 1003; 1004; 1005] in
  let s := {| rateLimitMap := ∅; store := None |} in
  map status (serve (call 1000 :: rest) s) = [400; 400; 400; 400; 400; 429] /\
  map (fun resp => status resp =? 429) (serve (call 1000 :: rest) s)
  = [false; false; false; false; false; true].
Proof.
  cbv zeta. split; [vm_compute; reflexivity |].
  refine (limit_counts_every_post "203.0.113.7" (calmEnv 1000 "n")
            (postOf "203.0.113.7" (VNumber (of_Z 7)))
            (map (fun t : Z => (calmEnv t "n", postOf "203.0.113.7" (VNumber (of_Z 7))))
                 [1001; 1002; 1003; 1004; 1005])
            {| rateLimitMap := ∅; store := None |} eq_refl eq_refl _ _).
  - left. cbn [rateLimitMap]. apply lookup_empty.
  - repeat constructor; cbn; unfold RATE_LIMIT_WINDOW; lia.
Defined.

Lemma checkRateLimit_local (t : Z) (ip : string) (m m' : gmap string rateEntry) :
  m !! ip = m' !! ip ->
  fst (checkRateLimit t ip m) = fst (checkRateLimit t ip m') /\
  snd (checkRateLimit t ip m) !! ip = snd (checkRateLimit t ip m') !! ip.
Proof.
  intros Heq. unfold checkRateLimit. rewrite <- Heq.
  destruct (m !! ip) as [entry |] eqn:Hm.
  - destruct (_ >? _); cbn [fst snd];
      [split; [reflexivity | rewrite !lookup_insert_eq; reflexivity] |].
    destruct (_ >=? _); cbn [fst snd];
      [split; [reflexivity | congruence] |].
    split; [reflexivity | rewrite !lookup_insert_eq; reflexivity].
  - cbn [fst snd]. split; [reflexivity | rewrite !lookup_insert_eq; reflexivity].
Qed.

(** X15.  The rate limit is kept per address: the verdicts an address gets
    depend on its own requests and its own entry only.  Removing the
    requests of all other addresses from the sequence, and changing the
    entries of other addresses in the map, changes none of them. *)
Theorem rate_limit_is_per_address (ip : string) (reqs : list (Z * string))
    (m m' : gmap string rateEntry) :
  m !! ip = m' !! ip ->
  verdictsFor ip reqs m
  = verdictsFor ip (List.filter (fun r => String.eqb (snd r) ip) reqs) m'.
Proof.
  revert m m'. induction reqs as [| [t a] rest IH]; intros m m' Heq; [reflexivity |].
  cbn [verdictsFor List.filter snd].
  destruct (String.eqb a ip) eqn:Ha.
  - apply String.eqb_eq in Ha. subst a. cbn [verdictsFor].
    destruct (checkRateLimit_local t ip m m' Heq) as (Hfst & Hsnd).
    destruct (checkRateLimit t ip m) as [allowed m1].
    destruct (checkRateLimit t ip m') as [allowed' m1'].
    cbn [fst snd] in Hfst, Hsnd. subst allowed'.
    rewrite String.eqb_refl. f_equal. apply IH. exact Hsnd.
  - apply String.eqb_neq in Ha.
    pose proof (checkRateLimit_other t a ip m Ha) as Hother.
    destruct (checkRateLimit t a m) as [allowed m1]. cbn [snd] in Hother.
    apply IH. congruence.
Qed.

(** Two addresses taking turns, against one of them alone. *)
Lemma rate_limit_is_per_address_witness :
  let reqs := [ (0, "203.0.113.7"%string); (1, "198.51.100.1"%string);
                (2, "203.0.113.7"%string); (3, "198.51.100.1"%string) ] in
  verdictsFor "203.0.113.7" reqs ∅
  = verdictsFor "203.0.113.7"
      [ (0, "203.0.113.7"%string); (2, "203.0.113.7"%string) ]
      (<["198.51.100.1"%string := {| windowStart := 0; count := 5 |}]> ∅).
Proof.
  cbv zeta.
  assert (Heq : (∅ : gmap string rateEntry) !! "203.0.113.7"%string
                = (<["198.51.100.1"%string := {| windowStart := 0; count := 5 |}]> ∅
                   : gmap string rateEntry) !! "203.0.113.7"%string).
  { rewrite lookup_insert_ne by discriminate. reflexivity. }
  exact (rate_limit_is_per_address "203.0.113.7"
           [ (0, "203.0.113.7"%string); (1, "198.51.100.1"%string);
             (2, "203.0.113.7"%string); (3, "198.51.100.1"%string) ] _ _ Heq).
Defined.

End RateLimitSequences.

Section RateLimitEntries.
Import JS SubmitScore ServiceProps.

Lemma checkRateLimit_counts (t : Z) (a : string) (m : gmap string rateEntry) :
  (forall ip entry, m !! ip = Some entry -> 1 <= count entry <= RATE_LIMIT_MAX) ->
  forall ip entry,
    snd (checkRateLimit t a m) !! ip = Some entry -> 1 <= count entry <= RATE_LIMIT_MAX.
Proof.
  intros Hm ip entry. unfold checkRateLimit, RATE_LIMIT_MAX in *.
  assert (Hnew : forall m0 : gmap string rateEntry,
             (forall ip entry, m0 !! ip = Some entry -> 1 <= count entry <= 5) ->
             forall c0, 1 <= c0 <= 5 -> forall t0,
             <[a := {| windowStart := t0; count := c0 |}]> m0 !! ip = Some entry ->
             1 <= count entry <= 5).
  { intros m0 Hm0 c0 Hc0 t0 Hl. destruct (decide (a = ip)) as [-> | Hne].
    - rewrite lookup_insert_eq in Hl. inversion Hl; subst. exact Hc0.
    - rewrite lookup_insert_ne in Hl by exact Hne. exact (Hm0 ip entry Hl). }
  destruct (m !! a) as [old |] eqn:Ha.
  - destruct (_ >? _); cbn [snd]; [apply (Hnew m Hm); lia |].
    destruct (Z.geb_spec (count old) 5) as [Hge | Hlt]; cbn [snd]; [apply Hm |].
    apply (Hnew m Hm). pose proof (Hm a old Ha). lia.
  - cbn [snd]. apply (Hnew m Hm). lia.
Qed.

Lemma checkRateLimit_keeps (t : Z) (a ip : string) (m : gmap string rateEntry) :
  m !! ip <> None -> snd (checkRateLimit t a m) !! ip <> None.
Proof.
  intros Hm. destruct (decide (a = ip)) as [-> | Hne].
  - unfold checkRateLimit. destruct (m !! ip) as [old |] eqn:Ha; [| contradiction].
    destruct (_ >? _); cbn [snd]; [rewrite lookup_insert_eq; discriminate |].
    destruct (_ >=? _); cbn [snd]; [congruence | rewrite lookup_insert_eq; discriminate].
  - rewrite checkRateLimit_other by exact Hne. exact Hm.
Qed.

Lemma handler_limits_cases (e : env) (req : request) (s : state) :
  rateLimitMap (fst (handler e req s)) = rateLimitMap s \/
  rateLimitMap (fst (handler e req s))
  = snd (checkRateLimit (nowRateLimit e) (clientIp req) (rateLimitMap s)).
Proof.
  destruct (String.eqb (method req) "POST") eqn:Hm.
  - right. apply String.eqb_eq in Hm. exact (proj1 (handler_limits e req s Hm)).
  - left. unfold handler. rewrite Hm. reflexivity.
Qed.

(** X16.  Every entry of the rate-limit map of a running service counts
    between 1 and 5 requests, and the handler never removes an entry: an
    address that has an entry keeps one until the instance is restarted. *)
Theorem rate_entries_count_1_to_5 :
  (forall sys ip entry,
     Service.reachable sys ->
     rateLimitMap (Service.submitState sys) !! ip = Some entry ->
     1 <= count entry <= 5) /\
  (forall e req s ip,
     rateLimitMap s !! ip <> None ->
     rateLimitMap (fst (handler e req s)) !! ip <> None).
Proof.
  split.
  - intros sys ip entry Hreach. revert ip entry.
    induction Hreach as [| s Hs IH | e req s Hjson Hs IH | e method s Hs IH];
      intros ip entry.
    + cbn. rewrite lookup_empty. discriminate.
    + cbn. rewrite lookup_empty. discriminate.
    + unfold Service.submit.
      pose proof (handler_limits_cases e req (Service.submitState s)) as Hcases.
      destruct (handler e req (Service.submitState s)) as [st resp].
      cbn [fst snd Service.submitState] in *.
      destruct Hcases as [-> | ->]; [apply IH |].
      apply checkRateLimit_counts. exact IH.
    + unfold Service.query.
      destruct (GetLeaderboard.handler _ _ _ _) as [c resp].
      cbn [fst Service.submitState]. apply IH.
  - intros e req s ip Hm.
    destruct (handler_limits_cases e req s) as [-> | ->]; [exact Hm |].
    apply checkRateLimit_keeps. exact Hm.
Qed.

(** The map after one malformed submission to a fresh instance. *)
Lemma rate_entries_count_1_to_5_witness :
  let req := postOf "203.0.113.7" (VNumber (of_Z 7)) in
  let sys := fst (Service.submit (calmEnv 1000 "n") req Service.initial) in
  Service.reachable sys /\
  rateLimitMap (Service.submitState sys) !! "203.0.113.7"%string
  = Some {| windowStart := 1000; count := 1 |} /\
  1 <= 1 <= 5.
Proof.
  cbv zeta.
  assert (Hjson : Service.jsonBody (postOf "203.0.113.7" (VNumber (of_Z 7)))).
  { intros data Hdata. inversion Hdata; subst. reflexivity. }
  pose proof (Service.reach_submit (calmEnv 1000 "n") _ _ Hjson Service.reach_initial)
    as Hreach.
  assert (Hlook : rateLimitMap
                    (Service.submitState
                       (fst (Service.submit (calmEnv 1000 "n")
                               (postOf "203.0.113.7" (VNumber (of_Z 7))) Service.initial)))
                  !! "203.0.113.7"%string
                  = Some {| windowStart := 1000; count := 1 |}).
  { vm_compute. reflexivity. }
  split; [exact Hreach |]. split; [exact Hlook |].
  exact (proj1 rate_entries_count_1_to_5 _ _ _ Hreach Hlook).
Defined.

End RateLimitEntries.

Section Identifiers.
Import JS SubmitScore ServiceProps.

Lemma Qtrunc_unit (q : Q) :
  (0 <= q < 1)%Q -> 0 <= Qtrunc (q * inject_Z 16) < 16.
Proof.
  intros (Hlo & Hhi). unfold Qtrunc.
  set (x := (q * inject_Z 16)%Q).
  assert (Hx0 : (0 <= x)%Q).
  { unfold x. apply Qmult_le_0_compat; [exact Hlo | discriminate]. }
  assert (Hx16 : (x < inject_Z 16)%Q).
  { unfold x. setoid_replace (inject_Z 16) with (1 * inject_Z 16)%Q using relation Qeq by ring.
    apply Qmult_lt_r; [reflexivity | exact Hhi]. }
  clearbody x. destruct x as [n d]. cbn [Qnum Qden].
  assert (Hnum : 0 <= n).
  { unfold Qle in Hx0. cbn in Hx0. lia. }
  rewrite Z.quot_div_nonneg by lia.
  change (n / Z.pos d) with (Qfloor (n # d)).
  split.
  - change 0 with (Qfloor 0). apply Qfloor_resp_le. exact Hx0.
  - rewrite Zlt_Qlt. apply Qle_lt_trans with (y := n # d); [apply Qfloor_le | exact Hx16].
Qed.

Lemma replacement_digit (q : Q) (c : ascii) :
  (0 <= q < 1)%Q ->
  exists d,
    replacement q c = String d EmptyString /\
    (if Ascii.eqb c "x" then isHex d else isVariant d) = true.
Proof.
  intros Hq. unfold replacement, mul, of_Z, toInt32.
  pose proof (Qtrunc_unit q Hq) as Hr.
  set (r := Qtrunc (q * inject_Z 16)) in *.
  assert (Hwrap : (if r mod 2 ^ 32 >=? 2 ^ 31 then r mod 2 ^ 32 - 2 ^ 32 else r mod 2 ^ 32)
                  = r).
  { rewrite Z.mod_small by lia. destruct (Z.geb_spec r (2 ^ 31)); lia. }
  cbv zeta. rewrite Hwrap.
  assert (Hn : exists n, (n < 16)%nat /\ r = Z.of_nat n).
  { exists (Z.to_nat r). split; lia. }
  destruct Hn as (n & Hn & ->). clear Hr Hwrap.
  destruct (Ascii.eqb c "x");
    do 16 (destruct n as [| n]; [eexists; split; vm_compute; reflexivity |]); lia.
Qed.

Lemma conforms_replaceXY (random : nat -> Q) (template : string) :
  unitInterval random ->
  forall n, conforms template (replaceXY template random n) = true.
Proof.
  intros Hunit. induction template as [| c rest IH]; intros n; [reflexivity |].
  cbn [replaceXY].
  destruct (Ascii.eqb c "x" || Ascii.eqb c "y") eqn:Hxy.
  - destruct (replacement_digit (random n) c (Hunit n)) as (d & -> & Hd).
    change (String d EmptyString +:+ replaceXY rest random (S n))
      with (String d (replaceXY rest random (S n))).
    cbn [conforms]. rewrite IH, andb_true_r.
    destruct (Ascii.eqb c "x"); [exact Hd |].
    cbn [orb] in Hxy. rewrite Hxy. exact Hd.
  - apply orb_false_elim in Hxy. destruct Hxy as (Hx & Hy).
    cbn [conforms]. rewrite Hx, Hy, Ascii.eqb_refl, IH. reflexivity.
Qed.

Lemma conforms_length (pattern i : string) :
  conforms pattern i = true -> String.length i = String.length pattern.
Proof.
  revert i. induction pattern as [| p rest IH]; intros [| c i] H;
    try discriminate; [reflexivity |].
  cbn [conforms] in H. apply andb_prop in H. destruct H as (_ & H).
  cbn [String.length]. f_equal. apply IH. exact H.
Qed.

(** X17.  With a random source that gives numbers in [0, 1), as
    [Math.random] does, [generateId] returns a string of 36 characters of
    the form xxxxxxxx-xxxx-4xxx-yxxx-xxxxxxxxxxxx in which each x is a
    lower-case hexadecimal digit and the y is one of 8, 9, a, b; the hyphens
    and the 4 are those of the template. *)
Theorem generateId_format (random : nat -> Q) (n : nat) :
  unitInterval random ->
  conforms idTemplate (generateId random n) = true /\
  String.length (generateId random n) = 36%nat /\
  String.get 8 (generateId random n) = Some "-"%char /\
  String.get 14 (generateId random n) = Some "4"%char.
Proof.
  intros Hunit.
  assert (Hc : conforms idTemplate (generateId random n) = true)
    by exact (conforms_replaceXY random idTemplate Hunit n).
  split; [exact Hc |]. split; [exact (conforms_length _ _ Hc) |].
  revert Hc. generalize (generateId random n). intros i Hc.
  unfold idTemplate in Hc.
  do 15 (destruct i as [| ? i]; [discriminate |];
         cbn [conforms] in Hc; apply andb_prop in Hc; destruct Hc as (? & Hc)).
  change (Ascii.eqb "-" "x") with false in *.
  change (Ascii.eqb "-" "y") with false in *.
  change (Ascii.eqb "4" "x") with false in *.
  change (Ascii.eqb "4" "y") with false in *.
  cbv beta iota in *.
  repeat match goal with
         | H : Ascii.eqb _ _ = true |- _ => apply Ascii.eqb_eq in H; subst
         end.
  cbn [String.get]. split; reflexivity.
Qed.

(** A source that gives 0, 0.07, 0.14, ... *)
Lemma generateId_format_witness :
  unitInterval (fun n => Z.of_nat (n * 7 mod 100) # 100) /\
  generateId (fun n => Z.of_nat (n * 7 mod 100) # 100) 0
  = "01234567-8abc-4def-8134-56789acdef01"%string /\
  conforms idTemplate (generateId (fun n => Z.of_nat (n * 7 mod 100) # 100) 0) = true.
Proof.
  assert (Hunit : unitInterval (fun n => Z.of_nat (n * 7 mod 100) # 100)).
  { intros n. pose proof (Nat.mod_upper_bound (n * 7) 100).
    unfold Qle, Qlt. cbn [Qnum Qden]. split; lia. }
  split; [exact Hunit |]. split; [vm_compute; reflexivity |].
  exact (proj1 (generateId_format _ 0%nat Hunit)).
Defined.

End Identifiers.

Section StoredEntries.
Import JS SubmitScore ServiceProps.









(** A submission whose game time is Infinity (the JSON text 1e999) is
    accepted; the store keeps null for its game time. *)
Example infinite_game_time_is_stored_as_null :
  let data :=
    VObject [ ("score"%string, VNumber (of_Z 120));
              ("timestamp"%string, VNumber (of_Z 1700000000000));
              ("gameData"%string,
                VObject [ ("difficulty"%string, VString "EASY");
                          ("snakeLength"%string, VNumber (of_Z 15));
                          ("gameTime"%string, VNumber PInf) ]) ] in
  validateScore 1700000000000 data = Ok accept /\
  exists a,
    makeEntry "n" data = Ok a /\ gameTime a = VNumber PInf /\
    get (entryJson a) "gameTime" = Ok VNull.
Proof.
  cbv zeta. split; [vm_compute; reflexivity |].
  eexists. split; [vm_compute; reflexivity |]. split; reflexivity.
Qed.

End StoredEntries.

Section Eviction.
Import JS SubmitScore ServiceProps.

Lemma firstn_length_app {A : Type} (l1 l2 : list A) :
  firstn (length l1) (l1 ++ l2) = l1.
Proof.
  rewrite firstn_app, Nat.sub_diag, firstn_all. cbn [firstn]. apply app_nil_r.
Qed.

(** X19.  Inserting an entry into a well-formed record drops at most one
    entry, and only from a full record.  Below 20 entries the new list is
    the old one with the new entry added.  At 20 entries either the new
    entry ranks below all of them and the list stays as it is, or the new
    entry takes its place and the last entry of the old list, which the new
    one outranks, is the one dropped; the other entries keep their order. *)
Theorem full_record_drops_its_last_entry (now : Z) (data : leaderboard) (new : entry) :
  snapshotOk (scores data) -> finiteEntry new ->
  let top := scores (fst (insertEntry now data new)) in
  ((length (scores data) < 20)%nat ->
     Permutation top (new :: scores data) /\
     exists l1 l2, scores data = l1 ++ l2 /\ top = l1 ++ new :: l2) /\
  (length (scores data) = 20%nat ->
     (top = scores data /\ Forall (fun a => rankLe a new) (scores data)) \/
     exists l1 l2 last,
       scores data = l1 ++ l2 ++ [last] /\ top = l1 ++ new :: l2 /\
       ~ rankLe last new).
Proof.
  intros (Hlen & Hfin & Hsorted) Hnew. cbv zeta.
  destruct (sort_pushed (scores data) new Hfin Hsorted Hnew)
    as (l1 & l2 & Heq & Hsort & H1 & H2).
  unfold insertEntry, slice0. cbn [fst scores]. rewrite Hsort.
  split.
  - intros Hlt.
    assert (Hall : firstn 20 (l1 ++ new :: l2) = l1 ++ new :: l2).
    { apply firstn_all2. rewrite length_app. cbn [length].
      rewrite Heq, length_app in Hlt. lia. }
    rewrite Hall. split; [| exists l1, l2; split; [exact Heq | reflexivity]].
    rewrite Heq. symmetry. apply Permutation_middle.
  - intros Hfull.
    assert (Hcases : l2 = [] \/ exists l2' last, l2 = l2' ++ [last]).
    { destruct l2 as [| b rest]; [left; reflexivity | right].
      destruct (@exists_last _ (b :: rest)) as (l2' & last & Hl2); [discriminate |].
      exists l2', last. exact Hl2. }
    destruct Hcases as [-> | (l2' & last & ->)].
    + left. rewrite app_nil_r in Heq. subst l1. rewrite <- Hfull.
      split; [apply firstn_length_app | exact H1].
    + right. exists l1, l2', last. split; [exact Heq |]. split.
      * replace (l1 ++ new :: l2' ++ [last]) with ((l1 ++ new :: l2') ++ [last])
          by (rewrite <- app_assoc; reflexivity).
        replace 20%nat with (length (l1 ++ new :: l2')).
        -- apply firstn_length_app.
        -- rewrite Heq in Hfull. rewrite !length_app in *. cbn [length] in *. lia.
      * apply Forall_app in H2. destruct H2 as (_ & Hlast).
        inversion Hlast; subst. assumption.
Qed.

(** A record of two entries takes a third one. *)
Lemma full_record_drops_its_last_entry_witness :
  snapshotOk (scores twoEntries) /\
  finiteEntry (entryOf "n" 120 1700000000000) /\
  Permutation (scores (fst (insertEntry 1700000000000 twoEntries
                              (entryOf "n" 120 1700000000000))))
              (entryOf "n" 120 1700000000000 :: scores twoEntries).
Proof.
  assert (Hnew : finiteEntry (entryOf "n" 120 1700000000000))
    by (split; reflexivity).
  assert (Hlt : (length (scores twoEntries) < 20)%nat) by (cbn; lia).
  split; [exact twoEntries_ok |]. split; [exact Hnew |].
  exact (proj1 (proj1 (full_record_drops_its_last_entry 1700000000000 twoEntries
                         (entryOf "n" 120 1700000000000) twoEntries_ok Hnew) Hlt)).
Defined.

End Eviction.

Section QueryCache.
Import JS SubmitScore ServiceProps.

Lemma submitAll_cache (calls : list (env * request)) (sys : Service.system) :
  Service.queryCache (submitAll calls sys) = Service.queryCache sys.
Proof.
  revert sys. induction calls as [| [e req] rest IH]; intros sys; [reflexivity |].
  cbn [submitAll]. rewrite IH. unfold Service.submit.
  destruct (handler e req (Service.submitState sys)) as [st resp]. reflexivity.
Qed.

(** X20.  A leaderboard read from the store is served from memory for the
    next 5000 ms, whatever is submitted meanwhile: a query that arrives less
    than 5000 ms after the one that filled the cache gets the same answer,
    reads nothing from the store and leaves the cache as it is, even after
    accepted submissions. *)
Theorem cached_leaderboard_hides_submissions (e0 e1 : GetLeaderboard.env)
    (sys : Service.system) (calls : list (env * request)) :
  GetLeaderboard.cacheHit (Service.queryCache sys) (GetLeaderboard.now e0) = None ->
  retryLoop 3 (GetLeaderboard.readFailures e0) = Ok tt ->
  GetLeaderboard.now e1 - GetLeaderboard.now e0 < GetLeaderboard.CACHE_TTL ->
  let sys1 := fst (Service.query e0 "GET" sys) in
  let sys2 := submitAll calls sys1 in
  snd (Service.query e1 "GET" sys2) = snd (Service.query e0 "GET" sys) /\
  fst (Service.query e1 "GET" sys2) = sys2.
Proof.
  intros Hmiss Hread Hfresh. cbv zeta.
  set (ld := match store (Service.submitState sys) with
             | Some existing => existing
             | None => emptyLeaderboard (GetLeaderboard.nowDefault e0)
             end).
  assert (H0 : Service.query e0 "GET" sys
               = ({| Service.submitState := Service.submitState sys;
                     Service.queryCache :=
                       {| GetLeaderboard.cachedData := Some ld;
                          GetLeaderboard.cacheTimestamp := GetLeaderboard.now e0 |} |},
                  GetLeaderboard.okResponse ld)).
  { unfold Service.query, GetLeaderboard.handler.
    change (negb ("GET" =? "GET")%string) with false. cbv iota.
    rewrite Hmiss, Hread. reflexivity. }
  rewrite H0. cbn [fst snd].
  set (sys1 := {| Service.submitState := Service.submitState sys;
                  Service.queryCache := _ |}).
  pose proof (submitAll_cache calls sys1) as Hcache.
  destruct (submitAll calls sys1) as [st c]. cbn [Service.queryCache] in Hcache.
  subst c. unfold Service.query, GetLeaderboard.handler, sys1.
  cbn [Service.queryCache Service.submitState].
  change (negb ("GET" =? "GET")%string) with false. cbv iota.
  unfold GetLeaderboard.cacheHit.
  cbn [GetLeaderboard.cachedData GetLeaderboard.cacheTimestamp].
  destruct (Z.ltb_spec (GetLeaderboard.now e1 - GetLeaderboard.now e0)
              GetLeaderboard.CACHE_TTL) as [_ | Hge]; [| lia].
  split; reflexivity.
Qed.

(** A query of the empty store, an accepted submission one second later and
    a second query after another second: the leaderboard is still empty. *)
Lemma cached_leaderboard_hides_submissions_witness :
  let e0 := {| GetLeaderboard.now := 1700000000000;
               GetLeaderboard.nowDefault := 1700000000000;
               GetLeaderboard.readFailures := [] |} in
  let e1 := {| GetLeaderboard.now := 1700000002000;
               GetLeaderboard.nowDefault := 1700000002000;
               GetLeaderboard.readFailures := [] |} in
  let calls := [ (calmEnv 1700000001000 "n",
                  postOf "203.0.113.7" (submissionOf 120 15 7000 1700000001000)) ] in
  let sys2 := submitAll calls (fst (Service.query e0 "GET" Service.initial)) in
  length (storedScores (store (Service.submitState sys2))) = 1%nat /\
  snd (Service.query e1 "GET" sys2)
  = {| GetLeaderboard.status := 200;
       GetLeaderboard.responseBody := GetLeaderboard.ScoresBody [] 1700000000000 |}.
Proof.
  cbv zeta. split; [vm_compute; reflexivity |].
  refine (eq_trans
            (proj1 (cached_leaderboard_hides_submissions
                      {| GetLeaderboard.now := 1700000000000;
                         GetLeaderboard.nowDefault := 1700000000000;
                         GetLeaderboard.readFailures := [] |}
                      {| GetLeaderboard.now := 1700000002000;
                         GetLeaderboard.nowDefault := 1700000002000;
                         GetLeaderboard.readFailures := [] |}
                      Service.initial
                      [ (calmEnv 1700000001000 "n",
                         postOf "203.0.113.7" (submissionOf 120 15 7000 1700000001000)) ]
                      eq_refl eq_refl _)) _).
  - unfold GetLeaderboard.CACHE_TTL. cbn. lia.
  - reflexivity.
Defined.

(** X23.  A GET is answered 500 exactly when it misses the cache and the
    first three reads of the store fail; the answer then lists no scores, and
    the cache, expired or empty, stays as it is and is not served.  Every
    other GET is answered 200. *)
Theorem query_fails_after_three_reads (e : GetLeaderboard.env)
    (c : GetLeaderboard.cache) (stored : option leaderboard) :
  let c' := fst (GetLeaderboard.handler e "GET" c stored) in
  let resp := snd (GetLeaderboard.handler e "GET" c stored) in
  (GetLeaderboard.status resp = 500 <->
     GetLeaderboard.cacheHit c (GetLeaderboard.now e) = None /\
     firstn 3 (GetLeaderboard.readFailures e) = [true; true; true]) /\
  (GetLeaderboard.status resp = 500 ->
     c' = c /\
     GetLeaderboard.responseBody resp = GetLeaderboard.FailureBody "Server error" []) /\
  (GetLeaderboard.status resp = 500 \/ GetLeaderboard.status resp = 200).
Proof.
  cbv zeta. unfold GetLeaderboard.handler.
  change (negb ("GET" =? "GET")%string) with false. cbv iota.
  destruct (GetLeaderboard.cacheHit c (GetLeaderboard.now e)) as [data |].
  - cbn [fst snd GetLeaderboard.status GetLeaderboard.okResponse].
    split; [split; [discriminate | intros (H & _); discriminate] |].
    split; [discriminate | right; reflexivity].
  - pose proof (retryLoop_three (GetLeaderboard.readFailures e)) as Hthrows.
    destruct (proj2 (retryLoop_cases 3 (GetLeaderboard.readFailures e)))
      as [Hok | Hfail].
    + rewrite Hok. cbn [fst snd GetLeaderboard.status GetLeaderboard.okResponse].
      split; [split; [discriminate |] |].
      * intros (_ & H). apply Hthrows in H. congruence.
      * split; [discriminate | right; reflexivity].
    + rewrite Hfail. cbn [fst snd GetLeaderboard.status GetLeaderboard.responseBody].
      split; [split; [intros _; split; [reflexivity | apply Hthrows; exact Hfail]
                     | reflexivity] |].
      split; [intros _; split; reflexivity | left; reflexivity].
Qed.

End QueryCache.

Section ServedLeaderboards.
Import JS SubmitScore ServiceProps.





(** X21.  An accepted score shows up at the rank it was given.  When a
    submission is answered 200 with a rank, the next query that reads the
    store lists the new entry, with the identifier generated for it, at that
    rank (counted from 1), and reports the time of the update. *)
Theorem accepted_score_is_listed_at_its_rank (es : env) (req : request)
    (eq : GetLeaderboard.env) (sys : Service.system) (rank : Z) (msg : message) :
  Service.reachable sys -> Service.jsonBody req ->
  freshId (newId es) (storedScores (store (Service.submitState sys))) ->
  snd (Service.submit es req sys)
  = {| status := 200; responseBody := SuccessBody (Some rank) msg |} ->
  GetLeaderboard.cacheHit (Service.queryCache sys) (GetLeaderboard.now eq) = None ->
  retryLoop 3 (GetLeaderboard.readFailures eq) = Ok tt ->
  exists newEntry listed,
    snd (Service.query eq "GET" (fst (Service.submit es req sys)))
    = {| GetLeaderboard.status := 200;
         GetLeaderboard.responseBody := GetLeaderboard.ScoresBody listed (nowUpdate es) |} /\
    1 <= rank <= 20 /\
    nth_error listed (Z.to_nat (rank - 1)) = Some newEntry /\
    id newEntry = newId es /\ msg = MadeLeaderboard rank.
Proof.
  intros Hreach Hjson Hfresh Hresp Hmiss Hread.
  pose proof (reachable_snapshotOk sys Hreach) as Hok.
  unfold Service.submit in *.
  pose proof (handler_submitPath es req (Service.submitState sys)) as Hpath.
  destruct (handler es req (Service.submitState sys)) as [st resp].
  cbn [fst snd] in Hresp, Hpath |- *.
  destruct Hpath
    as [Hm | Hm Hrl | limits data v Hm Hrl Hdata Hv Hacc | limits Hm Hrl Hfail
        | limits data v newEntry Hm Hrl Hdata Hv Hacc Hentry Hrd Hwr];
    try discriminate Hresp.
  repeat match goal with x := _ |- _ => subst x end.
  set (ld := match store (Service.submitState sys) with
             | Some existing => existing
             | None => emptyLeaderboard (nowDefault es)
             end) in *.
  assert (Hrank : snd (insertEntry (nowUpdate es) ld newEntry) = Some rank).
  { apply (f_equal (fun r => match responseBody r with
                             | SuccessBody rk _ => rk
                             | _ => None
                             end)) in Hresp. exact Hresp. }
  assert (Hmsg : match snd (insertEntry (nowUpdate es) ld newEntry) with
                 | Some r => MadeLeaderboard r
                 | None => ScoreSubmitted
                 end = msg).
  { apply (f_equal (fun r => match responseBody r with
                             | SuccessBody _ m => m
                             | _ => ScoreSubmitted
                             end)) in Hresp. exact Hresp. }
  clear Hresp.
  destruct (makeEntry_valid (nowValidate es) (newId es) data v Hv Hacc)
    as (newEntry' & Hentry' & Hid & _ & _ & Hfs & Hft).
  assert (newEntry' = newEntry) by congruence. subst newEntry'.
  assert (Hnew : finiteEntry newEntry)
    by (split; [exact Hfs | exact (Hft (Hjson data Hdata))]).
  assert (Hld : scores ld = storedScores (store (Service.submitState sys)))
    by (subst ld; destruct (store _); reflexivity).
  assert (Hok' : snapshotOk (scores ld)) by (rewrite Hld; exact Hok).
  assert (Hfresh' : freshId (id newEntry) (scores ld))
    by (rewrite Hld, Hid; exact Hfresh).
  destruct (insertEntry_spec (nowUpdate es) ld newEntry Hok' Hnew Hfresh')
    as (l1 & l2 & Heq & Hsort & _ & _ & Hcases).
  destruct Hcases as [[Hlt Hr] | (_ & _ & Hr & _)]; [| congruence].
  assert (Hrk : rank = Z.of_nat (length l1) + 1) by congruence.
  exists newEntry, (scores (fst (insertEntry (nowUpdate es) ld newEntry))).
  split.
  - unfold Service.query, GetLeaderboard.handler.
    cbn [Service.queryCache Service.submitState store].
    change (negb ("GET" =? "GET")%string) with false. cbv iota.
    rewrite Hmiss, Hread. reflexivity.
  - split; [lia |]. split; [| split; [exact Hid |]].
    + unfold insertEntry, slice0. cbn [fst scores]. rewrite Hsort, Hrk.
      replace (Z.to_nat (Z.of_nat (length l1) + 1 - 1)) with (length l1) by lia.
      rewrite nth_error_firstn.
      destruct (Nat.ltb_spec (length l1) 20); [| lia].
      rewrite nth_error_app2 by lia. rewrite Nat.sub_diag. reflexivity.
    + rewrite Hrank in Hmsg. symmetry. exact Hmsg.
Qed.

(** The first submission to a fresh service and the query that follows. *)
Lemma accepted_score_is_listed_at_its_rank_witness :
  let es := calmEnv 1700000000000 "n" in
  let req := postOf "203.0.113.7" (submissionOf 120 15 7000 1700000000000) in
  let eq := {| GetLeaderboard.now := 1700000001000;
               GetLeaderboard.nowDefault := 1700000001000;
               GetLeaderboard.readFailures := [] |} in
  exists newEntry listed,
    snd (Service.query eq "GET" (fst (Service.submit es req Service.initial)))
    = {| GetLeaderboard.status := 200;
         GetLeaderboard.responseBody := GetLeaderboard.ScoresBody listed 1700000000000 |} /\
    nth_error listed 0 = Some newEntry /\ id newEntry = "n"%string.
Proof.
  cbv zeta.
  assert (Hjson : Service.jsonBody
                    (postOf "203.0.113.7" (submissionOf 120 15 7000 1700000000000))).
  { intros data Hdata. inversion Hdata; subst. reflexivity. }
  assert (Hfresh : freshId (newId (calmEnv 1700000000000 "n"))
                     (storedScores (store (Service.submitState Service.initial))))
    by constructor.
  assert (Hresp : snd (Service.submit (calmEnv 1700000000000 "n")
                         (postOf "203.0.113.7" (submissionOf 120 15 7000 1700000000000))
                         Service.initial)
                  = {| status := 200;
                       responseBody := SuccessBody (Some 1) (MadeLeaderboard 1) |})
    by (vm_compute; reflexivity).
  destruct (accepted_score_is_listed_at_its_rank (calmEnv 1700000000000 "n")
              (postOf "203.0.113.7" (submissionOf 120 15 7000 1700000000000))
              {| GetLeaderboard.now := 1700000001000;
                 GetLeaderboard.nowDefault := 1700000001000;
                 GetLeaderboard.readFailures := [] |}
              Service.initial 1 (MadeLeaderboard 1)
              Service.reach_initial Hjson Hfresh Hresp eq_refl eq_refl)
    as (newEntry & listed & Hq & _ & Hnth & Hid & _).
  exists newEntry, listed. split; [exact Hq |]. split; [exact Hnth | exact Hid].
Defined.


End ServedLeaderboards.

Section HandlerExamples.
Import JS SubmitScore ServiceProps.

(** A malformed submission against a stored record: answered 400, the
    record stays. *)
Lemma submit_stores_only_on_200_witness :
  let e := calmEnv 1700000000000 "n" in
  let req := postOf "203.0.113.7" (VNumber (of_Z 7)) in
  let s := {| rateLimitMap := ∅; store := Some twoEntries |} in
  status (snd (handler e req s)) = 400 /\
  store (fst (handler e req s)) = Some twoEntries.
Proof.
  cbv zeta.
  assert (Hstatus : status (snd (handler (calmEnv 1700000000000 "n")
                                   (postOf "203.0.113.7" (VNumber (of_Z 7)))
                                   {| rateLimitMap := ∅; store := Some twoEntries |}))
                    = 400) by (vm_compute; reflexivity).
  split; [exact Hstatus |].
  apply (proj1 (proj2 (submit_stores_only_on_200 (calmEnv 1700000000000 "n")
                         (postOf "203.0.113.7" (VNumber (of_Z 7)))
                         {| rateLimitMap := ∅; store := Some twoEntries |}))).
  rewrite Hstatus. discriminate.
Defined.

(** An expired cache and a store whose first three reads fail: answered 500,
    the expired record is neither served nor dropped. *)
Lemma query_fails_after_three_reads_witness :
  let e := {| GetLeaderboard.now := 1700000010000;
              GetLeaderboard.nowDefault := 1700000010000;
              GetLeaderboard.readFailures := [true; true; true] |} in
  let c := {| GetLeaderboard.cachedData := Some twoEntries;
              GetLeaderboard.cacheTimestamp := 1700000000000 |} in
  GetLeaderboard.status (snd (GetLeaderboard.handler e "GET" c (Some twoEntries))) = 500 /\
  fst (GetLeaderboard.handler e "GET" c (Some twoEntries)) = c.
Proof.
  cbv zeta.
  assert (Hstatus :
            GetLeaderboard.status
              (snd (GetLeaderboard.handler
                      {| GetLeaderboard.now := 1700000010000;
                         GetLeaderboard.nowDefault := 1700000010000;
                         GetLeaderboard.readFailures := [true; true; true] |} "GET"
                      {| GetLeaderboard.cachedData := Some twoEntries;
                         GetLeaderboard.cacheTimestamp := 1700000000000 |}
                      (Some twoEntries))) = 500).
  { apply (proj1 (query_fails_after_three_reads _ _ _)). split; reflexivity. }
  split; [exact Hstatus |].
  exact (proj1 (proj1 (proj2 (query_fails_after_three_reads _ _ _)) Hstatus)).
Defined.

End HandlerExamples.
